(** * Navigation history service of the workbench

    A shallow embedding of
    [src/vs/workbench/services/history/browser/history.ts]:
    the selection-change classifier [TextEditorState], the navigation
    stack with its cursor, the recency history with its persistence,
    and the properties the design document states about them. *)

From Stdlib Require Import ZArith String Ascii List Bool Lia DecimalString.
Import ListNotations.
Local Open Scope Z_scope.
Set Warnings "-register-all".

(** ** JavaScript arrays and values *)

Module Js.
Section Arrays.
Context {A : Type}.

(** [l.length] *)
Definition len (l : list A) : Z := Z.of_nat (List.length l).

(** [l[i]]: [undefined] (here [None]) for a negative index or one past
    the end. *)
Definition get (l : list A) (i : Z) : option A :=
  if i <? 0 then None else nth_error l (Z.to_nat i).

(** Relative positions of [slice] and [splice]: a negative position
    counts from the end, and the result is clamped to [0 .. length]. *)
Definition clamp (l : list A) (i : Z) : nat :=
  if i <? 0 then Z.to_nat (Z.max (len l + i) 0)
  else Z.to_nat (Z.min i (len l)).

(** [l.slice(0, e)] *)
Definition slice0 (l : list A) (e : Z) : list A := firstn (clamp l e) l.

(** [l.splice(start, 0, x)]: insertion, nothing deleted. *)
Definition splice_insert (l : list A) (start : Z) (x : A) : list A :=
  firstn (clamp l start) l ++ x :: skipn (clamp l start) l.

(** [l.shift()] and [l.pop()], as the array they leave behind. *)
Definition shift (l : list A) : list A := tl l.
Definition pop (l : list A) : list A := removelast l.

(** [l.unshift(x)] *)
Definition unshift (x : A) (l : list A) : list A := x :: l.

(** [l[i] = x] for a position that holds an element, and for
    [i = l.length], which appends.  Other positions would make the
    array sparse; the only assignment of the source is guarded by
    [l[i]] being defined (lemma [replaceDecision_defined] below), so the
    list is returned as it is there. *)
Fixpoint set_nat (l : list A) (i : nat) (x : A) : list A :=
  match l, i with
  | [], O => [x]
  | [], S _ => []
  | _ :: t, O => x :: t
  | h :: t, S i' => h :: set_nat t i' x
  end.

Definition set (l : list A) (i : Z) (x : A) : list A :=
  if i <? 0 then l else set_nat l (Z.to_nat i) x.
End Arrays.

(** A value as [JSON.parse] returns it. *)
Inductive json : Type :=
| JNull
| JBool (b : bool)
| JNum (n : Z)
| JStr (s : string)
| JArr (items : list json)
| JObj (fields : list (string * json)).

(** Truthiness, as [if (v)], [!!v] and [a || b] see it. *)
Definition truthy (v : json) : bool :=
  match v with
  | JNull => false
  | JBool b => b
  | JNum n => negb (n =? 0)
  | JStr s => negb (String.eqb s EmptyString)
  | JArr _ | JObj _ => true
  end.

Fixpoint assoc (k : string) (fields : list (string * json)) : option json :=
  match fields with
  | [] => None
  | (k', v) :: rest => if String.eqb k k' then Some v else assoc k rest
  end.

(** Errors a statement can raise. *)
Inductive Error : Type := TypeError | SyntaxError.

(** [v.k] on a parsed value: reading a property of [null] raises, an
    object yields the field if it has one, and every other value (none
    of them has a property called [resource] or [resourceJSON]) yields
    [undefined]. *)
Definition prop (v : json) (k : string) : Error + option json :=
  match v with
  | JNull => inl TypeError
  | JObj fields => inr (assoc k fields)
  | _ => inr None
  end.

Definition truthy_opt (v : option json) : bool :=
  match v with Some v => truthy v | None => false end.
End Js.

(** ** Data model *)

(** A URI, identified with its [toString()]: the source compares
    resources by that string only. *)
Definition URI := string.

(** The fields of the editor's [Selection] that the service reads. *)
Module Selection.
Record t : Type := {
  startLineNumber : Z;
  startColumn : Z;
  selectionStartLineNumber : Z;
  positionLineNumber : Z
}.

(** A range keeps its start before its end, which makes the start line
    the smaller of the two lines of the selection. *)
Definition normalized (s : t) : Prop :=
  startLineNumber s = Z.min (selectionStartLineNumber s) (positionLineNumber s).
End Selection.

(** [Selection.isISelection]: [None] stands for a selection the control
    does not have. *)
Definition isISelection (s : option Selection.t) : bool :=
  match s with Some _ => true | None => false end.

Record ITextEditorSelection : Type := {
  startLineNumber : Z;
  startColumn : Z
}.

Record ICursorPositionChangedEvent : Type := { source : string }.

(** What the service consumes from the workbench: resolved editor inputs
    with their host-defined identity, file change events, the exclusion
    matcher, and the JSON and URI codecs used for persistence. *)
Class Host : Type := {
  EditorInput : Type;
  (** [a.matches(b)] *)
  input_matches : EditorInput -> EditorInput -> bool;
  (** [input.getName()] *)
  getName : EditorInput -> string;
  (** [toResource(input, { filter: 'file' })] *)
  toResource : EditorInput -> option URI;
  FileChangesEvent : Type;
  (** [e.contains(resource, FileChangeType.DELETED)] *)
  contains_deleted : FileChangesEvent -> URI -> bool;
  (** [resourceFilter.matches(resource)] *)
  resourceFilter_matches : URI -> bool;
  (** [JSON.parse]; [None] is a [SyntaxError] *)
  JSON_parse : string -> option Js.json;
  JSON_stringify : Js.json -> string;
  (** [uri.toJSON()], an object *)
  URI_toJSON : URI -> list (string * Js.json);
  URI_revive : Js.json -> URI;
  URI_parse : Js.json -> URI
}.

Section References.
Context {host : Host}.

(** [IEditorInput | IResourceInput] *)
Inductive DocRef : Type :=
| Editor (i : EditorInput)
| Resource (r : URI).

(** [IEditorInput | IResourceInput | FileChangesEvent] *)
Inductive Arg : Type :=
| Doc (d : DocRef)
| FileChanges (e : FileChangesEvent).

End References.

Module IStackEntry.
Section Entry.
Context {host : Host}.
Record t : Type := {
  input : DocRef;
  selection : option ITextEditorSelection;
  timestamp : Z
}.
End Entry.
End IStackEntry.

Module IRecentlyClosedFile.
Record t : Type := {
  resource : URI;
  index : Z
}.
End IRecentlyClosedFile.

Section Collaborators.
Context {host : Host}.

(** The active editor: its input, and its code editor control when it
    is a text editor, given by what [control.getSelection()] returns. *)
Record IBaseEditor : Type := {
  editor_input : option EditorInput;
  codeEditor : option (option Selection.t)
}.

Record ITextEditorOptions : Type := {
  revealIfOpened : bool;
  options_selection : option ITextEditorSelection;
  revealInCenterIfOutsideViewport : bool
}.

Inductive DisposeHandler : Type := RemoveFromHistory | RemoveFromStack.

(** Calls the service makes on its collaborators: [openEditor],
    [windowService.removeFromRecentlyOpened] (with the resource whose
    [fsPath] is passed), a [once(onDispose)] subscription with the
    argument its handler will remove, and [errors.onUnexpectedError]. *)
Inductive Effect : Type :=
| OpenEditor (target : DocRef) (options : ITextEditorOptions)
| RemoveFromRecentlyOpened (resource : URI)
| OnceDispose (subject : EditorInput) (handler : DisposeHandler) (arg : EditorInput)
| UnexpectedError.

End Collaborators.

(** ** Selection-change classifier *)

Module TextEditorState.
Section Classifier.
Context {host : Host}.

Definition EDITOR_SELECTION_THRESHOLD : Z := 10.

Record t : Type := {
  _editorInput : EditorInput;
  _selection : option Selection.t
}.

Definition editorInput (this : t) : EditorInput := _editorInput this.

(** The getter [selection], computed by the constructor. *)
Definition selection (this : t) : option ITextEditorSelection :=
  match _selection this with
  | Some s => Some {| startLineNumber := Selection.startLineNumber s;
                      startColumn := Selection.startColumn s |}
  | None => None
  end.

Definition api_source (event : option ICursorPositionChangedEvent) : bool :=
  match event with
  | Some e => String.eqb (source e) "api"
  | None => false
  end.

Definition justifiesNewPushState (this other : t)
    (event : option ICursorPositionChangedEvent) : bool :=
  if api_source event then true
  else if negb (input_matches (_editorInput this) (_editorInput other)) then true
  else
    match _selection this, _selection other with
    | Some a, Some b =>
        let thisLineNumber :=
          Z.min (Selection.selectionStartLineNumber a) (Selection.positionLineNumber a) in
        let otherLineNumber :=
          Z.min (Selection.selectionStartLineNumber b) (Selection.positionLineNumber b) in
        if Z.abs (thisLineNumber - otherLineNumber) <? EDITOR_SELECTION_THRESHOLD
        then false
        else true
    | _, _ => true
    end.
End Classifier.
End TextEditorState.

(** ** The history service *)

Module HistoryService.
Section Service.
Context {host : Host}.

Definition STORAGE_KEY : string := "history.entries".
Definition MAX_HISTORY_ITEMS : Z := 200.
Definition MAX_STACK_ITEMS : Z := 20.
Definition MAX_RECENTLY_CLOSED_EDITORS : Z := 20.
Definition MERGE_EVENT_CHANGES_THRESHOLD : Z := 300.

(** The fields of the service, the workspace storage it reads and
    writes, and the calls it has made on its collaborators.  [history]
    is [None] until the persisted history has been loaded. *)
Record State : Type := {
  stack : list IStackEntry.t;
  index : Z;
  lastIndex : Z;
  navigatingInStack : bool;
  currentTextEditorState : option TextEditorState.t;
  history : option (list DocRef);
  recentlyClosedFiles : list IRecentlyClosedFile.t;
  loaded : bool;
  storage : list (string * string);
  log : list Effect
}.

(** The state the constructor leaves, over a given storage. *)
Definition init (store : list (string * string)) : State :=
  {| stack := []; index := -1; lastIndex := -1; navigatingInStack := false;
     currentTextEditorState := None; history := None;
     recentlyClosedFiles := []; loaded := false; storage := store; log := [] |}.

Definition set_stack (v : list IStackEntry.t) (s : State) : State :=
  {| stack := v; index := index s; lastIndex := lastIndex s;
     navigatingInStack := navigatingInStack s;
     currentTextEditorState := currentTextEditorState s; history := history s;
     recentlyClosedFiles := recentlyClosedFiles s; loaded := loaded s;
     storage := storage s; log := log s |}.

Definition set_cursor (i li : Z) (s : State) : State :=
  {| stack := stack s; index := i; lastIndex := li;
     navigatingInStack := navigatingInStack s;
     currentTextEditorState := currentTextEditorState s; history := history s;
     recentlyClosedFiles := recentlyClosedFiles s; loaded := loaded s;
     storage := storage s; log := log s |}.

Definition set_navigatingInStack (v : bool) (s : State) : State :=
  {| stack := stack s; index := index s; lastIndex := lastIndex s;
     navigatingInStack := v;
     currentTextEditorState := currentTextEditorState s; history := history s;
     recentlyClosedFiles := recentlyClosedFiles s; loaded := loaded s;
     storage := storage s; log := log s |}.

Definition set_currentTextEditorState (v : option TextEditorState.t) (s : State) : State :=
  {| stack := stack s; index := index s; lastIndex := lastIndex s;
     navigatingInStack := navigatingInStack s;
     currentTextEditorState := v; history := history s;
     recentlyClosedFiles := recentlyClosedFiles s; loaded := loaded s;
     storage := storage s; log := log s |}.

Definition set_history (v : option (list DocRef)) (s : State) : State :=
  {| stack := stack s; index := index s; lastIndex := lastIndex s;
     navigatingInStack := navigatingInStack s;
     currentTextEditorState := currentTextEditorState s; history := v;
     recentlyClosedFiles := recentlyClosedFiles s; loaded := loaded s;
     storage := storage s; log := log s |}.

Definition set_recentlyClosedFiles (v : list IRecentlyClosedFile.t) (s : State) : State :=
  {| stack := stack s; index := index s; lastIndex := lastIndex s;
     navigatingInStack := navigatingInStack s;
     currentTextEditorState := currentTextEditorState s; history := history s;
     recentlyClosedFiles := v; loaded := loaded s;
     storage := storage s; log := log s |}.

Definition set_loaded (v : bool) (s : State) : State :=
  {| stack := stack s; index := index s; lastIndex := lastIndex s;
     navigatingInStack := navigatingInStack s;
     currentTextEditorState := currentTextEditorState s; history := history s;
     recentlyClosedFiles := recentlyClosedFiles s; loaded := v;
     storage := storage s; log := log s |}.

Definition set_storage (v : list (string * string)) (s : State) : State :=
  {| stack := stack s; index := index s; lastIndex := lastIndex s;
     navigatingInStack := navigatingInStack s;
     currentTextEditorState := currentTextEditorState s; history := history s;
     recentlyClosedFiles := recentlyClosedFiles s; loaded := loaded s;
     storage := v; log := log s |}.

Definition emit (e : Effect) (s : State) : State :=
  {| stack := stack s; index := index s; lastIndex := lastIndex s;
     navigatingInStack := navigatingInStack s;
     currentTextEditorState := currentTextEditorState s; history := history s;
     recentlyClosedFiles := recentlyClosedFiles s; loaded := loaded s;
     storage := storage s; log := log s ++ [e] |}.

(** *** Statements: state passing with exceptions

    A method either returns, or raises with the state as the statements
    before the raise left it. *)
Inductive Outcome (A : Type) : Type :=
| Ok (a : A) (s : State)
| Throw (e : Js.Error) (s : State).
Arguments Ok {A} a s.
Arguments Throw {A} e s.

Definition M (A : Type) : Type := State -> Outcome A.

Definition ret {A : Type} (a : A) : M A := fun s => Ok a s.
Definition bind {A B : Type} (m : M A) (k : A -> M B) : M B :=
  fun s => match m s with
           | Ok a s' => k a s'
           | Throw e s' => Throw e s'
           end.
Definition throw {A : Type} (e : Js.Error) : M A := fun s => Throw e s.
Definition this : M State := fun s => Ok s s.
Definition update (f : State -> State) : M unit := fun s => Ok tt (f s).

(** The state a call leaves, returned or raised. *)
Definition state_of {A : Type} (o : Outcome A) : State :=
  match o with Ok _ s => s | Throw _ s => s end.

Definition raised {A : Type} (o : Outcome A) : option Js.Error :=
  match o with Ok _ _ => None | Throw e _ => Some e end.


Local Notation "x <- c1 ;; c2" := (bind c1 (fun x => c2))
  (at level 61, c1 at next level, right associativity).
Local Notation "c1 ;; c2" := (bind c1 (fun _ => c2))
  (at level 61, right associativity).

(** *** Document identity *)

Definition matchesFile (resource : URI) (arg2 : Arg) : bool :=
  match arg2 with
  | FileChanges e => contains_deleted e resource
  | Doc (Editor i) =>
      match toResource i with
      | Some file => String.eqb file resource
      | None => false
      end
  | Doc (Resource r) => String.eqb r resource
  end.

Definition matches (arg1 : Arg) (inputB : DocRef) : bool :=
  match arg1, inputB with
  | FileChanges _, Editor _ => false
  | FileChanges e, Resource rb => contains_deleted e rb
  | Doc (Editor a), Editor b => input_matches a b
  | Doc (Editor a), Resource rb => matchesFile rb (Doc (Editor a))
  | Doc (Resource ra), Editor b => matchesFile ra (Doc (Editor b))
  | Doc (Resource ra), Resource rb => String.eqb ra rb
  end.

Definition preferResourceInput (input : EditorInput) : DocRef :=
  match toResource input with
  | Some file => Resource file
  | None => Editor input
  end.

Definition include (input : DocRef) : bool :=
  match input with
  | Editor _ => true
  | Resource r => negb (resourceFilter_matches r)
  end.

Definition sameSelection (selectionA selectionB : option ITextEditorSelection) : bool :=
  match selectionA, selectionB with
  | None, None => true
  | Some a, Some b => startLineNumber a =? startLineNumber b
  | _, _ => false
  end.

(** *** The cursor and navigation *)

Definition setIndex (value : Z) : M unit :=
  update (fun s => set_cursor value (index s) s).

(** [navigate]: reading [entry.selection] raises when the cursor points
    at no entry; the flag is set before the open request is issued. *)
Definition navigate (acrossEditors : bool) : M unit :=
  s <- this ;;
  match Js.get (stack s) (index s) with
  | None => throw Js.TypeError
  | Some entry =>
      let options :=
        match IStackEntry.selection entry, acrossEditors with
        | Some sel, false =>
            {| revealIfOpened := true; options_selection := Some sel;
               revealInCenterIfOutsideViewport := true |}
        | _, _ =>
            {| revealIfOpened := true; options_selection := None;
               revealInCenterIfOutsideViewport := false |}
        end in
      update (set_navigatingInStack true) ;;
      update (emit (OpenEditor (IStackEntry.input entry) options))
  end.

(** The open request settles: both callbacks clear the flag. *)
Definition openEditorSettled (failed : bool) : M unit :=
  update (set_navigatingInStack false) ;;
  if failed then update (emit UnexpectedError) else ret tt.

Definition doForwardInEditors : M unit :=
  s <- this ;; setIndex (index s + 1) ;; navigate false.

(** The loop of [doForwardAcrossEditors]; [n] is its variant
    [stack.length - (currentIndex + 1)].  The result is the index the
    loop breaks at, if it does. *)
Fixpoint forwardScan (stk : list IStackEntry.t) (currentEntry : option IStackEntry.t)
    (n : nat) (currentIndex : Z) : Js.Error + option Z :=
  match n with
  | O => inr None
  | S n' =>
      let currentIndex := currentIndex + 1 in
      match currentEntry, Js.get stk currentIndex with
      | Some cur, Some previousEntry =>
          if negb (matches (Doc (IStackEntry.input cur)) (IStackEntry.input previousEntry))
          then inr (Some currentIndex)
          else forwardScan stk currentEntry n' currentIndex
      | _, _ => inl Js.TypeError
      end
  end.

Definition doForwardAcrossEditors : M unit :=
  s <- this ;;
  match forwardScan (stack s) (Js.get (stack s) (index s))
          (Z.to_nat (Js.len (stack s) - (index s + 1))) (index s) with
  | inl e => throw e
  | inr None => ret tt
  | inr (Some currentIndex) => setIndex currentIndex ;; navigate true
  end.

Definition forward (acrossEditors : bool) : M unit :=
  s <- this ;;
  if Js.len (stack s) >? index s + 1 then
    if acrossEditors then doForwardAcrossEditors else doForwardInEditors
  else ret tt.

Definition doBackInEditors : M unit :=
  s <- this ;; setIndex (index s - 1) ;; navigate false.

(** The loop of [doBackAcrossEditors]; [n] is its variant [currentIndex]. *)
Fixpoint backScan (stk : list IStackEntry.t) (currentEntry : option IStackEntry.t)
    (n : nat) (currentIndex : Z) : Js.Error + option Z :=
  match n with
  | O => inr None
  | S n' =>
      let currentIndex := currentIndex - 1 in
      match currentEntry, Js.get stk currentIndex with
      | Some cur, Some previousEntry =>
          if negb (matches (Doc (IStackEntry.input cur)) (IStackEntry.input previousEntry))
          then inr (Some currentIndex)
          else backScan stk currentEntry n' currentIndex
      | _, _ => inl Js.TypeError
      end
  end.

Definition doBackAcrossEditors : M unit :=
  s <- this ;;
  match backScan (stack s) (Js.get (stack s) (index s))
          (Z.to_nat (index s)) (index s) with
  | inl e => throw e
  | inr None => ret tt
  | inr (Some currentIndex) => setIndex currentIndex ;; navigate true
  end.

Definition back (acrossEditors : bool) : M unit :=
  s <- this ;;
  if index s >? 0 then
    if acrossEditors then doBackAcrossEditors else doBackInEditors
  else ret tt.

Definition last : M unit :=
  s <- this ;;
  if lastIndex s =? -1 then back false
  else setIndex (lastIndex s) ;; navigate false.


(** *** Persistence and the recency history *)

(** [storageService.get(key, StorageScope.WORKSPACE)] and [store]. *)
Fixpoint storage_get (key : string) (store : list (string * string)) : option string :=
  match store with
  | [] => None
  | (k, v) :: rest => if String.eqb key k then Some v else storage_get key rest
  end.

Definition storage_store (key value : string) (store : list (string * string))
    : list (string * string) :=
  (key, value) :: filter (fun kv => negb (String.eqb key (fst kv))) store.

(** The array [save] serializes: a resolved input maps to [undefined]
    and is filtered out, a resource descriptor to
    [{ resourceJSON: resource.toJSON() }]. *)
Fixpoint serialize (h : list DocRef) : list Js.json :=
  match h with
  | [] => []
  | Editor _ :: rest => serialize rest
  | Resource r :: rest =>
      Js.JObj [("resourceJSON"%string, Js.JObj (URI_toJSON r))] :: serialize rest
  end.

Definition save : M unit :=
  s <- this ;;
  match history s with
  | None => ret tt
  | Some h =>
      update (set_storage
                (storage_store STORAGE_KEY (JSON_stringify (Js.JArr (serialize h)))
                               (storage s)))
  end.

Definition undefined_or (v : option Js.json) : Js.json :=
  match v with Some v => v | None => Js.JNull end.

(** The callback of [entries.map] in [loadHistory]; [None] is the
    [undefined] that the following [filter] drops. *)
Definition reviveEntry (entry : Js.json) : Js.Error + option DocRef :=
  match Js.prop entry "resource", Js.prop entry "resourceJSON" with
  | inr resource, inr resourceJSON =>
      if Js.truthy_opt resource || Js.truthy_opt resourceJSON then
        inr (Some (Resource (if Js.truthy_opt resourceJSON
                             then URI_revive (undefined_or resourceJSON)
                             else URI_parse (undefined_or resource))))
      else inr None
  | inl e, _ => inl e
  | _, inl e => inl e
  end.

Fixpoint reviveEntries (entries : list Js.json) : Js.Error + list DocRef :=
  match entries with
  | [] => inr []
  | entry :: rest =>
      match reviveEntry entry with
      | inl e => inl e
      | inr d =>
          match reviveEntries rest with
          | inl e => inl e
          | inr ds => inr (match d with Some d => d :: ds | None => ds end)
          end
      end
  end.

(** [if (entriesRaw)]: a stored string counts when it is not empty. *)
Definition nonempty (raw : option string) : option string :=
  match raw with
  | Some EmptyString => None
  | other => other
  end.

Definition loadHistory : M unit :=
  s <- this ;;
  match nonempty (storage_get STORAGE_KEY (storage s)) with
  | Some entriesRaw =>
      match JSON_parse entriesRaw with
      | None => throw Js.SyntaxError
      | Some (Js.JArr entries) =>
          match reviveEntries entries with
          | inl e => throw e
          | inr h => update (set_history (Some h))
          end
      | Some _ => throw Js.TypeError
      end
  | None => update (set_history (Some []))
  end.

Definition ensureHistoryLoaded : M unit :=
  s <- this ;;
  (if loaded s then ret tt else loadHistory) ;;
  update (set_loaded true).

Definition getHistory : M (list DocRef) :=
  ensureHistoryLoaded ;;
  s <- this ;;
  match history s with
  | Some h => ret h
  | None => throw Js.TypeError
  end.

Definition removeFromHistory (arg1 : Arg) : M unit :=
  ensureHistoryLoaded ;;
  s <- this ;;
  match history s with
  | Some h => update (set_history (Some (filter (fun e => negb (matches arg1 e)) h)))
  | None => throw Js.TypeError
  end.

Definition removeExcludedFromHistory : M unit :=
  ensureHistoryLoaded ;;
  s <- this ;;
  match history s with
  | Some h => update (set_history (Some (filter include h)))
  | None => throw Js.TypeError
  end.

Definition handleExcludesChange : M unit := removeExcludedFromHistory.

Definition handleEditorEventInHistory (editor : option IBaseEditor) : M unit :=
  match match editor with Some e => editor_input e | None => None end with
  | None => ret tt
  | Some input =>
      if String.eqb (getName input) EmptyString || negb (include (Editor input))
      then ret tt
      else
        ensureHistoryLoaded ;;
        let historyInput := preferResourceInput input in
        removeFromHistory (Doc (Editor input)) ;;
        s <- this ;;
        match history s with
        | None => throw Js.TypeError
        | Some h =>
            let h1 := Js.unshift historyInput h in
            update (set_history
                      (Some (if Js.len h1 >? MAX_HISTORY_ITEMS then Js.pop h1 else h1))) ;;
            match historyInput with
            | Editor i => update (emit (OnceDispose i RemoveFromHistory input))
            | Resource _ => ret tt
            end
        end
  end.

(** *** Recording in the stack

    [Date.now()] is read twice in [addOrReplaceInStack]: [now] is the
    reading compared with the current entry's timestamp, [stamp] the one
    stored in the new entry. *)

(** The local [replace] of [addOrReplaceInStack]. *)
Definition replaceDecision (s : State) (input : EditorInput)
    (selection : option ITextEditorSelection) (forceReplace : bool) (now : Z) : bool :=
  match Js.get (stack s) (index s) with
  | Some currentEntry =>
      if forceReplace then true
      else
        matches (Doc (Editor input)) (IStackEntry.input currentEntry)
        && (sameSelection (IStackEntry.selection currentEntry) selection
            || (now - IStackEntry.timestamp currentEntry <? MERGE_EVENT_CHANGES_THRESHOLD))
  | None => false
  end.

(** [{ input: stackInput, selection, timestamp: Date.now() }] *)
Definition newEntry (stackInput : DocRef) (selection : option ITextEditorSelection)
    (stamp : Z) : IStackEntry.t :=
  {| IStackEntry.input := stackInput;
     IStackEntry.selection := selection;
     IStackEntry.timestamp := stamp |}.

Definition addOrReplaceInStack (input : EditorInput)
    (selection : option ITextEditorSelection) (forceReplace : bool)
    (now stamp : Z) : M unit :=
  s <- this ;;
  let replace := replaceDecision s input selection forceReplace now in
  let stackInput := preferResourceInput input in
  let entry := newEntry stackInput selection stamp in
  (if Js.len (stack s) >? index s + 1
   then update (set_stack (Js.slice0 (stack s) (index s + 1)))
   else ret tt) ;;
  (if replace then
     s1 <- this ;; update (set_stack (Js.set (stack s1) (index s1) entry))
   else
     s1 <- this ;; setIndex (index s1 + 1) ;;
     s2 <- this ;; update (set_stack (Js.splice_insert (stack s2) (index s2) entry)) ;;
     s3 <- this ;;
     if Js.len (stack s3) >? MAX_STACK_ITEMS then
       update (set_stack (Js.shift (stack s3))) ;;
       s4 <- this ;;
       if index s4 >? 0 then setIndex (index s4 - 1) else ret tt
     else ret tt) ;;
  match stackInput with
  | Editor i => update (emit (OnceDispose i RemoveFromStack input))
  | Resource _ => ret tt
  end.

Definition add (input : EditorInput) (selection : option ITextEditorSelection)
    (now stamp : Z) : M unit :=
  s <- this ;;
  if negb (navigatingInStack s)
  then addOrReplaceInStack input selection false now stamp
  else ret tt.

Definition replace (input : EditorInput) (selection : option ITextEditorSelection)
    (now stamp : Z) : M unit :=
  s <- this ;;
  if negb (navigatingInStack s)
  then addOrReplaceInStack input selection true now stamp
  else ret tt.

Definition handleTextEditorEvent (input : EditorInput) (getSelection : option Selection.t)
    (event : option ICursorPositionChangedEvent) (now stamp : Z) : M unit :=
  let stateCandidate :=
    {| TextEditorState._editorInput := input;
       TextEditorState._selection := getSelection |} in
  s <- this ;;
  (match currentTextEditorState s with
   | None => add input (TextEditorState.selection stateCandidate) now stamp
   | Some current =>
       if TextEditorState.justifiesNewPushState current stateCandidate event
       then add input (TextEditorState.selection stateCandidate) now stamp
       else replace input (TextEditorState.selection stateCandidate) now stamp
   end) ;;
  update (set_currentTextEditorState (Some stateCandidate)).

Definition handleNonTextEditorEvent (input : EditorInput) (now stamp : Z) : M unit :=
  s <- this ;;
  match Js.get (stack s) (index s) with
  | Some currentStack =>
      if matches (Doc (Editor input)) (IStackEntry.input currentStack)
      then ret tt
      else add input None now stamp
  | None => add input None now stamp
  end.

Definition handleEditorEventInStack (editor : option IBaseEditor)
    (event : option ICursorPositionChangedEvent) (now stamp : Z) : M unit :=
  let control := match editor with Some e => codeEditor e | None => None end in
  let input := match editor with Some e => editor_input e | None => None end in
  s <- this ;;
  if navigatingInStack s then
    match control, input with
    | Some getSelection, Some i =>
        update (set_currentTextEditorState
                  (Some {| TextEditorState._editorInput := i;
                           TextEditorState._selection := getSelection |}))
    | _, _ => update (set_currentTextEditorState None)
    end
  else
    match control, input with
    | Some getSelection, Some i => handleTextEditorEvent i getSelection event now stamp
    | _, _ =>
        update (set_currentTextEditorState None) ;;
        match input with
        | Some i => handleNonTextEditorEvent i now stamp
        | None => ret tt
        end
    end.

Definition handleEditorSelectionChangeEvent (editor : option IBaseEditor)
    (event : option ICursorPositionChangedEvent) (now stamp : Z) : M unit :=
  handleEditorEventInStack editor event now stamp.

Definition handleActiveEditorChange (editor : option IBaseEditor) (now stamp : Z) : M unit :=
  handleEditorEventInHistory editor ;;
  handleEditorEventInStack editor None now stamp.

(** *** Removal and reset *)

Definition removeFromStack (arg1 : Arg) : M unit :=
  s <- this ;;
  update (set_stack (filter (fun e => negb (matches arg1 (IStackEntry.input e))) (stack s))) ;;
  s1 <- this ;;
  update (set_cursor (Js.len (stack s1) - 1) (-1)).

Definition removeFromRecentlyClosedFiles (arg1 : Arg) : M unit :=
  s <- this ;;
  update (set_recentlyClosedFiles
            (filter (fun e => negb (matchesFile (IRecentlyClosedFile.resource e) arg1))
                    (recentlyClosedFiles s))).

Definition removeFromRecentlyOpened (arg1 : Arg) : M unit :=
  match arg1 with
  | Doc (Resource r) => update (emit (RemoveFromRecentlyOpened r))
  | _ => ret tt
  end.

Definition remove (arg1 : Arg) : M unit :=
  removeFromHistory arg1 ;;
  removeFromStack arg1 ;;
  removeFromRecentlyClosedFiles arg1 ;;
  removeFromRecentlyOpened arg1.

Definition clear : M unit :=
  ensureHistoryLoaded ;;
  update (set_cursor (-1) (-1)) ;;
  update (set_stack []) ;;
  update (set_history (Some [])) ;;
  update (set_recentlyClosedFiles []).

(** *** Sequences of calls *)

Inductive Op : Type :=
| OpAdd (input : EditorInput) (selection : option ITextEditorSelection) (now stamp : Z)
| OpReplace (input : EditorInput) (selection : option ITextEditorSelection) (now stamp : Z)
| OpBack (acrossEditors : bool)
| OpForward (acrossEditors : bool)
| OpLast
| OpClear
| OpRemove (arg1 : Arg)
| OpOpenEditorSettled (failed : bool).

Definition call (o : Op) : M unit :=
  match o with
  | OpAdd input selection now stamp => add input selection now stamp
  | OpReplace input selection now stamp => replace input selection now stamp
  | OpBack acrossEditors => back acrossEditors
  | OpForward acrossEditors => forward acrossEditors
  | OpLast => last
  | OpClear => clear
  | OpRemove arg1 => remove arg1
  | OpOpenEditorSettled failed => openEditorSettled failed
  end.

(** A caller that goes on after a call has raised: the service keeps the
    state the raising call left. *)
Fixpoint run (ops : list Op) (s : State) : State :=
  match ops with
  | [] => s
  | o :: rest => run rest (state_of (call o s))
  end.

(** The cursor invariant of the navigation stack. *)
Definition cursor_ok (s : State) : Prop :=
  (stack s <> [] -> 0 <= index s < Js.len (stack s)) /\
  (index s = -1 <-> stack s = []).

(** The cursor invariant together with the capacity of the stack. *)
Definition stack_ok (s : State) : Prop :=
  cursor_ok s /\ Js.len (stack s) <= MAX_STACK_ITEMS.

(** The fields that recording in the stack leaves alone. *)
Definition same_frame (s s' : State) : Prop :=
  navigatingInStack s' = navigatingInStack s /\
  currentTextEditorState s' = currentTextEditorState s /\
  history s' = history s /\
  recentlyClosedFiles s' = recentlyClosedFiles s /\
  loaded s' = loaded s /\
  storage s' = storage s.

(** *** Recently closed files *)

(** [IEditorCloseEvent], and the active group of the stacks model as
    [isFileOpened] reads it: [group.contains(resource)] and
    [group.getEditors()]. *)
Record IEditorCloseEvent : Type := {
  close_editor : EditorInput;
  close_pinned : bool;
  close_index : Z
}.

Record IEditorGroup : Type := {
  group_contains : URI -> bool;
  group_getEditors : list EditorInput
}.

Definition onEditorClosed (event : IEditorCloseEvent) : M unit :=
  if close_pinned event then
    match toResource (close_editor event) with
    | Some file =>
        removeFromRecentlyClosedFiles (Doc (Editor (close_editor event))) ;;
        s <- this ;;
        update (set_recentlyClosedFiles
                  (recentlyClosedFiles s
                   ++ [{| IRecentlyClosedFile.resource := file;
                          IRecentlyClosedFile.index := close_index event |}])) ;;
        s1 <- this ;;
        if Js.len (recentlyClosedFiles s1) >? MAX_RECENTLY_CLOSED_EDITORS
        then update (set_recentlyClosedFiles (Js.shift (recentlyClosedFiles s1)))
        else ret tt
    | None => ret tt
    end
  else ret tt.

Definition isFileOpened (resource : URI) (group : option IEditorGroup) : bool :=
  match group with
  | None => false
  | Some g =>
      if negb (group_contains g resource) then false
      else existsb (fun e => matchesFile resource (Doc (Editor e))) (group_getEditors g)
  end.

(** The element [files.pop()] returns, [None] on an empty array. *)
Definition popped (files : list IRecentlyClosedFile.t) : option IRecentlyClosedFile.t :=
  Js.get files (Js.len files - 1).

(** The loop of [reopenLastClosedEditor], entered with the file the
    first [pop()] returned and the array that [pop()] left; every turn
    pops once more, so [n], the length of the array before the first
    [pop()], bounds the number of turns.  The result is the file the
    loop ends with and the array it leaves. *)
Fixpoint reopenLoop (group : option IEditorGroup) (n : nat)
    (lastClosedFile : option IRecentlyClosedFile.t)
    (files : list IRecentlyClosedFile.t)
    : option IRecentlyClosedFile.t * list IRecentlyClosedFile.t :=
  match lastClosedFile with
  | Some f =>
      if isFileOpened (IRecentlyClosedFile.resource f) group then
        match n with
        | O => (lastClosedFile, files)
        | S n' => reopenLoop group n' (popped files) (Js.pop files)
        end
      else (lastClosedFile, files)
  | None => (None, files)
  end.

(** [reopenLastClosedEditor]; the value returned is the closed file it
    asks the editor service to open, pinned and at the recorded index,
    [None] when it opens nothing. *)
Definition reopenLastClosedEditor (activeGroup : option IEditorGroup)
    : M (option IRecentlyClosedFile.t) :=
  ensureHistoryLoaded ;;
  s <- this ;;
  let files := recentlyClosedFiles s in
  let result := reopenLoop activeGroup (List.length files) (popped files) (Js.pop files) in
  update (set_recentlyClosedFiles (snd result)) ;;
  ret (fst result).

(** The loop of [getLastActiveWorkspaceRoot] over the history;
    [getRoot] is [contextService.getRoot]. *)
Fixpoint firstWorkspaceRoot (getRoot : URI -> option URI) (h : list DocRef)
    : option URI :=
  match h with
  | [] => None
  | Editor _ :: rest => firstWorkspaceRoot getRoot rest
  | Resource r :: rest =>
      match getRoot r with
      | Some resourceWorkspace => Some resourceWorkspace
      | None => firstWorkspaceRoot getRoot rest
      end
  end.

(** [getLastActiveWorkspaceRoot], given [contextService.hasWorkspace()],
    [contextService.getRoot] and the [roots] of the workspace; [None]
    is [undefined]. *)
Definition getLastActiveWorkspaceRoot (hasWorkspace : bool)
    (getRoot : URI -> option URI) (roots : list URI) : M (option URI) :=
  if negb hasWorkspace then ret None
  else
    h <- getHistory ;;
    match firstWorkspaceRoot getRoot h with
    | Some resourceWorkspace => ret (Some resourceWorkspace)
    | None => ret (Js.get roots 0)
    end.

(** [onFileChanges]; [gotDeleted] is [e.gotDeleted()]. *)
Definition onFileChanges (e : FileChangesEvent) (gotDeleted : bool) : M unit :=
  if gotDeleted then remove (FileChanges e) else ret tt.

End Service.

Arguments Ok {host A} a s.
Arguments Throw {host A} e s.

End HistoryService.

Module HS := HistoryService.

(** ** A reference host

    A concrete workbench to run the service on: editor inputs are
    records compared field by field, a file change event is the list of
    deleted resources, nothing is excluded, and the JSON codec covers
    the literals, strings without escapes, arrays and objects, written
    without white space (which is what the service stores). *)

Module Reference.

Record Input : Type := {
  ident : nat;
  name : string;
  file : option URI
}.

Definition same_file (a b : option URI) : bool :=
  match a, b with
  | Some x, Some y => String.eqb x y
  | None, None => true
  | _, _ => false
  end.

Definition same_input (a b : Input) : bool :=
  Nat.eqb (ident a) (ident b) && String.eqb (name a) (name b)
  && same_file (file a) (file b).

Definition quote : ascii := ascii_of_nat 34.

Definition quoted (s : string) : string :=
  String quote (s ++ String quote EmptyString).

Fixpoint stringify (v : Js.json) : string :=
  let fix items (l : list Js.json) : string :=
    match l with
    | [] => EmptyString
    | x :: rest =>
        (stringify x ++ match rest with [] => EmptyString | _ => "," ++ items rest end)%string
    end in
  let fix members (l : list (string * Js.json)) : string :=
    match l with
    | [] => EmptyString
    | (k, x) :: rest =>
        (quoted k ++ ":" ++ stringify x
         ++ match rest with [] => EmptyString | _ => "," ++ members rest end)%string
    end in
  match v with
  | Js.JNull => "null"
  | Js.JBool true => "true"
  | Js.JBool false => "false"
  | Js.JNum n => NilZero.string_of_int (Z.to_int n)
  | Js.JStr s => quoted s
  | Js.JArr l => ("[" ++ items l ++ "]")%string
  | Js.JObj l => ("{" ++ members l ++ "}")%string
  end.

(** The characters up to the closing quote. *)
Fixpoint read_string (cs : list ascii) : option (string * list ascii) :=
  match cs with
  | [] => None
  | c :: rest =>
      if Ascii.eqb c quote then Some (EmptyString, rest)
      else match read_string rest with
           | Some (s, rest') => Some (String c s, rest')
           | None => None
           end
  end.

Fixpoint parse_value (fuel : nat) (cs : list ascii) : option (Js.json * list ascii) :=
  match fuel with
  | O => None
  | S fuel' =>
      let fix elements (n : nat) (cs : list ascii) (acc : list Js.json)
          : option (Js.json * list ascii) :=
        match n with
        | O => None
        | S n' =>
            match parse_value fuel' cs with
            | Some (v, ","%char :: rest) => elements n' rest (v :: acc)
            | Some (v, "]"%char :: rest) => Some (Js.JArr (rev (v :: acc)), rest)
            | _ => None
            end
        end in
      let fix pairs (n : nat) (cs : list ascii) (acc : list (string * Js.json))
          : option (Js.json * list ascii) :=
        match n, cs with
        | S n', q :: rest =>
            if Ascii.eqb q quote then
              match read_string rest with
              | Some (k, ":"%char :: rest1) =>
                  match parse_value fuel' rest1 with
                  | Some (v, ","%char :: rest2) => pairs n' rest2 ((k, v) :: acc)
                  | Some (v, "}"%char :: rest2) => Some (Js.JObj (rev ((k, v) :: acc)), rest2)
                  | _ => None
                  end
              | _ => None
              end
            else None
        | _, _ => None
        end in
      match cs with
      | "n"%char :: "u"%char :: "l"%char :: "l"%char :: rest => Some (Js.JNull, rest)
      | "t"%char :: "r"%char :: "u"%char :: "e"%char :: rest => Some (Js.JBool true, rest)
      | "f"%char :: "a"%char :: "l"%char :: "s"%char :: "e"%char :: rest =>
          Some (Js.JBool false, rest)
      | "["%char :: "]"%char :: rest => Some (Js.JArr [], rest)
      | "["%char :: rest => elements (List.length rest) rest []
      | "{"%char :: "}"%char :: rest => Some (Js.JObj [], rest)
      | "{"%char :: rest => pairs (List.length rest) rest []
      | c :: rest =>
          if Ascii.eqb c quote then
            match read_string rest with
            | Some (s, rest') => Some (Js.JStr s, rest')
            | None => None
            end
          else None
      | [] => None
      end
  end.

Definition parse (raw : string) : option Js.json :=
  match parse_value (S (String.length raw)) (list_ascii_of_string raw) with
  | Some (v, []) => Some v
  | _ => None
  end.

Definition host : Host := {|
  EditorInput := Input;
  input_matches := same_input;
  getName := name;
  toResource := file;
  FileChangesEvent := list URI;
  contains_deleted := fun e resource => existsb (String.eqb resource) e;
  resourceFilter_matches := fun _ => false;
  JSON_parse := parse;
  JSON_stringify := stringify;
  URI_toJSON := fun uri => [("external"%string, Js.JStr uri)];
  URI_revive := fun v =>
    match Js.prop v "external" with
    | inr (Some (Js.JStr uri)) => uri
    | _ => EmptyString
    end;
  URI_parse := fun v => match v with Js.JStr uri => uri | _ => EmptyString end
|}.

(** The same workbench with every resource excluded. *)
Definition strict : Host := {|
  EditorInput := Input;
  input_matches := same_input;
  getName := name;
  toResource := file;
  FileChangesEvent := list URI;
  contains_deleted := fun e resource => existsb (String.eqb resource) e;
  resourceFilter_matches := fun _ => true;
  JSON_parse := parse;
  JSON_stringify := stringify;
  URI_toJSON := fun uri => [("external"%string, Js.JStr uri)];
  URI_revive := fun v =>
    match Js.prop v "external" with
    | inr (Some (Js.JStr uri)) => uri
    | _ => EmptyString
    end;
  URI_parse := fun v => match v with Js.JStr uri => uri | _ => EmptyString end
|}.

(** An input with no backing file, and a file-backed one. *)
Definition untitled (n : nat) : Input :=
  {| ident := n; name := "untitled"; file := None |}.

Definition file_input (n : nat) (uri : URI) : Input :=
  {| ident := n; name := "file"; file := Some uri |}.

End Reference.


(** ** Vocabulary of the properties *)

Section Vocabulary.
Context {host : Host}.

(** Two selections start on the same line; two absent selections count
    as the same. *)
Definition same_start_line (a b : option ITextEditorSelection) : Prop :=
  match a, b with
  | None, None => True
  | Some a, Some b => startLineNumber a = startLineNumber b
  | _, _ => False
  end.

(** The incoming document and selection coalesce with the entry [cur]
    at time [now]. *)
Definition coalesces (cur : IStackEntry.t) (input : EditorInput)
    (selection : option ITextEditorSelection) (now : Z) : Prop :=
  HS.matches (Doc (Editor input)) (IStackEntry.input cur) = true /\
  (same_start_line (IStackEntry.selection cur) selection \/
   now - IStackEntry.timestamp cur < 300).

(** The resources of the resource descriptors of a recency history, in
    order; resolved inputs are left out. *)
Fixpoint resources (h : list DocRef) : list URI :=
  match h with
  | [] => []
  | Editor _ :: rest => resources rest
  | Resource r :: rest => r :: resources rest
  end.

(** A recency history of resource descriptors only. *)
Definition descriptors_only (h : list DocRef) : Prop :=
  forall d, In d h -> exists r, d = Resource r.

(** The line the classifier compares: the smaller of the two lines of
    the selection. *)
Definition selection_line (sel : Selection.t) : Z :=
  Z.min (Selection.selectionStartLineNumber sel) (Selection.positionLineNumber sel).

(** A text editor showing [input] with the selection [sel], and the
    stack entry that a selection change in it records. *)
Definition text_editor (input : EditorInput) (sel : Selection.t) : IBaseEditor :=
  {| editor_input := Some input; codeEditor := Some (Some sel) |}.

Definition recorded_entry (input : EditorInput) (sel : Selection.t) (stamp : Z)
    : IStackEntry.t :=
  HS.newEntry (HS.preferResourceInput input)
    (Some {| startLineNumber := Selection.startLineNumber sel;
             startColumn := Selection.startColumn sel |})
    stamp.

(** The argument of a removal matches nothing the service holds. *)
Definition absent (arg1 : Arg) (s : HS.State) (h : list DocRef) : Prop :=
  (forall e, In e (HS.stack s) -> HS.matches arg1 (IStackEntry.input e) = false) /\
  (forall d, In d h -> HS.matches arg1 d = false) /\
  (forall c, In c (HS.recentlyClosedFiles s) ->
             HS.matchesFile (IRecentlyClosedFile.resource c) arg1 = false).

(** The call [removeFromRecentlyOpened] makes for a resource descriptor. *)
Definition recently_opened_notice (arg1 : Arg) : list Effect :=
  match arg1 with
  | Doc (Resource r) => [RemoveFromRecentlyOpened r]
  | _ => []
  end.

(** No two entries of a recency history have the same document
    identity, whichever of the two is asked. *)
Definition distinct_identities (h : list DocRef) : Prop :=
  ForallOrdPairs
    (fun a b => HS.matches (Doc a) b = false /\ HS.matches (Doc b) a = false) h.

(** A resolved input is kept only for a document that has no backing
    file: [preferResourceInput] turns the others into descriptors. *)
Definition inputs_unbacked (h : list DocRef) : Prop :=
  forall i, In (Editor i) h -> toResource i = None.

Definition unbacked (d : DocRef) : Prop :=
  match d with Editor i => toResource i = None | Resource _ => True end.

Definition recency_ok (h : list DocRef) : Prop :=
  distinct_identities h /\ Js.len h <= HS.MAX_HISTORY_ITEMS /\ inputs_unbacked h.

(** The document of [input] is in the recency history. *)
Definition present (input : EditorInput) (h : list DocRef) : Prop :=
  exists d, In d h /\ HS.matches (Doc (Editor input)) d = true.

(** The identity the host defines on resolved inputs is symmetric and
    transitive, and inputs of one identity have the same backing file. *)
Definition identity_symmetric : Prop :=
  forall a b, input_matches a b = input_matches b a.

Definition identity_transitive : Prop :=
  forall a b c, input_matches a b = true -> input_matches b c = true ->
                input_matches a c = true.

Definition identity_respects_file : Prop :=
  forall a b, input_matches a b = true -> toResource a = toResource b.

(** The bounds that every call keeps, [last] included: the cursors are
    at least -1 and the stack is within its capacity. *)
Definition within_bounds (s : HS.State) : Prop :=
  -1 <= HS.index s /\ -1 <= HS.lastIndex s /\
  Js.len (HS.stack s) <= HS.MAX_STACK_ITEMS.

(** What moving the cursor leaves alone: the entries of the stack, the
    recency history, the closed files and the storage. *)
Definition same_content (s s' : HS.State) : Prop :=
  HS.stack s' = HS.stack s /\
  HS.history s' = HS.history s /\
  HS.recentlyClosedFiles s' = HS.recentlyClosedFiles s /\
  HS.storage s' = HS.storage s.

(** The options of the open request for [entry], in an editor or across
    editors. *)
Definition open_request (entry : IStackEntry.t) (acrossEditors : bool) : Effect :=
  OpenEditor (IStackEntry.input entry)
    match IStackEntry.selection entry, acrossEditors with
    | Some sel, false =>
        {| revealIfOpened := true; options_selection := Some sel;
           revealInCenterIfOutsideViewport := true |}
    | _, _ =>
        {| revealIfOpened := true; options_selection := None;
           revealInCenterIfOutsideViewport := false |}
    end.

(** Every entry of the stack at a position from [lo] up to, not
    including, [hi] has the document of [cur]. *)
Definition run_of (cur : IStackEntry.t) (stk : list IStackEntry.t) (lo hi : Z) : Prop :=
  forall k e, lo <= k < hi -> Js.get stk k = Some e ->
    HS.matches (Doc (IStackEntry.input cur)) (IStackEntry.input e) = true.

(** An editor that is not a text editor, showing [input]. *)
Definition plain_editor (input : EditorInput) : IBaseEditor :=
  {| editor_input := Some input; codeEditor := None |}.

(** A burst of [add] calls for one document, each with its selection
    and its two readings of the clock, and what makes it rapid: every
    call comes less than 300ms after the entry before it was stamped. *)
Definition burst_ops (input : EditorInput)
    (burst : list (option ITextEditorSelection * Z * Z)) : list HS.Op :=
  map (fun c => HS.OpAdd input (fst (fst c)) (snd (fst c)) (snd c)) burst.

Fixpoint rapid (t : Z) (burst : list (option ITextEditorSelection * Z * Z)) : Prop :=
  match burst with
  | [] => True
  | c :: rest => snd (fst c) - t < 300 /\ rapid (snd c) rest
  end.

(** The stack, its cursors, the navigation flag and the current text
    editor state of [s'] are those of [s]. *)
Definition same_stack_side (s s' : HS.State) : Prop :=
  HS.stack s' = HS.stack s /\ HS.index s' = HS.index s /\
  HS.lastIndex s' = HS.lastIndex s /\
  HS.navigatingInStack s' = HS.navigatingInStack s /\
  HS.currentTextEditorState s' = HS.currentTextEditorState s.

(** [s'] differs from [s] in the recency history and the loaded flag
    at most. *)
Definition history_only (s s' : HS.State) : Prop :=
  exists h l, s' = HS.set_loaded l (HS.set_history h s).

(** The closed files are within their capacity and name each resource
    once. *)
Definition closed_ok (files : list IRecentlyClosedFile.t) : Prop :=
  NoDup (map IRecentlyClosedFile.resource files) /\
  Js.len files <= HS.MAX_RECENTLY_CLOSED_EDITORS.

End Vocabulary.

(** ** Scenarios on the reference host *)

Module Scenario.

Definition State := HS.State (host := Reference.host).
Definition Op := HS.Op (host := Reference.host).

(** The first [n] untitled documents, visited a second apart. *)
Definition visits (n : nat) : list Op :=
  map (fun k => HS.OpAdd (host := Reference.host) (Reference.untitled k) None
                  (1000 * Z.of_nat k) (1000 * Z.of_nat k))
      (seq 0 n).

(** A fresh service over an empty storage, with its history loaded. *)
Definition fresh : State := HS.run [HS.OpClear] (HS.init []).

(** Stack [[A; B; C]] with the cursor back on [B]. *)
Definition abc_on_b : State :=
  HS.run (visits 3 ++ [HS.OpBack false; HS.OpOpenEditorSettled false]) fresh.

(** The documents of the stack, the cursor and the previous cursor. *)
Definition summary (s : State) : list DocRef * Z * Z :=
  (map IStackEntry.input (HS.stack s), HS.index s, HS.lastIndex s).

(** Stack [[A]], and stack [[A; B; C]] with the cursor on [C]. *)
Definition a_only : State := HS.run (visits 1) fresh.
Definition abc : State := HS.run (visits 3) fresh.

Definition entry_a : IStackEntry.t (host := Reference.host) :=
  HS.newEntry (Editor (host := Reference.host) (Reference.untitled 0)) None 0.

(** A document that was never visited. *)
Definition stranger : Arg (host := Reference.host) := Doc (Editor (host := Reference.host) (Reference.untitled 9)).

(** A full stack: twenty-one visits, the first of them evicted. *)
Definition full : State := HS.run (visits 21) (HS.init []).

(** A selection with the cursor on [line], column 1. *)
Definition at_line (line : Z) : Selection.t :=
  {| Selection.startLineNumber := line; Selection.startColumn := 1;
     Selection.selectionStartLineNumber := line;
     Selection.positionLineNumber := line |}.

(** A file-backed document [D] and a selection change in it, with both
    readings of the clock equal to [time]. *)
Definition D : Reference.Input := Reference.file_input 7 "file:///d.ts"%string.

Definition select (line time : Z) (s : State) : State :=
  HS.state_of (HS.handleEditorSelectionChangeEvent (host := Reference.host)
                 (Some (text_editor (host := Reference.host) D (at_line line)))
                 None time time s).

(** A recency history with two descriptors around a resolved input, and
    a service holding it. *)
Definition mixed_history : list (DocRef (host := Reference.host)) :=
  [Resource "file:///a.ts"%string;
   Editor (host := Reference.host) (Reference.untitled 1);
   Resource "file:///b.ts"%string].

Definition with_history (h : list (DocRef (host := Reference.host))) : State :=
  HS.set_loaded true (HS.set_history (Some h) (HS.init [])).

(** The service that starts on the storage [s] has saved to. *)
Definition next_session (s : State) : State :=
  HS.init (HS.storage (HS.state_of (HS.save s))).

(** An editor on the file of the second descriptor of [mixed_history]. *)
Definition editor_b : IBaseEditor (host := Reference.host) :=
  Build_IBaseEditor (host := Reference.host)
    (Some (Reference.file_input 5 "file:///b.ts"%string)) None.

(** A service that starts on a storage left with the history [h]; a
    storage that names the file [a.ts] twice, and one that names 201
    files. *)
Definition stored (h : list (DocRef (host := Reference.host))) : State :=
  HS.init [(HS.STORAGE_KEY,
            JSON_stringify (Host := Reference.host) (Js.JArr (HS.serialize h)))].

Definition doubled : State :=
  stored [Resource "file:///a.ts"%string; Resource "file:///a.ts"%string].

Definition numbered (k : nat) : DocRef (host := Reference.host) :=
  Resource ("file:///" ++ NilZero.string_of_int (Z.to_int (Z.of_nat k)))%string.

Definition crowded : State := stored (map numbered (seq 0 201)).

(** A storage whose history entry does not parse. *)
Definition broken : State := HS.init [(HS.STORAGE_KEY, "{"%string)].

(** A tour of the stack without [last]. *)
Definition tour : list Op :=
  visits 3 ++ [HS.OpBack true; HS.OpOpenEditorSettled false; HS.OpForward false;
               HS.OpRemove stranger; HS.OpClear].

(** Stack [[A; B; B]]: document [B] visited at line 10 and, a second
    later, at line 50; and the same stack with the cursor back on [A]. *)
Definition line (n : Z) : option ITextEditorSelection :=
  Some {| startLineNumber := n; startColumn := 1 |}.

Definition abb : State :=
  HS.run [HS.OpAdd (host := Reference.host) (Reference.untitled 0) None 0 0;
          HS.OpAdd (host := Reference.host) (Reference.untitled 1) (line 10) 1000 1000;
          HS.OpAdd (host := Reference.host) (Reference.untitled 1) (line 50) 2000 2000]
         fresh.

Definition abb_on_a : State :=
  HS.run [HS.OpBack true; HS.OpOpenEditorSettled false] abb.

Definition entry_b50 : IStackEntry.t (host := Reference.host) :=
  HS.newEntry (Editor (host := Reference.host) (Reference.untitled 1)) (line 50) 2000.

(** Two quick changes of line in document [A]. *)
Definition quick : list (option ITextEditorSelection * Z * Z) :=
  [(line 5, 100, 100); (line 90, 200, 200)].

(** A storage whose history entry parses to an array with a [null]. *)
Definition nulled : State := HS.init [(HS.STORAGE_KEY, "[null]"%string)].

(** A deletion event for one file. *)
Definition deletion : Arg (host := Reference.host) :=
  FileChanges (host := Reference.host) ["file:///a.ts"%string].

(** Closing the pinned editors of [D] and then of [E]; a group in which
    [E] is open again. *)
Definition E : Reference.Input := Reference.file_input 8 "file:///e.ts"%string.

Definition closing (input : Reference.Input) (position : Z)
    : HS.IEditorCloseEvent (host := Reference.host) :=
  HS.Build_IEditorCloseEvent (host := Reference.host) input true position.

Definition closed_d : IRecentlyClosedFile.t :=
  {| IRecentlyClosedFile.resource := "file:///d.ts"%string;
     IRecentlyClosedFile.index := 3 |}.

Definition closed_e : IRecentlyClosedFile.t :=
  {| IRecentlyClosedFile.resource := "file:///e.ts"%string;
     IRecentlyClosedFile.index := 4 |}.

Definition closed_de : State :=
  HS.state_of (HS.onEditorClosed (closing E 4)
                 (HS.state_of (HS.onEditorClosed (closing D 3) fresh))).

Definition group_with_e : option (HS.IEditorGroup (host := Reference.host)) :=
  Some (HS.Build_IEditorGroup (host := Reference.host)
          (fun resource => String.eqb resource "file:///e.ts") [E]).

(** A workspace with one root, holding the file [b.ts] only. *)
Definition root_of (resource : URI) : option URI :=
  if String.eqb resource "file:///b.ts" then Some "file:///"%string else None.

(** On the host that excludes everything: a service with a loaded,
    empty history, and an editor on the file of [D]. *)
Definition strict_fresh : HS.State (host := Reference.strict) :=
  HS.run (host := Reference.strict) [HS.OpClear] (HS.init []).

Definition strict_editor_d : IBaseEditor (host := Reference.strict) :=
  Build_IBaseEditor (host := Reference.strict) (Some D) None.

End Scenario.

(** ** Arrays *)

Section ArrayFacts.
Context {A : Type}.
Implicit Types (l : list A) (i : Z) (x : A).

Lemma len_nonneg l : 0 <= Js.len l.
Proof. unfold Js.len. lia. Qed.

Lemma len_app l1 l2 : Js.len (l1 ++ l2) = Js.len l1 + Js.len l2.
Proof. unfold Js.len. rewrite length_app. lia. Qed.

Lemma len_nil_iff l : Js.len l = 0 <-> l = [].
Proof.
  unfold Js.len. destruct l; simpl; split; intro H; try reflexivity; try discriminate; lia.
Qed.

Lemma get_Some_range l i x : Js.get l i = Some x -> 0 <= i < Js.len l.
Proof.
  unfold Js.get, Js.len. destruct (Z.ltb_spec i 0); [discriminate|].
  intro H0. assert (nth_error l (Z.to_nat i) <> None) as Hn by congruence.
  apply nth_error_Some in Hn. lia.
Qed.

Lemma get_in_range l i : 0 <= i < Js.len l -> exists x, Js.get l i = Some x.
Proof.
  unfold Js.get, Js.len. intros [H0 H1].
  destruct (Z.ltb_spec i 0); [lia|].
  destruct (nth_error l (Z.to_nat i)) eqn:E; [eauto|].
  apply nth_error_None in E. lia.
Qed.

Lemma get_out_of_range l i : Js.len l <= i -> Js.get l i = None.
Proof.
  unfold Js.get, Js.len. intro H.
  destruct (Z.ltb_spec i 0); [reflexivity|].
  apply nth_error_None. lia.
Qed.

Lemma slice0_firstn l e : 0 <= e -> Js.slice0 l e = firstn (Z.to_nat e) l.
Proof.
  intro He. unfold Js.slice0, Js.clamp, Js.len.
  destruct (Z.ltb_spec e 0); [lia|].
  destruct (Z.le_ge_cases e (Z.of_nat (List.length l))) as [Hle|Hge].
  - rewrite Z.min_l by lia. reflexivity.
  - rewrite Z.min_r by lia. rewrite Nat2Z.id.
    rewrite !firstn_all2 by lia. reflexivity.
Qed.

Lemma splice_insert_end l i x : Js.len l <= i -> Js.splice_insert l i x = l ++ [x].
Proof.
  intro H. pose proof (len_nonneg l) as Hl.
  unfold Js.splice_insert, Js.clamp.
  destruct (Z.ltb_spec i 0); [lia|].
  rewrite Z.min_r by lia. unfold Js.len. rewrite Nat2Z.id.
  rewrite firstn_all, skipn_all. reflexivity.
Qed.

Lemma set_nat_defined l (n : nat) x y :
  nth_error l n = Some y -> Js.set_nat l n x = firstn n l ++ x :: skipn (S n) l.
Proof.
  revert n. induction l as [|h t IH]; intros [|n] H; simpl in *; try discriminate.
  - reflexivity.
  - f_equal. apply IH. exact H.
Qed.

Lemma set_last l i x y :
  Js.get l i = Some y -> Js.len l = i + 1 ->
  Js.set l i x = firstn (Z.to_nat i) l ++ [x].
Proof.
  intros Hg Hl. pose proof (get_Some_range _ _ _ Hg) as Hr.
  unfold Js.set, Js.get in *. destruct (Z.ltb_spec i 0); [lia|].
  rewrite (set_nat_defined _ _ _ _ Hg).
  rewrite skipn_all2; [reflexivity|]. unfold Js.len in Hl. lia.
Qed.

Lemma get_firstn l (n : nat) i : i < Z.of_nat n -> Js.get (firstn n l) i = Js.get l i.
Proof.
  intro H. unfold Js.get. destruct (Z.ltb_spec i 0); [reflexivity|].
  rewrite nth_error_firstn.
  destruct (Nat.ltb_spec (Z.to_nat i) n); [reflexivity|lia].
Qed.

Lemma get_app_last l i x : Js.len l = i -> Js.get (l ++ [x]) i = Some x.
Proof.
  intro H. unfold Js.get, Js.len in *. destruct (Z.ltb_spec i 0); [lia|].
  rewrite nth_error_app2 by lia.
  replace (Z.to_nat i - List.length l)%nat with O by lia. reflexivity.
Qed.

Lemma firstn_succ_get l i x :
  Js.get l i = Some x -> firstn (Z.to_nat (i + 1)) l = firstn (Z.to_nat i) l ++ [x].
Proof.
  intro H. pose proof (get_Some_range _ _ _ H) as Hr.
  unfold Js.get in H. destruct (Z.ltb_spec i 0); [lia|].
  replace (Z.to_nat (i + 1)) with (S (Z.to_nat i)) by lia.
  revert H. generalize (Z.to_nat i) as n. clear.
  induction l as [|h t IH]; intros [|n] H; simpl in *; try discriminate.
  - congruence.
  - f_equal. apply IH. exact H.
Qed.

Lemma len_firstn l (n : nat) : Z.of_nat n <= Js.len l -> Js.len (firstn n l) = Z.of_nat n.
Proof. unfold Js.len. intro H. rewrite length_firstn. lia. Qed.

End ArrayFacts.

(** ** Recording in the navigation stack *)

Section StackFacts.
Context {host : Host}.
Implicit Types (s : HS.State) (input : EditorInput)
  (selection : option ITextEditorSelection) (now stamp : Z).

Ltac step :=
  unfold HS.addOrReplaceInStack, HS.add, HS.replace, HS.setIndex,
    HS.bind, HS.this, HS.update, HS.ret, HS.throw in *;
  cbn [HS.state_of HS.raised HS.stack HS.index HS.lastIndex HS.set_stack
       HS.set_cursor HS.emit HS.navigatingInStack HS.currentTextEditorState
       HS.history HS.recentlyClosedFiles HS.loaded HS.storage HS.log] in *.

Lemma replaceDecision_defined s input selection forceReplace now :
  HS.replaceDecision s input selection forceReplace now = true ->
  exists cur, Js.get (HS.stack s) (HS.index s) = Some cur.
Proof.
  unfold HS.replaceDecision.
  destruct (Js.get (HS.stack s) (HS.index s)) as [cur|]; [eauto|discriminate].
Qed.

(** The replace path: the stack is cut after the cursor and the entry
    under the cursor is overwritten; the cursor does not move. *)
Lemma record_replace s input selection forceReplace now stamp :
  HS.replaceDecision s input selection forceReplace now = true ->
  let o := HS.addOrReplaceInStack input selection forceReplace now stamp s in
  HS.raised o = None /\
  HS.stack (HS.state_of o)
  = firstn (Z.to_nat (HS.index s)) (HS.stack s)
    ++ [HS.newEntry (HS.preferResourceInput input) selection stamp] /\
  HS.index (HS.state_of o) = HS.index s /\
  HS.lastIndex (HS.state_of o) = HS.lastIndex s /\
  HS.same_frame s (HS.state_of o).
Proof.
  intros Hd. destruct (replaceDecision_defined _ _ _ _ _ Hd) as [cur Hcur].
  pose proof (get_Some_range _ _ _ Hcur) as Hr.
  intro o. subst o. step. rewrite Hd.
  assert (Js.set (if Js.len (HS.stack s) >? HS.index s + 1
                  then Js.slice0 (HS.stack s) (HS.index s + 1) else HS.stack s)
                 (HS.index s)
                 (HS.newEntry (HS.preferResourceInput input) selection stamp)
          = firstn (Z.to_nat (HS.index s)) (HS.stack s)
            ++ [HS.newEntry (HS.preferResourceInput input) selection stamp]) as Hset.
  { destruct (Z.gtb_spec (Js.len (HS.stack s)) (HS.index s + 1)) as [Hgt|Hle].
    - rewrite slice0_firstn by lia.
      rewrite (set_last _ _ _ cur).
      + rewrite firstn_firstn. f_equal. f_equal. lia.
      + rewrite get_firstn by lia. exact Hcur.
      + rewrite len_firstn by lia. lia.
    - apply (set_last _ _ _ cur); [exact Hcur | lia]. }
  destruct (Js.len (HS.stack s) >? HS.index s + 1); step;
    destruct (HS.preferResourceInput input); step;
    rewrite Hset; unfold HS.same_frame; step; repeat split; reflexivity.
Qed.

(** What a push inserts into: the entries up to the cursor. *)
Lemma push_target s entry :
  -1 <= HS.index s ->
  Js.splice_insert
    (if Js.len (HS.stack s) >? HS.index s + 1
     then Js.slice0 (HS.stack s) (HS.index s + 1) else HS.stack s)
    (HS.index s + 1) entry
  = firstn (Z.to_nat (HS.index s + 1)) (HS.stack s) ++ [entry].
Proof.
  intro Hi.
  destruct (Z.gtb_spec (Js.len (HS.stack s)) (HS.index s + 1)) as [Hgt|Hle].
  - rewrite slice0_firstn by lia. apply splice_insert_end.
    rewrite len_firstn by lia. lia.
  - rewrite splice_insert_end by lia.
    rewrite firstn_all2; [reflexivity|]. unfold Js.len in Hle. lia.
Qed.

(** The push path: the stack is cut after the cursor, the new entry is
    appended and the cursor advances; past the capacity the oldest entry
    is dropped and the cursor steps back. *)
Lemma record_push s input selection forceReplace now stamp :
  HS.replaceDecision s input selection forceReplace now = false ->
  -1 <= HS.index s ->
  let pushed := firstn (Z.to_nat (HS.index s + 1)) (HS.stack s)
                ++ [HS.newEntry (HS.preferResourceInput input) selection stamp] in
  let o := HS.addOrReplaceInStack input selection forceReplace now stamp s in
  HS.raised o = None /\
  HS.same_frame s (HS.state_of o) /\
  (if Js.len pushed >? HS.MAX_STACK_ITEMS
   then HS.stack (HS.state_of o) = tl pushed /\
        HS.index (HS.state_of o) = HS.index s /\
        HS.lastIndex (HS.state_of o) = HS.index s + 1
   else HS.stack (HS.state_of o) = pushed /\
        HS.index (HS.state_of o) = HS.index s + 1 /\
        HS.lastIndex (HS.state_of o) = HS.index s).
Proof.
  intros Hd Hi pushed o. subst o.
  pose proof (push_target s (HS.newEntry (HS.preferResourceInput input) selection stamp) Hi)
    as Ht. fold pushed in Ht.
  assert ((Js.len pushed >? HS.MAX_STACK_ITEMS) = true -> (HS.index s + 1 >? 0) = true) as Hpos.
  { intro Hbig. apply Z.gtb_lt in Hbig. apply Z.gtb_lt.
    unfold pushed in Hbig. rewrite len_app in Hbig. unfold Js.len in Hbig.
    rewrite length_firstn in Hbig. simpl in Hbig. unfold HS.MAX_STACK_ITEMS in Hbig. lia. }
  step. rewrite Hd.
  destruct (Js.len (HS.stack s) >? HS.index s + 1); step; rewrite Ht;
    destruct (Js.len pushed >? HS.MAX_STACK_ITEMS) eqn:Hbig; step;
    try rewrite (Hpos eq_refl); step;
    destruct (HS.preferResourceInput input); step;
    unfold HS.same_frame, Js.shift; step;
    repeat split; try reflexivity; lia.
Qed.

Lemma same_start_line_iff a b : HS.sameSelection a b = true <-> same_start_line a b.
Proof.
  unfold HS.sameSelection, same_start_line.
  destruct a, b; try rewrite Z.eqb_eq; intuition (auto; discriminate).
Qed.

Lemma coalesces_iff cur input selection now :
  (HS.matches (Doc (Editor input)) (IStackEntry.input cur)
   && (HS.sameSelection (IStackEntry.selection cur) selection
       || (now - IStackEntry.timestamp cur <? HS.MERGE_EVENT_CHANGES_THRESHOLD))) = true
  <-> coalesces cur input selection now.
Proof.
  unfold coalesces, HS.MERGE_EVENT_CHANGES_THRESHOLD.
  rewrite andb_true_iff, orb_true_iff, Z.ltb_lt, same_start_line_iff. reflexivity.
Qed.

(** C2. With a current entry present and no forced replace, the entry
    under the cursor is replaced in place exactly when the incoming
    document matches the current entry's document and either the two
    selections start on the same line (two absent selections counting
    as the same) or the current entry is less than 300ms old; the
    replacing entry carries the fresh timestamp.  Otherwise the current
    entry stays and the new one is pushed after it. *)
Theorem coalescing_rule s input selection now stamp cur :
  Js.get (HS.stack s) (HS.index s) = Some cur ->
  let entry := HS.newEntry (HS.preferResourceInput input) selection stamp in
  let s' := HS.state_of (HS.addOrReplaceInStack input selection false now stamp s) in
  (HS.replaceDecision s input selection false now = true
   <-> coalesces cur input selection now) /\
  (coalesces cur input selection now ->
   HS.stack s' = firstn (Z.to_nat (HS.index s)) (HS.stack s) ++ [entry] /\
   HS.index s' = HS.index s /\
   HS.lastIndex s' = HS.lastIndex s /\
   Js.get (HS.stack s') (HS.index s') = Some entry /\
   IStackEntry.timestamp entry = stamp) /\
  (~ coalesces cur input selection now ->
   let pushed := firstn (Z.to_nat (HS.index s)) (HS.stack s) ++ [cur; entry] in
   if Js.len pushed >? HS.MAX_STACK_ITEMS
   then HS.stack s' = tl pushed /\ HS.index s' = HS.index s /\
        HS.lastIndex s' = HS.index s + 1
   else HS.stack s' = pushed /\ HS.index s' = HS.index s + 1 /\
        HS.lastIndex s' = HS.index s).
Proof.
  intros Hcur entry s'.
  pose proof (get_Some_range _ _ _ Hcur) as Hr.
  assert (HS.replaceDecision s input selection false now = true
          <-> coalesces cur input selection now) as Hiff.
  { unfold HS.replaceDecision. rewrite Hcur. apply coalesces_iff. }
  split; [exact Hiff|]. split.
  - intro Hc. apply Hiff in Hc.
    destruct (record_replace s input selection false now stamp Hc)
      as (_ & Hst & Hi & Hli & _).
    fold s' in Hst, Hi, Hli. fold entry in Hst.
    repeat split; try assumption.
    rewrite Hst, Hi. apply get_app_last. rewrite len_firstn by lia. lia.
  - intro Hn.
    assert (HS.replaceDecision s input selection false now = false) as Hd.
    { destruct (HS.replaceDecision s input selection false now); [|reflexivity].
      exfalso. apply Hn, Hiff. reflexivity. }
    assert (-1 <= HS.index s) as Hge by lia.
    pose proof (record_push s input selection false now stamp Hd Hge) as Hp.
    cbv zeta in Hp. fold s' in Hp. fold entry in Hp.
    rewrite (firstn_succ_get _ _ _ Hcur) in Hp. rewrite <- app_assoc in Hp.
    simpl app in Hp. destruct Hp as (_ & _ & Hp). exact Hp.
Qed.

(** C3. When the cursor is not on the last entry, a non-replacing add
    drops every entry after the cursor, inserts the new entry right
    after the cursor and moves the cursor onto it. *)
Theorem push_abandons_branch s input selection now stamp :
  HS.navigatingInStack s = false ->
  -1 <= HS.index s ->
  HS.index s + 1 < Js.len (HS.stack s) ->
  Js.len (HS.stack s) <= HS.MAX_STACK_ITEMS ->
  HS.replaceDecision s input selection false now = false ->
  let entry := HS.newEntry (HS.preferResourceInput input) selection stamp in
  let s' := HS.state_of (HS.add input selection now stamp s) in
  HS.stack s' = firstn (Z.to_nat (HS.index s + 1)) (HS.stack s) ++ [entry] /\
  HS.index s' = HS.index s + 1 /\
  Js.get (HS.stack s') (HS.index s') = Some entry.
Proof.
  intros Hnav Hge Hlt Hcap Hd entry s'.
  pose proof (record_push s input selection false now stamp Hd Hge) as Hp.
  cbv zeta in Hp. fold entry in Hp.
  assert (HS.add input selection now stamp s
          = HS.addOrReplaceInStack input selection false now stamp s) as Hadd.
  { unfold HS.add, HS.bind, HS.this. rewrite Hnav. reflexivity. }
  unfold s'. rewrite Hadd.
  assert (Js.len (firstn (Z.to_nat (HS.index s + 1)) (HS.stack s) ++ [entry])
          = HS.index s + 2) as Hlen.
  { rewrite len_app, len_firstn by lia. unfold Js.len. simpl. lia. }
  rewrite Hlen in Hp.
  destruct (Z.gtb_spec (HS.index s + 2) HS.MAX_STACK_ITEMS) as [Hbig|_];
    [unfold HS.MAX_STACK_ITEMS in *; lia|].
  destruct Hp as (_ & _ & Hst & Hi & _).
  repeat split; try assumption.
  rewrite Hst, Hi. apply get_app_last. rewrite len_firstn by lia. lia.
Qed.

(** C10. On the replace path, coalescing or forced, with the cursor not
    on the last entry, every entry after the cursor is removed as well:
    the replacing entry becomes the last one. *)
Theorem replace_discards_forward_history s input selection forceReplace now stamp :
  HS.replaceDecision s input selection forceReplace now = true ->
  HS.index s + 1 < Js.len (HS.stack s) ->
  let entry := HS.newEntry (HS.preferResourceInput input) selection stamp in
  let s' := HS.state_of (HS.addOrReplaceInStack input selection forceReplace now stamp s) in
  HS.stack s' = firstn (Z.to_nat (HS.index s)) (HS.stack s) ++ [entry] /\
  HS.index s' = HS.index s /\
  Js.len (HS.stack s') = HS.index s + 1 /\
  Js.len (HS.stack s') < Js.len (HS.stack s) /\
  (forall i, HS.index s < i -> Js.get (HS.stack s') i = None).
Proof.
  intros Hd Hlt entry s'.
  destruct (replaceDecision_defined _ _ _ _ _ Hd) as [cur Hcur].
  pose proof (get_Some_range _ _ _ Hcur) as Hr.
  destruct (record_replace s input selection forceReplace now stamp Hd)
    as (_ & Hst & Hi & _).
  fold s' in Hst, Hi. fold entry in Hst.
  assert (Js.len (HS.stack s') = HS.index s + 1) as Hlen.
  { rewrite Hst, len_app, len_firstn by lia. unfold Js.len. simpl. lia. }
  repeat split; try assumption; try lia.
  intros i Hi'. apply get_out_of_range. lia.
Qed.

End StackFacts.

(** ** Moving the cursor *)

Section CursorFacts.
Context {host : Host}.
Implicit Types (s : HS.State).

Ltac nav :=
  unfold HS.back, HS.forward, HS.last, HS.doBackInEditors, HS.doForwardInEditors,
    HS.navigate, HS.setIndex, HS.bind, HS.this, HS.update, HS.ret, HS.throw in *;
  cbn [HS.state_of HS.raised HS.stack HS.index HS.lastIndex HS.set_stack
       HS.set_cursor HS.emit HS.set_navigatingInStack HS.navigatingInStack
       HS.currentTextEditorState HS.history HS.recentlyClosedFiles HS.loaded
       HS.storage HS.log] in *.

(** C6. With the cursor on an entry that is not the first, [back()]
    followed at once by [forward()] puts the cursor back where it was,
    and the editor that [forward()] opens is the original current
    entry's document with that entry's selection. *)
Theorem back_then_forward s :
  0 < HS.index s ->
  HS.index s < Js.len (HS.stack s) ->
  let o1 := HS.back false s in
  let o2 := HS.forward false (HS.state_of o1) in
  HS.raised o1 = None /\ HS.raised o2 = None /\
  HS.index (HS.state_of o2) = HS.index s /\
  HS.stack (HS.state_of o2) = HS.stack s /\
  exists entry before options,
    Js.get (HS.stack s) (HS.index s) = Some entry /\
    HS.log (HS.state_of o2) = before ++ [OpenEditor (IStackEntry.input entry) options] /\
    options_selection options = IStackEntry.selection entry.
Proof.
  intros Hpos Hlt.
  destruct (get_in_range (HS.stack s) (HS.index s - 1)) as [prev Hprev]; [lia|].
  destruct (get_in_range (HS.stack s) (HS.index s)) as [entry Hentry]; [lia|].
  intros o1 o2. subst o2 o1. nav.
  destruct (Z.gtb_spec (HS.index s) 0) as [_|Hle]; [|lia]. nav.
  rewrite Hprev. nav.
  rewrite ?Z.sub_add.
  destruct (Z.gtb_spec (Js.len (HS.stack s)) (HS.index s)) as [_|Hle]; [|lia]. nav.
  rewrite ?Z.sub_add, Hentry. nav.
  split; [reflexivity|]. split; [reflexivity|].
  split; [reflexivity|]. split; [reflexivity|].
  exists entry. eexists. eexists. split; [reflexivity|]. split; [reflexivity|].
  destruct (IStackEntry.selection entry); reflexivity.
Qed.

Lemma cursor_ok_in_range s :
  0 <= HS.index s < Js.len (HS.stack s) -> HS.cursor_ok s.
Proof.
  intros Hr. split; [intros _; exact Hr|]. split; intro H.
  - lia.
  - rewrite H in Hr. unfold Js.len in Hr. simpl in Hr. lia.
Qed.

Lemma cursor_out_of_range s :
  0 < Js.len (HS.stack s) <= HS.index s -> ~ HS.cursor_ok s.
Proof.
  intros Hr [Hrange _].
  assert (HS.stack s <> []) as Hne.
  { intro H. rewrite H in Hr. unfold Js.len in Hr. simpl in Hr. lia. }
  apply Hrange in Hne. lia.
Qed.

End CursorFacts.

(** ** Persistence *)

Section PersistenceFacts.
Context {host : Host}.
Implicit Types (s : HS.State) (h : list DocRef).

Ltac io :=
  unfold HS.getHistory, HS.ensureHistoryLoaded, HS.loadHistory, HS.save,
    HS.removeFromHistory, HS.bind, HS.this, HS.update, HS.ret, HS.throw in *;
  cbn [HS.state_of HS.raised HS.stack HS.index HS.lastIndex HS.set_stack
       HS.set_cursor HS.emit HS.set_navigatingInStack HS.navigatingInStack
       HS.set_history HS.set_loaded HS.set_storage HS.set_recentlyClosedFiles
       HS.currentTextEditorState HS.history HS.recentlyClosedFiles HS.loaded
       HS.storage HS.log] in *.

Lemma storage_get_store key value store :
  HS.storage_get key (HS.storage_store key value store) = Some value.
Proof. unfold HS.storage_store. simpl. rewrite String.eqb_refl. reflexivity. Qed.

Lemma nonempty_Some raw : raw <> EmptyString -> HS.nonempty (Some raw) = Some raw.
Proof. destruct raw; [congruence|reflexivity]. Qed.

Lemma reviveEntries_serialize h :
  (forall r, In (Resource r) h -> URI_revive (Js.JObj (URI_toJSON r)) = r) ->
  HS.reviveEntries (HS.serialize h) = inr (map Resource (resources h)).
Proof.
  induction h as [|[i|r] rest IH]; intro Hrev; simpl.
  - reflexivity.
  - apply IH. intros r Hr. apply Hrev. right. exact Hr.
  - rewrite IH by (intros r' Hr'; apply Hrev; right; exact Hr').
    unfold HS.reviveEntry. simpl.
    rewrite (Hrev r) by (left; reflexivity). reflexivity.
Qed.

Lemma resources_descriptors_only h :
  descriptors_only h -> map Resource (resources h) = h.
Proof.
  induction h as [|[i|r] rest IH]; intro Hd; simpl.
  - reflexivity.
  - destruct (Hd (Editor i)) as [r Hr]; [left; reflexivity|discriminate].
  - f_equal. apply IH. intros d Hin. apply Hd. right. exact Hin.
Qed.

(** C7. Saving a recency history and loading it back, with a JSON codec
    that reads back what it wrote and a URI codec that revives what it
    serialized, yields the resource descriptors of the saved history in
    their order, and none of its resolved inputs; a history of resource
    descriptors only is read back as it was. *)
Theorem save_load_roundtrip s s2 h :
  HS.history s = Some h ->
  HS.storage s2 = HS.storage (HS.state_of (HS.save s)) ->
  JSON_parse (JSON_stringify (Js.JArr (HS.serialize h))) = Some (Js.JArr (HS.serialize h)) ->
  JSON_stringify (Js.JArr (HS.serialize h)) <> EmptyString ->
  (forall r, In (Resource r) h -> URI_revive (Js.JObj (URI_toJSON r)) = r) ->
  let o := HS.loadHistory s2 in
  HS.raised o = None /\
  HS.history (HS.state_of o) = Some (map Resource (resources h)) /\
  (descriptors_only h -> HS.history (HS.state_of o) = Some h).
Proof.
  intros Hh Hst Hparse Hne Hrev o.
  assert (HS.raised o = None /\
          HS.history (HS.state_of o) = Some (map Resource (resources h))) as [Hr Hl].
  { subst o. io. rewrite Hh in Hst. io. rewrite Hst, storage_get_store.
    rewrite (nonempty_Some _ Hne), Hparse, (reviveEntries_serialize h Hrev).
    split; reflexivity. }
  split; [exact Hr|]. split; [exact Hl|].
  intro Hd. rewrite Hl, (resources_descriptors_only h Hd). reflexivity.
Qed.

(** C8, as the code has it.  A stored string that is not empty and does
    not parse makes the lazy load raise the parse error out of
    [ensureHistoryLoaded] and [getHistory], with the service left as it
    was, still unloaded; an empty stored string is not parsed and gives
    the empty history. *)
Theorem malformed_history_raises s raw :
  HS.loaded s = false ->
  HS.storage_get HS.STORAGE_KEY (HS.storage s) = Some raw ->
  JSON_parse raw = None ->
  (raw <> EmptyString ->
   HS.ensureHistoryLoaded s = HS.Throw Js.SyntaxError s /\
   HS.getHistory s = HS.Throw Js.SyntaxError s) /\
  (raw = EmptyString ->
   HS.getHistory s = HS.Ok [] (HS.set_loaded true (HS.set_history (Some []) s))).
Proof.
  intros Hl Hget Hparse. split.
  - intro Hne. io. rewrite Hl. io. rewrite Hget, (nonempty_Some _ Hne), Hparse.
    split; reflexivity.
  - intro He. subst raw. io. rewrite Hl. io. rewrite Hget. reflexivity.
Qed.

End PersistenceFacts.

(** ** Removal *)

Section RemovalFacts.
Context {host : Host}.
Implicit Types (s : HS.State) (h : list DocRef).

Lemma filter_keeps_all {A : Type} (p : A -> bool) (l : list A) :
  (forall x, In x l -> p x = true) -> filter p l = l.
Proof.
  induction l as [|a t IH]; intro H; simpl; [reflexivity|].
  rewrite (H a) by (left; reflexivity). f_equal. apply IH.
  intros x Hx. apply H. right. exact Hx.
Qed.

Lemma filter_drops_all {A : Type} (p : A -> bool) (l : list A) :
  (forall x, In x l -> p x = false) -> filter p l = [].
Proof.
  induction l as [|a t IH]; intro H; simpl; [reflexivity|].
  rewrite (H a) by (left; reflexivity). apply IH.
  intros x Hx. apply H. right. exact Hx.
Qed.

(** A loaded service loads nothing more. *)
Lemma ensureHistoryLoaded_loaded s :
  HS.loaded s = true -> HS.ensureHistoryLoaded s = HS.Ok tt s.
Proof.
  intro H. destruct s. cbn [HS.loaded] in H. subst. reflexivity.
Qed.

(** A call without a result that does not raise returns, in the state
    it leaves. *)
Lemma returns_unless_raised (o : HS.Outcome unit) :
  HS.raised o = None -> o = HS.Ok tt (HS.state_of o).
Proof. destruct o as [[] s|e s]; [reflexivity|discriminate]. Qed.

(** Loading touches the recency history and the loaded flag only. *)
Lemma ensureHistoryLoaded_frame s s0 :
  HS.ensureHistoryLoaded s = HS.Ok tt s0 ->
  s0 = HS.set_loaded true (HS.set_history (HS.history s0) s).
Proof.
  unfold HS.ensureHistoryLoaded, HS.loadHistory, HS.bind, HS.this, HS.update,
    HS.ret, HS.throw.
  destruct (HS.loaded s).
  - intro H. injection H as <-. destruct s; reflexivity.
  - destruct (HS.nonempty _) as [raw|].
    + destruct (JSON_parse raw) as [[| | | |entries|]|]; try discriminate.
      destruct (HS.reviveEntries entries); try discriminate.
      intro H. injection H as <-. reflexivity.
    + intro H. injection H as <-. reflexivity.
Qed.

(** C5, as the code has it.  Removing a reference that matches nothing,
    once the persisted history is loaded, raises nothing and leaves the
    stack entries, the recency history and the closed files as they
    were; the cursor however is reset to the last entry and the
    previous cursor is forgotten, and for a resource descriptor the
    recently opened registry is notified. *)
Theorem remove_absent_resets_cursor s s0 h arg1 :
  HS.ensureHistoryLoaded s = HS.Ok tt s0 ->
  HS.history s0 = Some h ->
  absent arg1 s h ->
  let o := HS.remove arg1 s in
  HS.raised o = None /\
  HS.stack (HS.state_of o) = HS.stack s /\
  HS.history (HS.state_of o) = Some h /\
  HS.recentlyClosedFiles (HS.state_of o) = HS.recentlyClosedFiles s /\
  HS.index (HS.state_of o) = Js.len (HS.stack s) - 1 /\
  HS.lastIndex (HS.state_of o) = -1 /\
  HS.navigatingInStack (HS.state_of o) = HS.navigatingInStack s /\
  HS.currentTextEditorState (HS.state_of o) = HS.currentTextEditorState s /\
  HS.storage (HS.state_of o) = HS.storage s /\
  HS.log (HS.state_of o) = HS.log s ++ recently_opened_notice arg1.
Proof.
  intros Hload Hh (Hstack & Hhist & Hclosed) o. subst o.
  pose proof (ensureHistoryLoaded_frame _ _ Hload) as Hs0.
  rewrite Hh in Hs0. clear Hh. subst s0.
  unfold HS.remove, HS.removeFromHistory, HS.removeFromStack,
    HS.removeFromRecentlyClosedFiles, HS.removeFromRecentlyOpened, HS.bind.
  rewrite Hload. unfold HS.this, HS.update.
  cbn [HS.state_of HS.raised HS.stack HS.index HS.lastIndex HS.set_stack
       HS.set_cursor HS.emit HS.set_navigatingInStack HS.navigatingInStack
       HS.set_history HS.set_loaded HS.set_storage HS.set_recentlyClosedFiles
       HS.currentTextEditorState HS.history HS.recentlyClosedFiles HS.loaded
       HS.storage HS.log].
  rewrite (filter_keeps_all _ h)
    by (intros d Hd; rewrite (Hhist d Hd); reflexivity).
  rewrite (filter_keeps_all _ (HS.stack s))
    by (intros e He; rewrite (Hstack e He); reflexivity).
  rewrite (filter_keeps_all _ (HS.recentlyClosedFiles s))
    by (intros c Hc; rewrite (Hclosed c Hc); reflexivity).
  destruct arg1 as [[i|r]|e]; unfold HS.ret, HS.update;
    cbn [HS.state_of HS.raised HS.stack HS.index HS.lastIndex HS.set_stack
       HS.set_cursor HS.emit HS.set_navigatingInStack HS.navigatingInStack
       HS.set_history HS.set_loaded HS.set_storage HS.set_recentlyClosedFiles
       HS.currentTextEditorState HS.history HS.recentlyClosedFiles HS.loaded
       HS.storage HS.log recently_opened_notice];
    rewrite ?app_nil_r; repeat split; reflexivity.
Qed.

End RemovalFacts.

(** ** The recency history *)

Section RecencyFacts.
Context {host : Host}.
Implicit Types (s : HS.State) (h : list DocRef) (input : EditorInput).

Lemma In_removelast {A : Type} (l : list A) (x : A) : In x (removelast l) -> In x l.
Proof.
  induction l as [|a [|b t] IH]; simpl; intro H; try contradiction.
  destruct H as [H|H]; [left; exact H|right; apply IH; exact H].
Qed.

Lemma pairs_filter {A : Type} (R : A -> A -> Prop) (p : A -> bool) (l : list A) :
  ForallOrdPairs R l -> ForallOrdPairs R (filter p l).
Proof.
  induction 1 as [|a l Ha Hl IH]; simpl; [constructor|].
  destruct (p a); [|exact IH]. constructor; [|exact IH].
  rewrite Forall_forall in *. intros x Hx. apply Ha.
  apply filter_In in Hx. tauto.
Qed.

Lemma pairs_removelast {A : Type} (R : A -> A -> Prop) (l : list A) :
  ForallOrdPairs R l -> ForallOrdPairs R (removelast l).
Proof.
  induction 1 as [|a l Ha Hl IH]; simpl; [constructor|].
  destruct l as [|b t]; [constructor|]. constructor; [|exact IH].
  rewrite Forall_forall in *. intros x Hx. apply Ha, In_removelast, Hx.
Qed.

Lemma len_removelast {A : Type} (l : list A) :
  l <> [] -> Js.len (removelast l) = Js.len l - 1.
Proof.
  intro Hne. unfold Js.len. rewrite removelast_firstn_len, length_firstn.
  destruct l; [congruence|]. cbn [List.length Nat.pred]. lia.
Qed.

(** The history an activation leaves, from the history it finds. *)
Lemma activation_history s s0 h input editor :
  editor_input editor = Some input ->
  getName input <> EmptyString ->
  HS.ensureHistoryLoaded s = HS.Ok tt s0 ->
  HS.history s0 = Some h ->
  let o := HS.handleEditorEventInHistory (Some editor) s in
  let h1 := HS.preferResourceInput input
            :: filter (fun e => negb (HS.matches (Doc (Editor input)) e)) h in
  HS.raised o = None /\
  HS.history (HS.state_of o)
  = Some (if Js.len h1 >? HS.MAX_HISTORY_ITEMS then removelast h1 else h1).
Proof.
  intros Hin Hname Hload Hh o h1. subst o.
  pose proof (ensureHistoryLoaded_frame _ _ Hload) as Hs0.
  rewrite Hh in Hs0. clear Hh. subst s0.
  unfold HS.handleEditorEventInHistory. rewrite Hin.
  destruct (String.eqb_spec (getName input) EmptyString) as [He|_]; [contradiction|].
  cbn [HS.include orb negb].
  unfold HS.removeFromHistory, HS.bind. rewrite Hload. cbv beta iota.
  unfold HS.ensureHistoryLoaded, HS.bind, HS.this, HS.update, HS.ret.
  cbn [HS.history HS.set_history HS.loaded HS.set_loaded].
  unfold Js.unshift, Js.pop. fold h1.
  destruct (HS.preferResourceInput input);
    cbn [HS.state_of HS.raised HS.history HS.set_history HS.emit];
    split; reflexivity.
Qed.

Section Identity.
Hypothesis Hsym : identity_symmetric.
Hypothesis Htrans : identity_transitive.
Hypothesis Hfile : identity_respects_file.

(** Neither direction of [matches] relates the stored form of [input]
    and an entry that [input] does not match. *)
Lemma stored_form_distinct input d :
  unbacked d ->
  HS.matches (Doc (Editor input)) d = false ->
  HS.matches (Doc (HS.preferResourceInput input)) d = false /\
  HS.matches (Doc d) (HS.preferResourceInput input) = false.
Proof.
  unfold HS.preferResourceInput, unbacked.
  destruct d as [y|r]; cbn [HS.matches HS.matchesFile]; intros Hu Hm.
  - destruct (toResource input) as [f|] eqn:Ef; cbn [HS.matches HS.matchesFile].
    + rewrite Hu. split; reflexivity.
    + split; [exact Hm|]. rewrite Hsym. exact Hm.
  - destruct (toResource input) as [f|] eqn:Ef; cbn [HS.matches HS.matchesFile].
    + split; [exact Hm|]. rewrite String.eqb_sym. exact Hm.
    + rewrite Ef. split; reflexivity.
Qed.

(** Two entries that [input] matches have one identity. *)
Lemma matched_entries_agree input a b :
  unbacked a -> unbacked b ->
  HS.matches (Doc (Editor input)) a = true ->
  HS.matches (Doc (Editor input)) b = true ->
  HS.matches (Doc a) b = true.
Proof.
  unfold unbacked.
  destruct a as [x|ra], b as [y|rb]; cbn [HS.matches HS.matchesFile];
    intros Ha Hb Hma Hmb.
  - apply (Htrans x input y); [rewrite Hsym; exact Hma|exact Hmb].
  - apply Hfile in Hma. rewrite Ha in Hma. rewrite Hma in Hmb. discriminate.
  - apply Hfile in Hmb. rewrite Hb in Hmb. rewrite Hmb in Hma. discriminate.
  - destruct (toResource input) as [f|]; [|discriminate].
    apply String.eqb_eq in Hma, Hmb. subst. apply String.eqb_refl.
Qed.

Lemma at_most_one_match input h :
  distinct_identities h -> inputs_unbacked h ->
  (List.length (filter (fun e => HS.matches (Doc (Editor input)) e) h) <= 1)%nat.
Proof.
  unfold distinct_identities, inputs_unbacked.
  induction 1 as [|a l Ha Hl IH]; intro Hu; cbn [filter List.length]; [lia|].
  assert (forall d, In d (a :: l) -> unbacked d) as Hu'.
  { intros [i|r] Hd; simpl; [apply Hu; exact Hd|exact I]. }
  destruct (HS.matches (Doc (Editor input)) a) eqn:Hma.
  - rewrite filter_drops_all; [cbn [List.length]; lia|].
    intros b Hb.
    destruct (HS.matches (Doc (Editor input)) b) eqn:Hmb; [|reflexivity].
    rewrite Forall_forall in Ha. destruct (Ha b Hb) as [Hab _].
    rewrite (matched_entries_agree input a b) in Hab;
      [discriminate| apply Hu'; left; reflexivity | apply Hu'; right; exact Hb
       | exact Hma | exact Hmb].
  - apply IH. intros i Hi. apply Hu. right. exact Hi.
Qed.

(** C9. An activation, on a recency history with no two entries of one
    identity and at most 200 entries, leaves such a history again, with
    the activated document in front.  A document already present is
    moved to the front, the other entries keep their order and the
    length does not change; a new document makes the history one entry
    longer, up to the limit of 200. *)
Theorem activation_keeps_recency s s0 h input editor :
  editor_input editor = Some input ->
  getName input <> EmptyString ->
  HS.ensureHistoryLoaded s = HS.Ok tt s0 ->
  HS.history s0 = Some h ->
  recency_ok h ->
  let o := HS.handleEditorEventInHistory (Some editor) s in
  exists h',
    HS.raised o = None /\
    HS.history (HS.state_of o) = Some h' /\
    recency_ok h' /\
    hd_error h' = Some (HS.preferResourceInput input) /\
    (present input h ->
     h' = HS.preferResourceInput input
          :: filter (fun e => negb (HS.matches (Doc (Editor input)) e)) h /\
     Js.len h' = Js.len h) /\
    (~ present input h ->
     Js.len h' = Z.min HS.MAX_HISTORY_ITEMS (Js.len h + 1) /\
     (Js.len h < HS.MAX_HISTORY_ITEMS -> h' = HS.preferResourceInput input :: h)).
Proof.
  intros Hin Hname Hload Hh (Hdistinct & Hcap & Hunbacked) o.
  destruct (activation_history s s0 h input editor Hin Hname Hload Hh) as [Hr Hhist].
  fold o in Hr, Hhist.
  set (rest := filter (fun e => negb (HS.matches (Doc (Editor input)) e)) h) in *.
  set (h1 := HS.preferResourceInput input :: rest) in *.
  assert (Js.len h1 = Js.len rest + 1) as Hlen1.
  { unfold h1, Js.len. simpl. lia. }
  assert (Js.len rest <= Js.len h) as Hrest.
  { unfold rest, Js.len. pose proof (filter_length_le
      (fun e => negb (HS.matches (Doc (Editor input)) e)) h). lia. }
  assert (forall d, In d rest -> In d h /\ HS.matches (Doc (Editor input)) d = false)
    as Hin_rest.
  { intros d Hd. apply filter_In in Hd. destruct Hd as [Hd Hm].
    split; [exact Hd|]. destruct (HS.matches _ d); [discriminate|reflexivity]. }
  assert (forall d, In d h -> unbacked d) as Hu.
  { intros [i|r] Hd; simpl; [apply Hunbacked; exact Hd|exact I]. }
  assert (distinct_identities h1) as Hd1.
  { unfold distinct_identities, h1. constructor.
    - rewrite Forall_forall. intros d Hd. destruct (Hin_rest d Hd) as [Hdh Hm].
      apply stored_form_distinct; [apply Hu; exact Hdh|exact Hm].
    - apply pairs_filter. exact Hdistinct. }
  assert (inputs_unbacked h1) as Hu1.
  { intros i [Hi|Hi].
    - unfold HS.preferResourceInput in Hi.
      destruct (toResource input) eqn:E; [discriminate|]. congruence.
    - apply Hunbacked. apply (Hin_rest _ Hi). }
  exists (if Js.len h1 >? HS.MAX_HISTORY_ITEMS then removelast h1 else h1).
  split; [exact Hr|]. split; [exact Hhist|].
  unfold recency_ok, HS.MAX_HISTORY_ITEMS in *.
  split; [|split; [|split]].
  - destruct (Z.gtb_spec (Js.len h1) 200) as [Hbig|Hsmall].
    + split; [apply pairs_removelast; exact Hd1|]. split.
      * rewrite len_removelast by (unfold h1; discriminate). lia.
      * intros i Hi. apply Hu1. apply In_removelast. exact Hi.
    + split; [exact Hd1|]. split; [lia|exact Hu1].
  - destruct (Z.gtb_spec (Js.len h1) 200) as [Hbig|Hsmall]; [|reflexivity].
    unfold h1 in *. destruct rest as [|d t]; [|reflexivity].
    unfold Js.len in Hbig. simpl in Hbig. lia.
  - intros (d & Hd & Hm).
    assert (Js.len rest = Js.len h - 1) as Hone.
    { assert (List.length (filter (fun e => HS.matches (Doc (Editor input)) e) h)
              + List.length rest = List.length h)%nat as Hsum
        by (apply (filter_length (fun e => HS.matches (Doc (Editor input)) e) h)).
      pose proof (at_most_one_match input h Hdistinct Hunbacked) as Hle.
      assert (In d (filter (fun e => HS.matches (Doc (Editor input)) e) h)) as Hdin
        by (apply filter_In; split; assumption).
      destruct (filter (fun e => HS.matches (Doc (Editor input)) e) h) as [|x t] eqn:E;
        [contradiction|].
      cbn [List.length] in Hle, Hsum. unfold Js.len. lia. }
    destruct (Z.gtb_spec (Js.len h1) 200) as [Hbig|Hsmall]; [lia|].
    split; [reflexivity|lia].
  - intro Habsent.
    assert (rest = h) as Hsame.
    { unfold rest. apply filter_keeps_all. intros d Hd.
      destruct (HS.matches (Doc (Editor input)) d) eqn:Hm; [|reflexivity].
      exfalso. apply Habsent. exists d. split; assumption. }
    rewrite Hsame in *.
    destruct (Z.gtb_spec (Js.len h1) 200) as [Hbig|Hsmall].
    + split; [|lia]. rewrite len_removelast by (unfold h1; discriminate). lia.
    + split; [lia|]. intros _. unfold h1. rewrite Hsame. reflexivity.
Qed.

End Identity.
End RecencyFacts.

(** ** Selection changes *)

Section SelectionFacts.
Context {host : Host}.
Implicit Types (s : HS.State) (input : EditorInput)
  (selection : option ITextEditorSelection) (now stamp : Z).

Lemma bind_update {A : Type} (m : HS.M A) (f : HS.State -> HS.State) s :
  HS.raised (m s) = None ->
  HS.bind m (fun _ => HS.update f) s = HS.Ok tt (f (HS.state_of (m s))).
Proof.
  unfold HS.bind, HS.update. destruct (m s); simpl; [reflexivity|discriminate].
Qed.

(** After recording, the new entry is under the cursor and is the last
    one, and the stack is within its capacity. *)
Lemma record_top s input selection forceReplace now stamp :
  HS.cursor_ok s ->
  Js.len (HS.stack s) <= HS.MAX_STACK_ITEMS ->
  let o := HS.addOrReplaceInStack input selection forceReplace now stamp s in
  HS.raised o = None /\
  HS.same_frame s (HS.state_of o) /\
  Js.get (HS.stack (HS.state_of o)) (HS.index (HS.state_of o))
  = Some (HS.newEntry (HS.preferResourceInput input) selection stamp) /\
  HS.index (HS.state_of o) = Js.len (HS.stack (HS.state_of o)) - 1 /\
  Js.len (HS.stack (HS.state_of o)) <= HS.MAX_STACK_ITEMS.
Proof.
  intros [Hrange Hempty] Hcap o.
  set (entry := HS.newEntry (HS.preferResourceInput input) selection stamp).
  assert (-1 <= HS.index s <= Js.len (HS.stack s) - 1) as Hidx.
  { destruct (HS.stack s) as [|e t] eqn:Es.
    - rewrite (proj2 Hempty eq_refl). unfold Js.len. simpl. lia.
    - assert (e :: t <> []) as Hne by discriminate. apply Hrange in Hne. lia. }
  destruct (HS.replaceDecision s input selection forceReplace now) eqn:Hd.
  - destruct (replaceDecision_defined _ _ _ _ _ Hd) as [cur Hcur].
    pose proof (get_Some_range _ _ _ Hcur) as Hr.
    destruct (record_replace s input selection forceReplace now stamp Hd)
      as (Hok & Hst & Hi & _ & Hframe).
    fold o in Hok, Hst, Hi, Hframe. fold entry in Hst.
    assert (Js.len (HS.stack (HS.state_of o)) = HS.index s + 1) as Hlen.
    { rewrite Hst, len_app, len_firstn by lia. unfold Js.len. simpl. lia. }
    split; [exact Hok|]. split; [exact Hframe|]. split; [|lia].
    rewrite Hst, Hi. apply get_app_last. rewrite len_firstn by lia. lia.
  - assert (-1 <= HS.index s) as Hge by lia.
    pose proof (record_push s input selection forceReplace now stamp Hd Hge) as Hp.
    cbv zeta in Hp. fold o in Hp. fold entry in Hp.
    destruct Hp as (Hok & Hframe & Hp).
    assert (Js.len (firstn (Z.to_nat (HS.index s + 1)) (HS.stack s) ++ [entry])
            = HS.index s + 2) as Hlen.
    { rewrite len_app, len_firstn by lia. unfold Js.len. simpl. lia. }
    rewrite Hlen in Hp. unfold HS.MAX_STACK_ITEMS in *.
    destruct (Z.gtb_spec (HS.index s + 2) 20) as [Hbig|Hsmall];
      destruct Hp as (Hst & Hi & _).
    + assert (Js.len (HS.stack (HS.state_of o)) = HS.index s + 1) as Hlen'.
      { rewrite Hst. unfold Js.len in *.
        destruct (firstn (Z.to_nat (HS.index s + 1)) (HS.stack s) ++ [entry]);
          simpl in *; lia. }
      split; [exact Hok|]. split; [exact Hframe|]. split; [|lia].
      rewrite Hst, Hi.
      destruct (firstn (Z.to_nat (HS.index s + 1)) (HS.stack s)) as [|e t] eqn:Ef.
      * unfold Js.len in Hlen. simpl in Hlen. lia.
      * assert (Js.len (e :: t) = HS.index s + 1) as Het
          by (rewrite <- Ef, len_firstn; lia).
        cbn [app tl]. apply get_app_last.
        unfold Js.len in Het |- *. cbn [List.length] in Het. lia.
    + split; [exact Hok|]. split; [exact Hframe|].
      split; [|rewrite Hst, Hlen; lia].
      rewrite Hst, Hi. apply get_app_last. rewrite len_firstn by lia. lia.
Qed.

(** A selection change in a text editor, outside of stack navigation:
    the classifier chooses between [add] and the forced [replace], and
    the candidate becomes the current text editor state. *)
Lemma text_event s input sel event now stamp :
  HS.navigatingInStack s = false ->
  HS.cursor_ok s ->
  Js.len (HS.stack s) <= HS.MAX_STACK_ITEMS ->
  let candidate := {| TextEditorState._editorInput := input;
                      TextEditorState._selection := Some sel |} in
  let force :=
    match HS.currentTextEditorState s with
    | None => false
    | Some current =>
        negb (TextEditorState.justifiesNewPushState current candidate event)
    end in
  let o := HS.handleEditorSelectionChangeEvent (Some (text_editor input sel))
             event now stamp s in
  let r := HS.addOrReplaceInStack input (TextEditorState.selection candidate)
             force now stamp s in
  HS.raised o = None /\
  HS.state_of o = HS.set_currentTextEditorState (Some candidate) (HS.state_of r).
Proof.
  intros Hnav Hok Hcap candidate force o r.
  assert (HS.raised r = None) as Hr by (apply record_top; assumption).
  assert (o = HS.bind (HS.addOrReplaceInStack input (TextEditorState.selection candidate)
                         force now stamp)
                      (fun _ => HS.update (HS.set_currentTextEditorState (Some candidate)))
                      s) as Ho.
  { subst o force.
    unfold HS.handleEditorSelectionChangeEvent, HS.handleEditorEventInStack, text_editor.
    cbn [editor_input codeEditor].
    unfold HS.bind at 1, HS.this at 1. rewrite Hnav.
    unfold HS.handleTextEditorEvent. fold candidate.
    unfold HS.bind at 1, HS.this at 1.
    destruct (HS.currentTextEditorState s) as [current|].
    - destruct (TextEditorState.justifiesNewPushState current candidate event);
        cbn [negb]; unfold HS.add, HS.replace, HS.bind, HS.this;
        rewrite Hnav; reflexivity.
    - unfold HS.add, HS.bind, HS.this. rewrite Hnav. reflexivity. }
  rewrite Ho, (bind_update _ _ _ Hr). split; reflexivity.
Qed.

(** C4, as the code has it.  Two successive selection changes in text
    editors of one document, outside of stack navigation, the second
    not flagged as coming from the API: closer than 10 lines, the
    second replaces the entry of the first and the number of entries
    stays; 10 lines or more apart, the second is pushed when at least
    300ms have passed since the first was recorded (the number of
    entries grows by one, up to the capacity of 20), and replaces the
    entry of the first when it comes sooner and matches it. *)
Theorem selection_changes_merge_or_push
    s0 d1 d2 sel1 sel2 event1 event2 now1 stamp1 now2 stamp2 :
  HS.cursor_ok s0 ->
  Js.len (HS.stack s0) <= HS.MAX_STACK_ITEMS ->
  HS.navigatingInStack s0 = false ->
  TextEditorState.api_source event2 = false ->
  input_matches d1 d2 = true ->
  Selection.normalized sel1 ->
  Selection.normalized sel2 ->
  let o1 := HS.handleEditorSelectionChangeEvent (Some (text_editor d1 sel1))
              event1 now1 stamp1 s0 in
  let s1 := HS.state_of o1 in
  let o2 := HS.handleEditorSelectionChangeEvent (Some (text_editor d2 sel2))
              event2 now2 stamp2 s1 in
  let s2 := HS.state_of o2 in
  let distance := Z.abs (selection_line sel1 - selection_line sel2) in
  HS.raised o1 = None /\ HS.raised o2 = None /\
  Js.get (HS.stack s1) (HS.index s1) = Some (recorded_entry d1 sel1 stamp1) /\
  Js.get (HS.stack s2) (HS.index s2) = Some (recorded_entry d2 sel2 stamp2) /\
  (distance < 10 ->
   Js.len (HS.stack s2) = Js.len (HS.stack s1) /\ HS.index s2 = HS.index s1) /\
  (10 <= distance -> 300 <= now2 - stamp1 ->
   Js.len (HS.stack s2) = Z.min HS.MAX_STACK_ITEMS (Js.len (HS.stack s1) + 1)) /\
  (10 <= distance -> now2 - stamp1 < 300 ->
   HS.matches (Doc (Editor d2)) (HS.preferResourceInput d1) = true ->
   Js.len (HS.stack s2) = Js.len (HS.stack s1) /\ HS.index s2 = HS.index s1).
Proof.
  intros Hok0 Hcap0 Hnav0 Hapi Hsame Hn1 Hn2 o1 s1 o2 s2 distance.
  (* the first change *)
  destruct (text_event s0 d1 sel1 event1 now1 stamp1 Hnav0 Hok0 Hcap0) as [Hr1 Hs1].
  cbv zeta in Hs1. fold o1 in Hr1, Hs1. fold s1 in Hs1.
  set (c1 := {| TextEditorState._editorInput := d1;
                TextEditorState._selection := Some sel1 |}) in *.
  set (f1 := match HS.currentTextEditorState s0 with
             | None => false
             | Some current => negb (TextEditorState.justifiesNewPushState current c1 event1)
             end) in *.
  destruct (record_top s0 d1 (TextEditorState.selection c1) f1 now1 stamp1 Hok0 Hcap0)
    as (_ & Hframe1 & Htop1 & Hlast1 & Hcap1).
  set (r1 := HS.state_of (HS.addOrReplaceInStack d1 (TextEditorState.selection c1)
                            f1 now1 stamp1 s0)) in *.
  assert (HS.stack s1 = HS.stack r1 /\ HS.index s1 = HS.index r1 /\
          HS.navigatingInStack s1 = false /\
          HS.currentTextEditorState s1 = Some c1) as (Hst1 & Hi1 & Hnav1 & Hcur1).
  { rewrite Hs1. destruct Hframe1 as (Hn & _).
    cbn [HS.stack HS.index HS.navigatingInStack HS.currentTextEditorState
         HS.set_currentTextEditorState].
    rewrite Hn, Hnav0. repeat split; reflexivity. }
  rewrite <- Hst1, <- Hi1 in Htop1, Hlast1. rewrite <- Hst1 in Hcap1.
  change (HS.newEntry (HS.preferResourceInput d1) (TextEditorState.selection c1) stamp1)
    with (recorded_entry d1 sel1 stamp1) in Htop1.
  pose proof (get_Some_range _ _ _ Htop1) as Hrange1.
  assert (HS.cursor_ok s1) as Hok1.
  { split; [intros _; exact Hrange1|]. split; intro H.
    - lia.
    - rewrite H in Hrange1. unfold Js.len in Hrange1. simpl in Hrange1. lia. }
  (* the second change *)
  destruct (text_event s1 d2 sel2 event2 now2 stamp2 Hnav1 Hok1 Hcap1) as [Hr2 Hs2].
  cbv zeta in Hs2. fold o2 in Hr2, Hs2. fold s2 in Hs2.
  set (c2 := {| TextEditorState._editorInput := d2;
                TextEditorState._selection := Some sel2 |}) in *.
  rewrite Hcur1 in Hs2.
  assert (TextEditorState.justifiesNewPushState c1 c2 event2 = negb (distance <? 10))
    as Hjust.
  { unfold TextEditorState.justifiesNewPushState. rewrite Hapi.
    cbn [TextEditorState._editorInput TextEditorState._selection c1 c2].
    rewrite Hsame. cbn [negb].
    unfold TextEditorState.EDITOR_SELECTION_THRESHOLD.
    fold (selection_line sel1). fold (selection_line sel2). fold distance.
    destruct (distance <? 10); reflexivity. }
  rewrite Hjust, negb_involutive in Hs2.
  destruct (record_top s1 d2 (TextEditorState.selection c2) (distance <? 10)
              now2 stamp2 Hok1 Hcap1) as (_ & _ & Htop2 & _).
  change (HS.newEntry (HS.preferResourceInput d2) (TextEditorState.selection c2) stamp2)
    with (recorded_entry d2 sel2 stamp2) in Htop2.
  assert (HS.stack s2 = HS.stack (HS.state_of
            (HS.addOrReplaceInStack d2 (TextEditorState.selection c2)
               (distance <? 10) now2 stamp2 s1)) /\
          HS.index s2 = HS.index (HS.state_of
            (HS.addOrReplaceInStack d2 (TextEditorState.selection c2)
               (distance <? 10) now2 stamp2 s1))) as (Hst2 & Hi2).
  { rewrite Hs2. split; reflexivity. }
  rewrite <- Hst2, <- Hi2 in Htop2.
  split; [exact Hr1|]. split; [exact Hr2|]. split; [exact Htop1|]. split; [exact Htop2|].
  (* how the second is recorded *)
  assert (forall force,
            HS.replaceDecision s1 d2 (TextEditorState.selection c2) force now2 = true ->
            Js.len (HS.stack (HS.state_of
              (HS.addOrReplaceInStack d2 (TextEditorState.selection c2) force now2 stamp2 s1)))
            = Js.len (HS.stack s1) /\
            HS.index (HS.state_of
              (HS.addOrReplaceInStack d2 (TextEditorState.selection c2) force now2 stamp2 s1))
            = HS.index s1) as Hreplace.
  { intros force Hd.
    destruct (record_replace s1 d2 (TextEditorState.selection c2) force now2 stamp2 Hd)
      as (_ & Hst & Hi & _).
    split; [|exact Hi].
    rewrite Hst, len_app, len_firstn by lia.
    change (Js.len [HS.newEntry (HS.preferResourceInput d2)
                      (TextEditorState.selection c2) stamp2]) with 1.
    lia. }
  split; [|split].
  - intro Hnear. apply Z.ltb_lt in Hnear. rewrite Hnear in Hst2, Hi2.
    rewrite Hst2, Hi2. apply Hreplace.
    unfold HS.replaceDecision. rewrite Htop1. reflexivity.
  - intros Hfar Hslow.
    destruct (Z.ltb_spec distance 10) as [Hlt|_]; [lia|].
    assert (HS.replaceDecision s1 d2 (TextEditorState.selection c2) false now2 = false)
      as Hd.
    { unfold HS.replaceDecision. rewrite Htop1.
      cbn [recorded_entry HS.newEntry IStackEntry.selection IStackEntry.timestamp
           IStackEntry.input TextEditorState.selection TextEditorState._selection c2
           HS.sameSelection startLineNumber].
      unfold Selection.normalized in Hn1, Hn2. rewrite Hn1, Hn2.
      fold (selection_line sel1). fold (selection_line sel2).
      destruct (Z.eqb_spec (selection_line sel1) (selection_line sel2)) as [He|_];
        [unfold distance in Hfar; lia|].
      unfold HS.MERGE_EVENT_CHANGES_THRESHOLD.
      destruct (Z.ltb_spec (now2 - stamp1) 300) as [Hl|_]; [lia|].
      apply andb_false_r. }
    assert (-1 <= HS.index s1) as Hge by lia.
    pose proof (record_push s1 d2 (TextEditorState.selection c2) false now2 stamp2 Hd Hge)
      as Hp.
    cbv zeta in Hp. destruct Hp as (_ & _ & Hp).
    rewrite <- Hst2 in Hp.
    assert (Js.len (firstn (Z.to_nat (HS.index s1 + 1)) (HS.stack s1)
                    ++ [HS.newEntry (HS.preferResourceInput d2)
                          (TextEditorState.selection c2) stamp2])
            = Js.len (HS.stack s1) + 1) as Hlen.
    { rewrite len_app, len_firstn by lia.
      change (Js.len [HS.newEntry (HS.preferResourceInput d2)
                        (TextEditorState.selection c2) stamp2]) with 1.
      lia. }
    rewrite Hlen in Hp. unfold HS.MAX_STACK_ITEMS in *.
    destruct (Z.gtb_spec (Js.len (HS.stack s1) + 1) 20) as [Hbig|Hsmall];
      destruct Hp as (Hst & _); rewrite Hst.
    + rewrite Z.min_l by lia.
      destruct (firstn (Z.to_nat (HS.index s1 + 1)) (HS.stack s1) ++ _) as [|e t];
        unfold Js.len in *; cbn [tl List.length] in *; lia.
    + rewrite Z.min_r by lia. exact Hlen.
  - intros Hfar Hfast Hmatch.
    destruct (Z.ltb_spec distance 10) as [Hlt|_]; [lia|].
    rewrite Hst2, Hi2. apply Hreplace.
    unfold HS.replaceDecision. rewrite Htop1.
    cbn [recorded_entry HS.newEntry IStackEntry.selection IStackEntry.timestamp
         IStackEntry.input].
    rewrite Hmatch. unfold HS.MERGE_EVENT_CHANGES_THRESHOLD.
    destruct (Z.ltb_spec (now2 - stamp1) 300) as [_|Hge]; [|lia].
    rewrite orb_true_r. reflexivity.
Qed.

End SelectionFacts.

(** ** The cursor invariant along calls

    Every call but [last] keeps the cursor invariant; [last] keeps it
    when the previous cursor it jumps to is still inside the stack. *)

Section InvariantFacts.
Context {host : Host}.
Implicit Types (s : HS.State).

Lemma navigate_cursor acrossEditors s :
  HS.stack (HS.state_of (HS.navigate acrossEditors s)) = HS.stack s /\
  HS.index (HS.state_of (HS.navigate acrossEditors s)) = HS.index s.
Proof.
  unfold HS.navigate, HS.bind, HS.this, HS.update, HS.throw.
  destruct (Js.get (HS.stack s) (HS.index s)); split; reflexivity.
Qed.

Lemma ensureHistoryLoaded_cursor s :
  HS.stack (HS.state_of (HS.ensureHistoryLoaded s)) = HS.stack s /\
  HS.index (HS.state_of (HS.ensureHistoryLoaded s)) = HS.index s.
Proof.
  unfold HS.ensureHistoryLoaded, HS.loadHistory, HS.bind, HS.this, HS.update,
    HS.ret, HS.throw.
  destruct (HS.loaded s); [split; reflexivity|].
  destruct (HS.nonempty _) as [raw|]; [|split; reflexivity].
  destruct (JSON_parse raw) as [[| | | |entries|]|]; try (split; reflexivity).
  destruct (HS.reviveEntries entries); split; reflexivity.
Qed.

(** Moving the cursor inside the stack. *)
Lemma jump_ok acrossEditors s i :
  HS.stack_ok s -> 0 <= i < Js.len (HS.stack s) ->
  HS.stack_ok (HS.state_of (HS.bind (HS.setIndex i)
                              (fun _ => HS.navigate acrossEditors) s)).
Proof.
  intros [_ Hcap] Hi.
  unfold HS.bind, HS.setIndex, HS.update.
  destruct (navigate_cursor acrossEditors (HS.set_cursor i (HS.index s) s)) as [Hst Hidx].
  cbn [HS.stack HS.index HS.set_cursor] in Hst, Hidx. revert Hst Hidx.
  destruct (HS.navigate acrossEditors (HS.set_cursor i (HS.index s) s));
    cbn [HS.state_of]; intros Hst Hidx;
    (split; [apply cursor_ok_in_range; rewrite Hst, Hidx; exact Hi
            | rewrite Hst; exact Hcap]).
Qed.

Lemma backScan_range stk cur (n : nat) i j :
  HS.backScan stk cur n i = inr (Some j) -> i - Z.of_nat n <= j < i.
Proof.
  revert i. induction n as [|n IH]; intros i H; [discriminate|].
  cbn [HS.backScan] in H.
  destruct cur as [c|]; [|discriminate].
  destruct (Js.get stk (i - 1)) as [prev|]; [|discriminate].
  destruct (negb _).
  - injection H as <-. lia.
  - apply IH in H. lia.
Qed.

Lemma forwardScan_range stk cur (n : nat) i j :
  HS.forwardScan stk cur n i = inr (Some j) -> i < j <= i + Z.of_nat n.
Proof.
  revert i. induction n as [|n IH]; intros i H; [discriminate|].
  cbn [HS.forwardScan] in H.
  destruct cur as [c|]; [|discriminate].
  destruct (Js.get stk (i + 1)) as [prev|]; [|discriminate].
  destruct (negb _).
  - injection H as <-. lia.
  - apply IH in H. lia.
Qed.

Lemma back_ok acrossEditors s :
  HS.stack_ok s -> HS.stack_ok (HS.state_of (HS.back acrossEditors s)).
Proof.
  intros Hok. pose proof Hok as [[Hrange _] _].
  unfold HS.back. unfold HS.bind at 1, HS.this at 1.
  destruct (Z.gtb_spec (HS.index s) 0) as [Hpos|_]; [|exact Hok].
  assert (HS.stack s <> []) as Hne.
  { intro H. destruct Hok as [[_ He] _]. apply He in H. lia. }
  apply Hrange in Hne.
  destruct acrossEditors.
  - unfold HS.doBackAcrossEditors. unfold HS.bind at 1, HS.this at 1.
    destruct (HS.backScan _ _ _ _) as [e|[j|]] eqn:Escan; try exact Hok.
    apply backScan_range in Escan. apply (jump_ok true s j Hok). lia.
  - unfold HS.doBackInEditors. unfold HS.bind at 1, HS.this at 1.
    apply (jump_ok false s (HS.index s - 1) Hok). lia.
Qed.

Lemma forward_ok acrossEditors s :
  HS.stack_ok s -> HS.stack_ok (HS.state_of (HS.forward acrossEditors s)).
Proof.
  intros Hok. pose proof Hok as [[Hrange Hempty] _].
  unfold HS.forward. unfold HS.bind at 1, HS.this at 1.
  destruct (Z.gtb_spec (Js.len (HS.stack s)) (HS.index s + 1)) as [Hlt|_]; [|exact Hok].
  assert (-1 <= HS.index s) as Hge.
  { destruct (HS.stack s) as [|e t] eqn:Es.
    - rewrite (proj2 Hempty eq_refl). lia.
    - assert (e :: t <> []) as Hne by discriminate. apply Hrange in Hne. lia. }
  destruct acrossEditors.
  - unfold HS.doForwardAcrossEditors. unfold HS.bind at 1, HS.this at 1.
    destruct (HS.forwardScan _ _ _ _) as [e|[j|]] eqn:Escan; try exact Hok.
    apply forwardScan_range in Escan. apply (jump_ok true s j Hok). lia.
  - unfold HS.doForwardInEditors. unfold HS.bind at 1, HS.this at 1.
    apply (jump_ok false s (HS.index s + 1) Hok). lia.
Qed.

Lemma record_ok input selection forceReplace now stamp s :
  HS.stack_ok s ->
  HS.stack_ok (HS.state_of
                 (HS.addOrReplaceInStack input selection forceReplace now stamp s)).
Proof.
  intros [Hok Hcap].
  destruct (record_top s input selection forceReplace now stamp Hok Hcap)
    as (_ & _ & Htop & _ & Hcap').
  split; [|exact Hcap'].
  apply cursor_ok_in_range. exact (get_Some_range _ _ _ Htop).
Qed.

Lemma filtered_ok (stk : list IStackEntry.t) s :
  Js.len stk <= Js.len (HS.stack s) -> HS.stack_ok s ->
  HS.stack_ok (HS.set_cursor (Js.len stk - 1) (-1) (HS.set_stack stk s)).
Proof.
  intros Hle [_ Hcap]. split; cbn [HS.stack HS.index HS.set_cursor HS.set_stack]; [|lia].
  split; cbn [HS.stack HS.index HS.set_cursor HS.set_stack].
  - intro Hne. pose proof (len_nonneg stk).
    assert (Js.len stk <> 0) by (rewrite len_nil_iff; exact Hne). lia.
  - rewrite <- len_nil_iff. lia.
Qed.

Lemma stack_ok_same s s' :
  HS.stack s' = HS.stack s -> HS.index s' = HS.index s ->
  HS.stack_ok s -> HS.stack_ok s'.
Proof.
  intros Hst Hidx [[Hr He] Hcap].
  split; [split|]; rewrite ?Hst, ?Hidx; assumption.
Qed.

Lemma removeFromHistory_cursor arg1 s :
  HS.stack (HS.state_of (HS.removeFromHistory arg1 s)) = HS.stack s /\
  HS.index (HS.state_of (HS.removeFromHistory arg1 s)) = HS.index s.
Proof.
  unfold HS.removeFromHistory, HS.bind.
  destruct (ensureHistoryLoaded_cursor s) as [Hst Hidx]. revert Hst Hidx.
  destruct (HS.ensureHistoryLoaded s) as [[] s0|e s0]; cbn [HS.state_of];
    intros Hst Hidx; [|split; assumption].
  unfold HS.this, HS.update, HS.throw.
  destruct (HS.history s0); cbn [HS.state_of]; split; assumption.
Qed.

Lemma remove_ok arg1 s :
  HS.stack_ok s -> HS.stack_ok (HS.state_of (HS.remove arg1 s)).
Proof.
  intros Hok.
  destruct (removeFromHistory_cursor arg1 s) as [Hst1 Hidx1].
  pose proof (stack_ok_same _ _ Hst1 Hidx1 Hok) as Hok1. clear Hst1 Hidx1.
  unfold HS.remove. unfold HS.bind at 1.
  revert Hok1.
  destruct (HS.removeFromHistory arg1 s) as [[] s1|e s1]; cbn [HS.state_of];
    intros Hok1; [|exact Hok1].
  unfold HS.removeFromStack, HS.removeFromRecentlyClosedFiles,
    HS.removeFromRecentlyOpened, HS.bind, HS.this, HS.update, HS.ret.
  cbn [HS.stack HS.set_stack].
  set (stk := filter _ (HS.stack s1)).
  assert (HS.stack_ok (HS.set_cursor (Js.len stk - 1) (-1) (HS.set_stack stk s1))) as Hf.
  { apply filtered_ok; [|exact Hok1]. unfold Js.len, stk.
    pose proof (filter_length_le
      (fun e => negb (HS.matches arg1 (IStackEntry.input e))) (HS.stack s1)). lia. }
  destruct arg1 as [[i|r]|e]; exact Hf.
Qed.

Lemma clear_ok s : HS.stack_ok s -> HS.stack_ok (HS.state_of (HS.clear s)).
Proof.
  intros Hok. unfold HS.clear. unfold HS.bind at 1.
  destruct (ensureHistoryLoaded_cursor s) as [Hst Hidx]. revert Hst Hidx.
  destruct (HS.ensureHistoryLoaded s) as [[] s0|e s0]; cbn [HS.state_of];
    intros Hst Hidx.
  - unfold HS.bind, HS.update. cbn [HS.state_of].
    split; [split|]; cbn; try discriminate; try reflexivity.
    + intro H. exfalso. apply H. reflexivity.
    + split; reflexivity.
  - exact (stack_ok_same _ _ Hst Hidx Hok).
Qed.

(** Every call other than [last] keeps the cursor invariant and the
    capacity of the stack. *)
Lemma call_keeps_stack_ok (o : HS.Op) s :
  o <> HS.OpLast -> HS.stack_ok s -> HS.stack_ok (HS.state_of (HS.call o s)).
Proof.
  intros Ho Hok. destruct o; cbn [HS.call].
  - unfold HS.add. unfold HS.bind at 1, HS.this at 1.
    destruct (HS.navigatingInStack s); cbn [negb]; [exact Hok|apply record_ok; exact Hok].
  - unfold HS.replace. unfold HS.bind at 1, HS.this at 1.
    destruct (HS.navigatingInStack s); cbn [negb]; [exact Hok|apply record_ok; exact Hok].
  - apply back_ok. exact Hok.
  - apply forward_ok. exact Hok.
  - contradiction.
  - apply clear_ok. exact Hok.
  - apply remove_ok. exact Hok.
  - unfold HS.openEditorSettled, HS.bind, HS.update, HS.ret.
    destruct failed; exact Hok.
Qed.

(** X3.  [last] keeps the cursor invariant and the capacity of the
    stack when the previous cursor is unset (it then goes back one
    step) or is still inside the stack. *)
Lemma last_keeps_stack_ok s :
  HS.stack_ok s ->
  HS.lastIndex s = -1 \/ 0 <= HS.lastIndex s < Js.len (HS.stack s) ->
  HS.stack_ok (HS.state_of (HS.last s)).
Proof.
  intros Hok Hlast. unfold HS.last. unfold HS.bind at 1, HS.this at 1.
  destruct (Z.eqb_spec (HS.lastIndex s) (-1)) as [_|Hne].
  - apply back_ok. exact Hok.
  - apply (jump_ok false s (HS.lastIndex s) Hok). lia.
Qed.

Lemma init_stack_ok store : HS.stack_ok (HS.init store).
Proof.
  split; [split|]; cbn.
  - intro H. exfalso. apply H. reflexivity.
  - split; reflexivity.
  - discriminate.
Qed.

(** X2.  Any sequence of calls without [last] (add, replace, back,
    forward, clear, remove, settling of an open request) keeps the
    cursor invariant and the capacity of the stack. *)
Lemma run_keeps_stack_ok (ops : list HS.Op) s :
  ~ In HS.OpLast ops -> HS.stack_ok s -> HS.stack_ok (HS.run ops s).
Proof.
  revert s. induction ops as [|o rest IH]; intros s Hnot Hok; [exact Hok|].
  cbn [HS.run]. apply IH.
  - intro H. apply Hnot. right. exact H.
  - apply call_keeps_stack_ok; [|exact Hok].
    intro H. apply Hnot. left. exact H.
Qed.

End InvariantFacts.

(** ** Navigation *)

Section NavigationFacts.
Context {host : Host}.
Implicit Types (s : HS.State).

Lemma same_content_refl s : same_content s s.
Proof. repeat split. Qed.

(** [setIndex] followed by [navigate]: where the cursor goes, and what
    is issued when the cursor lands on an entry. *)
Lemma jump_fields acrossEditors s i :
  let o := HS.bind (HS.setIndex i) (fun _ => HS.navigate acrossEditors) s in
  HS.index (HS.state_of o) = i /\
  HS.lastIndex (HS.state_of o) = HS.index s /\
  same_content s (HS.state_of o) /\
  (forall entry, Js.get (HS.stack s) i = Some entry ->
     HS.raised o = None /\
     HS.navigatingInStack (HS.state_of o) = true /\
     HS.log (HS.state_of o) = HS.log s ++ [open_request entry acrossEditors]).
Proof.
  intro o. subst o. unfold open_request.
  unfold HS.setIndex, HS.navigate. unfold HS.bind, HS.this, HS.update, HS.throw.
  cbn [HS.stack HS.index HS.set_cursor].
  destruct (Js.get (HS.stack s) i) as [entry|];
    cbn [HS.state_of HS.raised HS.stack HS.index HS.lastIndex HS.set_cursor HS.emit
         HS.set_navigatingInStack HS.navigatingInStack HS.history
         HS.recentlyClosedFiles HS.storage HS.log];
    (split; [reflexivity|]); (split; [reflexivity|]);
    (split; [repeat split|]).
  - intros e He. injection He as <-. repeat split.
  - intros e He. discriminate.
Qed.

Lemma within_bounds_of_stack_ok s : HS.stack_ok s -> -1 <= HS.index s.
Proof.
  intros [[Hrange Hempty] _].
  destruct (HS.stack s) as [|e t] eqn:Es.
  - rewrite (proj2 Hempty eq_refl). lia.
  - assert (e :: t <> []) as Hne by discriminate. apply Hrange in Hne. lia.
Qed.

Lemma backScan_found stk cur (n : nat) i :
  0 <= i - Z.of_nat n -> i <= Js.len stk ->
  match HS.backScan stk (Some cur) n i with
  | inl _ => False
  | inr None => run_of cur stk (i - Z.of_nat n) i
  | inr (Some j) =>
      i - Z.of_nat n <= j < i /\ run_of cur stk (j + 1) i /\
      exists e, Js.get stk j = Some e /\
        HS.matches (Doc (IStackEntry.input cur)) (IStackEntry.input e) = false
  end.
Proof.
  revert i. induction n as [|n IH]; intros i Hlo Hhi.
  - cbn [HS.backScan]. intros k e Hk. lia.
  - cbn [HS.backScan].
    destruct (get_in_range stk (i - 1)) as [prev Hprev]; [lia|].
    rewrite Hprev.
    destruct (HS.matches (Doc (IStackEntry.input cur)) (IStackEntry.input prev)) eqn:Hm;
      cbn [negb].
    + specialize (IH (i - 1)).
      destruct (HS.backScan stk (Some cur) n (i - 1)) as [e|[j|]].
      * apply IH; lia.
      * destruct IH as (Hj & Hrun & Hex); [lia|lia|].
        split; [lia|]. split; [|exact Hex].
        intros k e Hk He. destruct (Z.eq_dec k (i - 1)) as [->|Hne].
        -- rewrite Hprev in He. injection He as <-. exact Hm.
        -- apply (Hrun k e); [lia|exact He].
      * assert (run_of cur stk (i - 1 - Z.of_nat n) (i - 1)) as Hrun by (apply IH; lia).
        intros k e Hk He. destruct (Z.eq_dec k (i - 1)) as [->|Hne].
        -- rewrite Hprev in He. injection He as <-. exact Hm.
        -- apply (Hrun k e); [lia|exact He].
    + split; [lia|]. split; [intros k e Hk; lia|].
      exists prev. split; [exact Hprev|exact Hm].
Qed.

Lemma forwardScan_found stk cur (n : nat) i :
  -1 <= i -> i + Z.of_nat n < Js.len stk ->
  match HS.forwardScan stk (Some cur) n i with
  | inl _ => False
  | inr None => run_of cur stk (i + 1) (i + Z.of_nat n + 1)
  | inr (Some j) =>
      i < j <= i + Z.of_nat n /\ run_of cur stk (i + 1) j /\
      exists e, Js.get stk j = Some e /\
        HS.matches (Doc (IStackEntry.input cur)) (IStackEntry.input e) = false
  end.
Proof.
  revert i. induction n as [|n IH]; intros i Hlo Hhi.
  - cbn [HS.forwardScan]. intros k e Hk. lia.
  - cbn [HS.forwardScan].
    destruct (get_in_range stk (i + 1)) as [next Hnext]; [lia|].
    rewrite Hnext.
    destruct (HS.matches (Doc (IStackEntry.input cur)) (IStackEntry.input next)) eqn:Hm;
      cbn [negb].
    + specialize (IH (i + 1)).
      destruct (HS.forwardScan stk (Some cur) n (i + 1)) as [e|[j|]].
      * apply IH; lia.
      * destruct IH as (Hj & Hrun & Hex); [lia|lia|].
        split; [lia|]. split; [|exact Hex].
        intros k e Hk He. destruct (Z.eq_dec k (i + 1)) as [->|Hne].
        -- rewrite Hnext in He. injection He as <-. exact Hm.
        -- apply (Hrun k e); [lia|exact He].
      * assert (run_of cur stk (i + 1 + 1) (i + 1 + Z.of_nat n + 1)) as Hrun
          by (apply IH; lia).
        intros k e Hk He. destruct (Z.eq_dec k (i + 1)) as [->|Hne].
        -- rewrite Hnext in He. injection He as <-. exact Hm.
        -- apply (Hrun k e); [lia|exact He].
    + split; [lia|]. split; [intros k e Hk; lia|].
      exists next. split; [exact Hnext|exact Hm].
Qed.

Lemma back_unfold acrossEditors s :
  HS.back acrossEditors s
  = if HS.index s >? 0 then
      if acrossEditors then
        match HS.backScan (HS.stack s) (Js.get (HS.stack s) (HS.index s))
                (Z.to_nat (HS.index s)) (HS.index s) with
        | inl e => HS.Throw e s
        | inr None => HS.Ok tt s
        | inr (Some j) => HS.bind (HS.setIndex j) (fun _ => HS.navigate true) s
        end
      else HS.bind (HS.setIndex (HS.index s - 1)) (fun _ => HS.navigate false) s
    else HS.Ok tt s.
Proof.
  unfold HS.back, HS.doBackAcrossEditors, HS.doBackInEditors.
  unfold HS.bind at 1, HS.this at 1.
  destruct (HS.index s >? 0); [|reflexivity].
  destruct acrossEditors; unfold HS.bind at 1, HS.this at 1; [|reflexivity].
  destruct (HS.backScan _ _ _ _) as [e|[j|]]; reflexivity.
Qed.

Lemma forward_unfold acrossEditors s :
  HS.forward acrossEditors s
  = if Js.len (HS.stack s) >? HS.index s + 1 then
      if acrossEditors then
        match HS.forwardScan (HS.stack s) (Js.get (HS.stack s) (HS.index s))
                (Z.to_nat (Js.len (HS.stack s) - (HS.index s + 1))) (HS.index s) with
        | inl e => HS.Throw e s
        | inr None => HS.Ok tt s
        | inr (Some j) => HS.bind (HS.setIndex j) (fun _ => HS.navigate true) s
        end
      else HS.bind (HS.setIndex (HS.index s + 1)) (fun _ => HS.navigate false) s
    else HS.Ok tt s.
Proof.
  unfold HS.forward, HS.doForwardAcrossEditors, HS.doForwardInEditors.
  unfold HS.bind at 1, HS.this at 1.
  destruct (Js.len (HS.stack s) >? HS.index s + 1); [|reflexivity].
  destruct acrossEditors; unfold HS.bind at 1, HS.this at 1; [|reflexivity].
  destruct (HS.forwardScan _ _ _ _) as [e|[j|]]; reflexivity.
Qed.

Lemma last_unfold s :
  HS.last s
  = if HS.lastIndex s =? -1 then HS.back false s
    else HS.bind (HS.setIndex (HS.lastIndex s)) (fun _ => HS.navigate false) s.
Proof.
  unfold HS.last. unfold HS.bind at 1, HS.this at 1.
  destruct (HS.lastIndex s =? -1); reflexivity.
Qed.

Lemma stack_ok_nonempty s :
  HS.stack_ok s -> 0 <= HS.index s -> 0 <= HS.index s < Js.len (HS.stack s).
Proof.
  intros [[Hrange Hempty] _] Hi. apply Hrange. intro H. apply Hempty in H. lia.
Qed.

(** X5.  Going back across editors skips the entries before the cursor that
    have the document of the current entry: the cursor lands on the
    nearest earlier entry of another document, which is opened without
    a selection; when every earlier entry has the current document,
    nothing happens. *)
Theorem back_across_editors_skips_run s cur :
  HS.stack_ok s ->
  Js.get (HS.stack s) (HS.index s) = Some cur ->
  let o := HS.back true s in
  let s' := HS.state_of o in
  HS.raised o = None /\ same_content s s' /\
  ((s' = s /\ run_of cur (HS.stack s) 0 (HS.index s)) \/
   (exists e,
      0 <= HS.index s' < HS.index s /\
      Js.get (HS.stack s) (HS.index s') = Some e /\
      HS.matches (Doc (IStackEntry.input cur)) (IStackEntry.input e) = false /\
      run_of cur (HS.stack s) (HS.index s' + 1) (HS.index s) /\
      HS.lastIndex s' = HS.index s /\
      HS.navigatingInStack s' = true /\
      HS.log s' = HS.log s ++ [open_request e true])).
Proof.
  intros Hok Hcur o s'. subst s' o.
  pose proof (get_Some_range _ _ _ Hcur) as Hr.
  rewrite back_unfold.
  destruct (Z.gtb_spec (HS.index s) 0) as [Hpos|Hle].
  - rewrite Hcur.
    pose proof (backScan_found (HS.stack s) cur (Z.to_nat (HS.index s)) (HS.index s)) as Hscan.
    destruct (HS.backScan _ _ _ _) as [e|[j|]].
    + exfalso. apply Hscan; lia.
    + destruct Hscan as (Hj & Hrun & e & He & Hm); [lia|lia|].
      destruct (jump_fields true s j) as (Hi & Hli & Hsame & Hopen).
      destruct (Hopen e He) as (Hraise & Hnav & Hlog).
      split; [exact Hraise|]. split; [exact Hsame|]. right.
      exists e. rewrite Hi. repeat split; try assumption; lia.
    + split; [reflexivity|]. split; [apply same_content_refl|]. left.
      split; [reflexivity|].
      replace 0 with (HS.index s - Z.of_nat (Z.to_nat (HS.index s))) by lia.
      apply Hscan; lia.
  - split; [reflexivity|]. split; [apply same_content_refl|]. left.
    split; [reflexivity|]. intros k e Hk. lia.
Qed.

(** X6.  Going forward across editors, likewise: the cursor lands on the
    nearest later entry of another document, or stays when every later
    entry has the current document. *)
Theorem forward_across_editors_skips_run s cur :
  HS.stack_ok s ->
  Js.get (HS.stack s) (HS.index s) = Some cur ->
  let o := HS.forward true s in
  let s' := HS.state_of o in
  HS.raised o = None /\ same_content s s' /\
  ((s' = s /\ run_of cur (HS.stack s) (HS.index s + 1) (Js.len (HS.stack s))) \/
   (exists e,
      HS.index s < HS.index s' < Js.len (HS.stack s) /\
      Js.get (HS.stack s) (HS.index s') = Some e /\
      HS.matches (Doc (IStackEntry.input cur)) (IStackEntry.input e) = false /\
      run_of cur (HS.stack s) (HS.index s + 1) (HS.index s') /\
      HS.lastIndex s' = HS.index s /\
      HS.navigatingInStack s' = true /\
      HS.log s' = HS.log s ++ [open_request e true])).
Proof.
  intros Hok Hcur o s'. subst s' o.
  pose proof (get_Some_range _ _ _ Hcur) as Hr.
  rewrite forward_unfold.
  destruct (Z.gtb_spec (Js.len (HS.stack s)) (HS.index s + 1)) as [Hlt|Hle].
  - rewrite Hcur.
    pose proof (forwardScan_found (HS.stack s) cur
                  (Z.to_nat (Js.len (HS.stack s) - (HS.index s + 1))) (HS.index s))
      as Hscan.
    destruct (HS.forwardScan _ _ _ _) as [e|[j|]].
    + exfalso. apply Hscan; lia.
    + destruct Hscan as (Hj & Hrun & e & He & Hm); [lia|lia|].
      destruct (jump_fields true s j) as (Hi & Hli & Hsame & Hopen).
      destruct (Hopen e He) as (Hraise & Hnav & Hlog).
      split; [exact Hraise|]. split; [exact Hsame|]. right.
      exists e. rewrite Hi. repeat split; try assumption; lia.
    + split; [reflexivity|]. split; [apply same_content_refl|]. left.
      split; [reflexivity|].
      replace (Js.len (HS.stack s))
        with (HS.index s + Z.of_nat (Z.to_nat (Js.len (HS.stack s) - (HS.index s + 1))) + 1)
        by lia.
      apply Hscan; lia.
  - split; [reflexivity|]. split; [apply same_content_refl|]. left.
    split; [reflexivity|]. intros k e Hk He.
    apply get_Some_range in He. lia.
Qed.

(** X4.  One step back or forward inside editors, with the cursor invariant:
    the call returns, the cursor moves by one and the entry it lands
    on is opened with its selection; at the first entry [back] does
    nothing, at the last entry [forward] does nothing. *)
Theorem step_in_editors s :
  HS.stack_ok s ->
  let b := HS.back false s in
  let f := HS.forward false s in
  HS.raised b = None /\ HS.raised f = None /\
  same_content s (HS.state_of b) /\ same_content s (HS.state_of f) /\
  (HS.index s <= 0 -> HS.state_of b = s) /\
  (Js.len (HS.stack s) <= HS.index s + 1 -> HS.state_of f = s) /\
  (0 < HS.index s ->
   HS.index (HS.state_of b) = HS.index s - 1 /\
   HS.lastIndex (HS.state_of b) = HS.index s /\
   exists e, Js.get (HS.stack s) (HS.index s - 1) = Some e /\
             HS.log (HS.state_of b) = HS.log s ++ [open_request e false]) /\
  (HS.index s + 1 < Js.len (HS.stack s) ->
   HS.index (HS.state_of f) = HS.index s + 1 /\
   HS.lastIndex (HS.state_of f) = HS.index s /\
   exists e, Js.get (HS.stack s) (HS.index s + 1) = Some e /\
             HS.log (HS.state_of f) = HS.log s ++ [open_request e false]).
Proof.
  intros Hok b f. subst b f.
  pose proof (within_bounds_of_stack_ok s Hok) as Hge.
  rewrite back_unfold, forward_unfold.
  destruct (Z.gtb_spec (HS.index s) 0) as [Hpos|Hle];
    destruct (Z.gtb_spec (Js.len (HS.stack s)) (HS.index s + 1)) as [Hlt|Hge'].
  all: try (destruct (stack_ok_nonempty s Hok ltac:(lia)) as [_ Hin];
            destruct (get_in_range (HS.stack s) (HS.index s - 1)) as [ep Hep]; [lia|];
            destruct (jump_fields false s (HS.index s - 1)) as (Hbi & Hbl & Hbs & Hbo);
            destruct (Hbo ep Hep) as (Hbr & _ & Hblog)).
  all: try (destruct (get_in_range (HS.stack s) (HS.index s + 1)) as [en Hen]; [lia|];
            destruct (jump_fields false s (HS.index s + 1)) as (Hfi & Hfl & Hfs & Hfo);
            destruct (Hfo en Hen) as (Hfr & _ & Hflog)).
  all: repeat match goal with
       | |- _ /\ _ => split
       | |- same_content ?x (HS.state_of (HS.Ok tt ?x)) => apply same_content_refl
       | |- _ -> _ => intro
       | |- exists _, _ => eexists; split; eassumption
       end; try assumption; try reflexivity; try lia.
Qed.

(** X7.  [last()] undoes the step just made: after [back()] or [forward()]
    it puts the cursor back on the entry the step left. *)
Theorem last_undoes_a_step s :
  HS.stack_ok s ->
  (0 < HS.index s ->
   let o := HS.last (HS.state_of (HS.back false s)) in
   HS.raised o = None /\ HS.index (HS.state_of o) = HS.index s /\
   HS.lastIndex (HS.state_of o) = HS.index s - 1) /\
  (HS.index s + 1 < Js.len (HS.stack s) ->
   let o := HS.last (HS.state_of (HS.forward false s)) in
   HS.raised o = None /\ HS.index (HS.state_of o) = HS.index s /\
   HS.lastIndex (HS.state_of o) = HS.index s + 1).
Proof.
  intros Hok.
  pose proof (within_bounds_of_stack_ok s Hok) as Hge.
  split.
  - intros Hpos o. subst o.
    destruct (stack_ok_nonempty s Hok ltac:(lia)) as [_ Hin].
    destruct (get_in_range (HS.stack s) (HS.index s)) as [e He]; [lia|].
    assert (HS.back false s
            = HS.bind (HS.setIndex (HS.index s - 1)) (fun _ => HS.navigate false) s) as Hb.
    { rewrite back_unfold. destruct (Z.gtb_spec (HS.index s) 0); [reflexivity|lia]. }
    destruct (jump_fields false s (HS.index s - 1)) as (Hi & Hli & Hbs & _).
    rewrite <- Hb in Hi, Hli, Hbs.
    set (s1 := HS.state_of (HS.back false s)) in *.
    rewrite last_unfold, Hli.
    destruct (Z.eqb_spec (HS.index s) (-1)) as [Heq|_]; [lia|].
    destruct (jump_fields false s1 (HS.index s)) as (Hi' & Hli' & _ & Hopen).
    destruct (Hopen e) as (Hr & _); [rewrite (proj1 Hbs); exact He|].
    split; [exact Hr|]. split; [exact Hi'|]. rewrite Hli'. exact Hi.
  - intros Hlt o. subst o.
    assert (0 <= HS.index s) as Hnn.
    { destruct Hok as [[Hrange Hempty] _].
      destruct (Z.eq_dec (HS.index s) (-1)) as [Heq|Hne]; [|lia].
      apply Hempty in Heq. rewrite Heq in Hlt. unfold Js.len in Hlt. simpl in Hlt. lia. }
    destruct (get_in_range (HS.stack s) (HS.index s)) as [e He]; [lia|].
    assert (HS.forward false s
            = HS.bind (HS.setIndex (HS.index s + 1)) (fun _ => HS.navigate false) s) as Hf.
    { rewrite forward_unfold.
      destruct (Z.gtb_spec (Js.len (HS.stack s)) (HS.index s + 1)); [reflexivity|lia]. }
    destruct (jump_fields false s (HS.index s + 1)) as (Hi & Hli & Hfs & _).
    rewrite <- Hf in Hi, Hli, Hfs.
    set (s1 := HS.state_of (HS.forward false s)) in *.
    rewrite last_unfold, Hli.
    destruct (Z.eqb_spec (HS.index s) (-1)) as [Heq|_]; [lia|].
    destruct (jump_fields false s1 (HS.index s)) as (Hi' & Hli' & _ & Hopen).
    destruct (Hopen e) as (Hr & _); [rewrite (proj1 Hfs); exact He|].
    split; [exact Hr|]. split; [exact Hi'|]. rewrite Hli'. exact Hi.
Qed.

Lemma sameSelection_refl sel : HS.sameSelection sel sel = true.
Proof. destruct sel; simpl; [apply Z.eqb_refl|reflexivity]. Qed.

(** A document matches the form it is stored in. *)
Lemma matches_stored_form input :
  toResource input <> None \/ input_matches input input = true ->
  HS.matches (Doc (Editor input)) (HS.preferResourceInput input) = true.
Proof.
  unfold HS.preferResourceInput. intros [Hfile|Hrefl].
  - destruct (toResource input) as [f|] eqn:Ef; [|congruence].
    cbn [HS.matches HS.matchesFile]. rewrite Ef. apply String.eqb_refl.
  - destruct (toResource input) as [f|] eqn:Ef; cbn [HS.matches HS.matchesFile].
    + rewrite Ef. apply String.eqb_refl.
    + exact Hrefl.
Qed.

Lemma add_unfold input selection now stamp s :
  HS.add input selection now stamp s
  = if HS.navigatingInStack s then HS.Ok tt s
    else HS.addOrReplaceInStack input selection false now stamp s.
Proof.
  unfold HS.add. unfold HS.bind at 1, HS.this at 1.
  destruct (HS.navigatingInStack s); reflexivity.
Qed.

Lemma replace_unfold input selection now stamp s :
  HS.replace input selection now stamp s
  = if HS.navigatingInStack s then HS.Ok tt s
    else HS.addOrReplaceInStack input selection true now stamp s.
Proof.
  unfold HS.replace. unfold HS.bind at 1, HS.this at 1.
  destruct (HS.navigatingInStack s); reflexivity.
Qed.

(** X9.  Once something is recorded there is nothing to go forward to:
    after an [add] or a [replace] outside of stack navigation,
    [forward] does nothing, in editors or across them. *)
Theorem recording_ends_forward_history s input selection now stamp acrossEditors :
  HS.stack_ok s ->
  HS.navigatingInStack s = false ->
  let a := HS.state_of (HS.add input selection now stamp s) in
  let r := HS.state_of (HS.replace input selection now stamp s) in
  HS.forward acrossEditors a = HS.Ok tt a /\
  HS.forward acrossEditors r = HS.Ok tt r.
Proof.
  intros [Hok Hcap] Hnav a r. subst a r.
  rewrite add_unfold, replace_unfold, Hnav.
  split.
  - destruct (record_top s input selection false now stamp Hok Hcap)
      as (_ & _ & _ & Hlast & _).
    rewrite forward_unfold.
    destruct (Z.gtb_spec (Js.len (HS.stack (HS.state_of
                (HS.addOrReplaceInStack input selection false now stamp s))))
              (HS.index (HS.state_of
                (HS.addOrReplaceInStack input selection false now stamp s)) + 1));
      [lia|reflexivity].
  - destruct (record_top s input selection true now stamp Hok Hcap)
      as (_ & _ & _ & Hlast & _).
    rewrite forward_unfold.
    destruct (Z.gtb_spec (Js.len (HS.stack (HS.state_of
                (HS.addOrReplaceInStack input selection true now stamp s))))
              (HS.index (HS.state_of
                (HS.addOrReplaceInStack input selection true now stamp s)) + 1));
      [lia|reflexivity].
Qed.

(** X10.  Adding the same document with the same selection again, however
    much later, does not grow the stack: the entry under the cursor is
    replaced by one with the new timestamp. *)
Theorem repeated_add_coalesces s input selection now1 stamp1 now2 stamp2 :
  HS.stack_ok s ->
  HS.navigatingInStack s = false ->
  toResource input <> None \/ input_matches input input = true ->
  let s1 := HS.state_of (HS.add input selection now1 stamp1 s) in
  let s2 := HS.state_of (HS.add input selection now2 stamp2 s1) in
  Js.len (HS.stack s2) = Js.len (HS.stack s1) /\
  HS.index s2 = HS.index s1 /\
  Js.get (HS.stack s2) (HS.index s2)
  = Some (HS.newEntry (HS.preferResourceInput input) selection stamp2).
Proof.
  intros [Hok Hcap] Hnav Hself s1 s2. subst s2 s1.
  rewrite (add_unfold input selection now1 stamp1 s), Hnav.
  destruct (record_top s input selection false now1 stamp1 Hok Hcap)
    as (_ & Hframe & Htop & Hlast & Hcap1).
  set (s1 := HS.state_of (HS.addOrReplaceInStack input selection false now1 stamp1 s)) in *.
  pose proof (get_Some_range _ _ _ Htop) as Hr1.
  rewrite add_unfold. rewrite (proj1 Hframe), Hnav.
  assert (HS.replaceDecision s1 input selection false now2 = true) as Hd.
  { unfold HS.replaceDecision. rewrite Htop.
    cbn [HS.newEntry IStackEntry.input IStackEntry.selection].
    rewrite (matches_stored_form input Hself), sameSelection_refl. reflexivity. }
  destruct (record_replace s1 input selection false now2 stamp2 Hd)
    as (_ & Hst & Hi & _).
  split; [|split; [exact Hi|]].
  - rewrite Hst, len_app, len_firstn by lia.
    change (Js.len [HS.newEntry (HS.preferResourceInput input) selection stamp2]) with 1.
    lia.
  - rewrite Hst, Hi. apply get_app_last. rewrite len_firstn by lia. lia.
Qed.

(** X8.  Between a step in the stack and the settling of its open request
    nothing is recorded: a selection change only updates the current
    text editor state, and [add] does nothing.  Settling, with or
    without failure, clears the flag without moving the cursor back,
    and the next selection change is recorded again. *)
Theorem navigation_suspends_recording s input sel event now stamp failed :
  HS.stack_ok s ->
  0 < HS.index s ->
  let s1 := HS.state_of (HS.back false s) in
  let s2 := HS.state_of (HS.handleEditorSelectionChangeEvent
                           (Some (text_editor input sel)) event now stamp s1) in
  let s3 := HS.state_of (HS.openEditorSettled failed s2) in
  let s4 := HS.state_of (HS.handleEditorSelectionChangeEvent
                           (Some (text_editor input sel)) event now stamp s3) in
  HS.navigatingInStack s1 = true /\
  HS.add input (Some {| startLineNumber := Selection.startLineNumber sel;
                        startColumn := Selection.startColumn sel |}) now stamp s1
  = HS.Ok tt s1 /\
  s2 = HS.set_currentTextEditorState
         (Some {| TextEditorState._editorInput := input;
                  TextEditorState._selection := Some sel |}) s1 /\
  HS.navigatingInStack s3 = false /\
  HS.stack s3 = HS.stack s /\ HS.index s3 = HS.index s - 1 /\
  Js.get (HS.stack s4) (HS.index s4) = Some (recorded_entry input sel stamp).
Proof.
  intros Hok Hpos s1 s2 s3 s4.
  destruct (stack_ok_nonempty s Hok ltac:(lia)) as [_ Hin].
  destruct (get_in_range (HS.stack s) (HS.index s - 1)) as [e He]; [lia|].
  assert (HS.back false s
          = HS.bind (HS.setIndex (HS.index s - 1)) (fun _ => HS.navigate false) s) as Hback.
  { rewrite back_unfold. destruct (Z.gtb_spec (HS.index s) 0); [reflexivity|lia]. }
  destruct (jump_fields false s (HS.index s - 1)) as (Hi & _ & Hsame & Hopen).
  destruct (Hopen e He) as (_ & Hnav1 & _).
  rewrite <- Hback in Hi, Hsame, Hnav1. fold s1 in Hi, Hsame, Hnav1.
  assert (s2 = HS.set_currentTextEditorState
                 (Some {| TextEditorState._editorInput := input;
                          TextEditorState._selection := Some sel |}) s1) as Hs2.
  { unfold s2, HS.handleEditorSelectionChangeEvent, HS.handleEditorEventInStack,
      text_editor. cbn [editor_input codeEditor].
    unfold HS.bind, HS.this. rewrite Hnav1. reflexivity. }
  assert (HS.navigatingInStack s3 = false /\ HS.stack s3 = HS.stack s1 /\
          HS.index s3 = HS.index s1) as (Hnav3 & Hst3 & Hi3).
  { unfold s3, HS.openEditorSettled, HS.bind, HS.update, HS.ret. rewrite Hs2.
    destruct failed; repeat split. }
  split; [exact Hnav1|]. split; [rewrite add_unfold, Hnav1; reflexivity|].
  split; [exact Hs2|]. split; [exact Hnav3|].
  split; [rewrite Hst3; exact (proj1 Hsame)|]. split; [lia|].
  assert (HS.cursor_ok s3) as Hok3.
  { apply cursor_ok_in_range. rewrite Hst3, Hi3, (proj1 Hsame), Hi. lia. }
  assert (Js.len (HS.stack s3) <= HS.MAX_STACK_ITEMS) as Hcap3.
  { rewrite Hst3, (proj1 Hsame). exact (proj2 Hok). }
  destruct (text_event s3 input sel event now stamp Hnav3 Hok3 Hcap3) as [_ Hs4].
  cbv zeta in Hs4. fold s4 in Hs4.
  match type of Hs4 with
  | _ = HS.set_currentTextEditorState _ (HS.state_of (HS.addOrReplaceInStack _ ?sl ?f _ _ _)) =>
      destruct (record_top s3 input sl f now stamp Hok3 Hcap3) as (_ & _ & Htop & _)
  end.
  rewrite Hs4. exact Htop.
Qed.

Lemma history_only_refl s : history_only s s.
Proof. exists (HS.history s), (HS.loaded s). destruct s; reflexivity. Qed.

Lemma history_only_trans s1 s2 s3 :
  history_only s1 s2 -> history_only s2 s3 -> history_only s1 s3.
Proof. intros (h & l & ->) (h' & l' & ->). exists h', l'. reflexivity. Qed.

Lemma ensureHistoryLoaded_history_only s :
  history_only s (HS.state_of (HS.ensureHistoryLoaded s)).
Proof.
  unfold HS.ensureHistoryLoaded, HS.loadHistory, HS.bind, HS.this, HS.update,
    HS.ret, HS.throw.
  destruct (HS.loaded s) eqn:El.
  - exists (HS.history s), true. destruct s; reflexivity.
  - destruct (HS.nonempty _) as [raw|].
    + destruct (JSON_parse raw) as [[| | | |entries|]|];
        try apply history_only_refl.
      destruct (HS.reviveEntries entries) as [e|h]; [apply history_only_refl|].
      exists (Some h), true. reflexivity.
    + exists (Some []), true. reflexivity.
Qed.

Lemma removeFromHistory_history_only arg1 s :
  history_only s (HS.state_of (HS.removeFromHistory arg1 s)).
Proof.
  unfold HS.removeFromHistory. unfold HS.bind at 1.
  pose proof (ensureHistoryLoaded_history_only s) as H0. revert H0.
  destruct (HS.ensureHistoryLoaded s) as [[] s0|e s0]; cbn [HS.state_of];
    intro H0; [|exact H0].
  unfold HS.bind, HS.this, HS.update, HS.throw.
  destruct (HS.history s0) as [h|]; cbn [HS.state_of]; [|exact H0].
  apply (history_only_trans _ _ _ H0).
  exists (Some (filter (fun e => negb (HS.matches arg1 e)) h)), (HS.loaded s0).
  destruct s0; reflexivity.
Qed.

Lemma history_only_bounds s s' :
  history_only s s' -> within_bounds s -> within_bounds s'.
Proof. intros (h & l & ->) H. exact H. Qed.

Lemma record_bounds input selection forceReplace now stamp s :
  within_bounds s ->
  within_bounds (HS.state_of
                   (HS.addOrReplaceInStack input selection forceReplace now stamp s)).
Proof.
  intros (Hi & Hli & Hcap). unfold within_bounds, HS.MAX_STACK_ITEMS in *.
  destruct (HS.replaceDecision s input selection forceReplace now) eqn:Hd.
  - destruct (replaceDecision_defined _ _ _ _ _ Hd) as [cur Hcur].
    pose proof (get_Some_range _ _ _ Hcur) as Hr.
    destruct (record_replace s input selection forceReplace now stamp Hd)
      as (_ & Hst & Hidx & Hlidx & _).
    rewrite Hst, Hidx, Hlidx, len_app, len_firstn by lia.
    change (Js.len [HS.newEntry (HS.preferResourceInput input) selection stamp]) with 1.
    lia.
  - pose proof (record_push s input selection forceReplace now stamp Hd Hi) as Hp.
    cbv zeta in Hp. destruct Hp as (_ & _ & Hp). unfold HS.MAX_STACK_ITEMS in Hp.
    set (pushed := firstn (Z.to_nat (HS.index s + 1)) (HS.stack s)
                   ++ [HS.newEntry (HS.preferResourceInput input) selection stamp]) in *.
    assert (Js.len pushed <= Js.len (HS.stack s) + 1) as Hlen.
    { unfold pushed, Js.len. rewrite length_app, length_firstn. simpl. lia. }
    destruct (Z.gtb_spec (Js.len pushed) 20) as [Hbig|Hsmall];
      destruct Hp as (Hst & Hidx & Hlidx); rewrite Hst, Hidx, Hlidx.
    + split; [lia|]. split; [lia|].
      destruct pushed; unfold Js.len in *; cbn [tl List.length] in *; lia.
    + lia.
Qed.

Lemma jump_bounds acrossEditors s i :
  within_bounds s -> -1 <= i ->
  within_bounds (HS.state_of (HS.bind (HS.setIndex i)
                                (fun _ => HS.navigate acrossEditors) s)).
Proof.
  intros (Hi & Hli & Hcap) Hge.
  destruct (jump_fields acrossEditors s i) as (Hidx & Hlidx & (Hst & _) & _).
  unfold within_bounds. rewrite Hidx, Hlidx, Hst. lia.
Qed.

Lemma call_keeps_bounds (o : HS.Op) s :
  within_bounds s -> within_bounds (HS.state_of (HS.call o s)).
Proof.
  intros Hb. pose proof Hb as (Hi & Hli & Hcap). destruct o; cbn [HS.call].
  - rewrite add_unfold. destruct (HS.navigatingInStack s); [exact Hb|].
    apply record_bounds. exact Hb.
  - rewrite replace_unfold. destruct (HS.navigatingInStack s); [exact Hb|].
    apply record_bounds. exact Hb.
  - rewrite back_unfold. destruct (Z.gtb_spec (HS.index s) 0) as [Hpos|_]; [|exact Hb].
    destruct acrossEditors; [|apply jump_bounds; [exact Hb|lia]].
    destruct (HS.backScan _ _ _ _) as [e|[j|]] eqn:Escan; try exact Hb.
    apply backScan_range in Escan. apply jump_bounds; [exact Hb|lia].
  - rewrite forward_unfold.
    destruct (Z.gtb_spec (Js.len (HS.stack s)) (HS.index s + 1)) as [Hlt|_]; [|exact Hb].
    destruct acrossEditors; [|apply jump_bounds; [exact Hb|lia]].
    destruct (HS.forwardScan _ _ _ _) as [e|[j|]] eqn:Escan; try exact Hb.
    apply forwardScan_range in Escan. apply jump_bounds; [exact Hb|lia].
  - rewrite last_unfold. destruct (Z.eqb_spec (HS.lastIndex s) (-1)) as [_|Hne].
    + rewrite back_unfold. destruct (Z.gtb_spec (HS.index s) 0) as [Hpos|_]; [|exact Hb].
      apply jump_bounds; [exact Hb|lia].
    + apply jump_bounds; [exact Hb|lia].
  - unfold HS.clear. unfold HS.bind at 1.
    pose proof (ensureHistoryLoaded_history_only s) as H0. revert H0.
    destruct (HS.ensureHistoryLoaded s) as [[] s0|e s0]; cbn [HS.state_of]; intro H0.
    + unfold HS.bind, HS.update. cbn. unfold within_bounds. cbn.
      unfold Js.len, HS.MAX_STACK_ITEMS. simpl. lia.
    + exact (history_only_bounds _ _ H0 Hb).
  - unfold HS.remove. unfold HS.bind at 1.
    pose proof (removeFromHistory_history_only arg1 s) as H0. revert H0.
    destruct (HS.removeFromHistory arg1 s) as [[] s1|e s1]; cbn [HS.state_of]; intro H0;
      [|exact (history_only_bounds _ _ H0 Hb)].
    pose proof (history_only_bounds _ _ H0 Hb) as (_ & _ & Hcap1).
    unfold HS.removeFromStack, HS.removeFromRecentlyClosedFiles,
      HS.removeFromRecentlyOpened, HS.bind, HS.this, HS.update, HS.ret.
    cbn [HS.stack HS.set_stack].
    set (stk := filter _ (HS.stack s1)).
    assert (0 <= Js.len stk <= Js.len (HS.stack s1)) as Hlen.
    { unfold Js.len, stk.
      pose proof (filter_length_le
        (fun e => negb (HS.matches arg1 (IStackEntry.input e))) (HS.stack s1)). lia. }
    destruct arg1 as [[i|r]|e]; unfold within_bounds; cbn; lia.
  - unfold HS.openEditorSettled, HS.bind, HS.update, HS.ret.
    destruct failed; exact Hb.
Qed.

(** X1.  Whatever is called, in whatever order and [last] included, on a
    service started over any storage: the stack never holds more than
    20 entries and neither cursor goes below -1. *)
Theorem bounds_always_hold (ops : list HS.Op) (store : list (string * string)) :
  within_bounds (HS.run ops (HS.init store)).
Proof.
  assert (forall s, within_bounds s -> within_bounds (HS.run ops s)) as Hrun.
  { induction ops as [|o rest IH]; intros s Hb; [exact Hb|].
    cbn [HS.run]. apply IH, call_keeps_bounds, Hb. }
  apply Hrun. unfold within_bounds, HS.init, HS.MAX_STACK_ITEMS, Js.len. cbn. lia.
Qed.

End NavigationFacts.

(** ** Maintenance of the lists *)

Section MaintenanceFacts.
Context {host : Host}.
Implicit Types (s : HS.State) (h : list DocRef).

Ltac fields :=
  cbn [HS.state_of HS.raised HS.stack HS.index HS.lastIndex HS.set_stack
       HS.set_cursor HS.emit HS.set_navigatingInStack HS.navigatingInStack
       HS.set_history HS.set_loaded HS.set_storage HS.set_recentlyClosedFiles
       HS.set_currentTextEditorState
       HS.currentTextEditorState HS.history HS.recentlyClosedFiles HS.loaded
       HS.storage HS.log] in *.

(** A loaded service: what [ensureHistoryLoaded] returns is loaded and
    loads no more. *)
Lemma ensureHistoryLoaded_again s s0 :
  HS.ensureHistoryLoaded s = HS.Ok tt s0 ->
  HS.loaded s0 = true /\ HS.ensureHistoryLoaded s0 = HS.Ok tt s0.
Proof.
  intro H. pose proof (ensureHistoryLoaded_frame _ _ H) as Hs0.
  rewrite Hs0. split; reflexivity.
Qed.

(** The lazy load raises on a stored string that is not empty and does
    not parse, and leaves the service as it was. *)
Lemma ensureHistoryLoaded_unreadable s raw :
  HS.loaded s = false ->
  HS.storage_get HS.STORAGE_KEY (HS.storage s) = Some raw ->
  raw <> EmptyString ->
  JSON_parse raw = None ->
  HS.ensureHistoryLoaded s = HS.Throw Js.SyntaxError s.
Proof.
  intros Hl Hget Hne Hparse.
  unfold HS.ensureHistoryLoaded, HS.loadHistory, HS.bind, HS.this, HS.throw.
  rewrite Hl, Hget, (nonempty_Some _ Hne), Hparse. reflexivity.
Qed.

(** What [remove] leaves, once the history is loaded. *)
Lemma remove_fields s s0 h arg1 :
  HS.ensureHistoryLoaded s = HS.Ok tt s0 ->
  HS.history s0 = Some h ->
  let o := HS.remove arg1 s in
  HS.raised o = None /\
  HS.stack (HS.state_of o)
  = filter (fun e => negb (HS.matches arg1 (IStackEntry.input e))) (HS.stack s) /\
  HS.history (HS.state_of o) = Some (filter (fun e => negb (HS.matches arg1 e)) h) /\
  HS.recentlyClosedFiles (HS.state_of o)
  = filter (fun e => negb (HS.matchesFile (IRecentlyClosedFile.resource e) arg1))
      (HS.recentlyClosedFiles s) /\
  HS.index (HS.state_of o) = Js.len (HS.stack (HS.state_of o)) - 1 /\
  HS.lastIndex (HS.state_of o) = -1 /\
  HS.loaded (HS.state_of o) = true /\
  HS.storage (HS.state_of o) = HS.storage s /\
  HS.log (HS.state_of o) = HS.log s ++ recently_opened_notice arg1.
Proof.
  intros Hload Hh o. subst o.
  pose proof (ensureHistoryLoaded_frame _ _ Hload) as Hs0.
  rewrite Hh in Hs0. clear Hh. subst s0.
  unfold HS.remove, HS.removeFromHistory, HS.removeFromStack,
    HS.removeFromRecentlyClosedFiles, HS.removeFromRecentlyOpened, HS.bind.
  rewrite Hload. unfold HS.this, HS.update. fields.
  destruct arg1 as [[i|r]|e]; unfold HS.ret, HS.update; fields;
    cbn [recently_opened_notice]; rewrite ?app_nil_r; repeat split; reflexivity.
Qed.

Lemma filter_twice {A : Type} (p : A -> bool) (l : list A) :
  filter p (filter p l) = filter p l.
Proof.
  apply filter_keeps_all. intros x Hx. apply filter_In in Hx. tauto.
Qed.

(** X15.  After [remove], nothing the service holds matches the argument any
    more, everything that did not match is still there, and the cursor
    is on the last entry left (-1 when none is); removing the same
    argument again changes none of the three lists. *)
Theorem remove_leaves_nothing_matching s s0 h arg1 :
  HS.ensureHistoryLoaded s = HS.Ok tt s0 ->
  HS.history s0 = Some h ->
  let s1 := HS.state_of (HS.remove arg1 s) in
  let s2 := HS.state_of (HS.remove arg1 s1) in
  HS.raised (HS.remove arg1 s) = None /\
  (exists h1, HS.history s1 = Some h1 /\ absent arg1 s1 h1 /\
     (forall d, In d h -> HS.matches arg1 d = false -> In d h1)) /\
  (forall e, In e (HS.stack s) -> HS.matches arg1 (IStackEntry.input e) = false ->
             In e (HS.stack s1)) /\
  (forall c, In c (HS.recentlyClosedFiles s) ->
             HS.matchesFile (IRecentlyClosedFile.resource c) arg1 = false ->
             In c (HS.recentlyClosedFiles s1)) /\
  HS.index s1 = Js.len (HS.stack s1) - 1 /\ HS.lastIndex s1 = -1 /\
  HS.stack s2 = HS.stack s1 /\ HS.history s2 = HS.history s1 /\
  HS.recentlyClosedFiles s2 = HS.recentlyClosedFiles s1.
Proof.
  intros Hload Hh s1 s2.
  destruct (remove_fields s s0 h arg1 Hload Hh)
    as (Hr & Hst & Hhi & Hcl & Hi & Hli & Hlo & _).
  fold s1 in Hst, Hhi, Hcl, Hi, Hli, Hlo.
  assert (HS.ensureHistoryLoaded s1 = HS.Ok tt s1) as Hload1.
  { unfold HS.ensureHistoryLoaded, HS.bind, HS.this, HS.update, HS.ret.
    rewrite Hlo. f_equal. destruct s1; cbn in *; subst; reflexivity. }
  destruct (remove_fields s1 s1 _ arg1 Hload1 Hhi) as (_ & Hst2 & Hhi2 & Hcl2 & _).
  fold s2 in Hst2, Hhi2, Hcl2.
  assert (forall {A} (p : A -> bool) l x, In x (filter (fun y => negb (p y)) l) -> p x = false)
    as Hout.
  { intros A p l x Hx. apply filter_In in Hx. destruct Hx as [_ Hx].
    destruct (p x); [discriminate|reflexivity]. }
  assert (forall {A} (p : A -> bool) l x, In x l -> p x = false ->
            In x (filter (fun y => negb (p y)) l)) as Hkeep.
  { intros A p l x Hx Hp. apply filter_In. rewrite Hp. split; [exact Hx|reflexivity]. }
  split; [exact Hr|]. split.
  { eexists. split; [exact Hhi|]. split.
    - split; [|split].
      + intros e He. rewrite Hst in He.
        exact (Hout _ (fun e => HS.matches arg1 (IStackEntry.input e)) _ _ He).
      + intros d Hd. exact (Hout _ (fun e => HS.matches arg1 e) _ _ Hd).
      + intros c Hc. rewrite Hcl in Hc.
        exact (Hout _ (fun e => HS.matchesFile (IRecentlyClosedFile.resource e) arg1) _ _ Hc).
    - intros d Hd Hm. exact (Hkeep _ (fun e => HS.matches arg1 e) _ _ Hd Hm). }
  split.
  { intros e He Hm. rewrite Hst.
    exact (Hkeep _ (fun e => HS.matches arg1 (IStackEntry.input e)) _ _ He Hm). }
  split.
  { intros c Hc Hm. rewrite Hcl.
    exact (Hkeep _ (fun e => HS.matchesFile (IRecentlyClosedFile.resource e) arg1)
             _ _ Hc Hm). }
  split; [exact Hi|]. split; [exact Hli|].
  rewrite Hst2, Hhi2, Hcl2, Hst, Hhi, Hcl, !filter_twice. repeat split.
Qed.

(** X16.  While the persisted history is unreadable, every operation that
    first makes sure the history is loaded raises the parse error and
    does nothing else: [clear] does not clear, [remove] does not
    remove, an activation is not recorded, the closed files are not
    popped and the exclusions are not applied. *)
Theorem unreadable_history_blocks s raw arg1 editor input group :
  HS.loaded s = false ->
  HS.storage_get HS.STORAGE_KEY (HS.storage s) = Some raw ->
  raw <> EmptyString ->
  JSON_parse raw = None ->
  editor_input editor = Some input ->
  getName input <> EmptyString ->
  HS.clear s = HS.Throw Js.SyntaxError s /\
  HS.remove arg1 s = HS.Throw Js.SyntaxError s /\
  HS.handleEditorEventInHistory (Some editor) s = HS.Throw Js.SyntaxError s /\
  HS.reopenLastClosedEditor group s = HS.Throw Js.SyntaxError s /\
  HS.handleExcludesChange s = HS.Throw Js.SyntaxError s.
Proof.
  intros Hl Hget Hne Hparse Hin Hname.
  pose proof (ensureHistoryLoaded_unreadable s raw Hl Hget Hne Hparse) as Hthrow.
  split; [|split; [|split; [|split]]].
  - unfold HS.clear. unfold HS.bind at 1. rewrite Hthrow. reflexivity.
  - unfold HS.remove, HS.removeFromHistory. unfold HS.bind at 1 2.
    rewrite Hthrow. reflexivity.
  - unfold HS.handleEditorEventInHistory. rewrite Hin.
    destruct (String.eqb_spec (getName input) EmptyString) as [He|_]; [contradiction|].
    cbn [HS.include orb negb]. unfold HS.bind at 1. rewrite Hthrow. reflexivity.
  - unfold HS.reopenLastClosedEditor. unfold HS.bind at 1. rewrite Hthrow. reflexivity.
  - unfold HS.handleExcludesChange, HS.removeExcludedFromHistory. unfold HS.bind at 1.
    rewrite Hthrow. reflexivity.
Qed.

(** X17.  [clear], once the history is loaded, empties the stack, the recency
    history and the closed files and resets both cursors.  The storage
    is not touched: the persisted history is replaced only by the next
    [save], which writes the empty array; until then the service
    answers [getHistory] with the empty history without reading the
    storage again. *)
Theorem clear_resets s s0 :
  HS.ensureHistoryLoaded s = HS.Ok tt s0 ->
  let s1 := HS.state_of (HS.clear s) in
  HS.raised (HS.clear s) = None /\
  HS.stack s1 = [] /\ HS.index s1 = -1 /\ HS.lastIndex s1 = -1 /\
  HS.history s1 = Some [] /\ HS.recentlyClosedFiles s1 = [] /\
  HS.storage s1 = HS.storage s /\
  (forall store, HS.getHistory (HS.set_storage store s1)
                 = HS.Ok [] (HS.set_storage store s1)) /\
  HS.storage_get HS.STORAGE_KEY (HS.storage (HS.state_of (HS.save s1)))
  = Some (JSON_stringify (Js.JArr [])).
Proof.
  intros Hload s1. subst s1.
  pose proof (ensureHistoryLoaded_frame _ _ Hload) as Hs0.
  assert (HS.clear s
          = HS.Ok tt (HS.set_recentlyClosedFiles []
                        (HS.set_history (Some [])
                           (HS.set_stack [] (HS.set_cursor (-1) (-1) s0))))) as Hclear.
  { unfold HS.clear. unfold HS.bind at 1. rewrite Hload. reflexivity. }
  rewrite Hclear. rewrite Hs0.
  unfold HS.getHistory, HS.ensureHistoryLoaded, HS.save, HS.bind, HS.update,
    HS.this, HS.ret.
  fields. cbn [HS.serialize].
  rewrite storage_get_store. repeat split.
Qed.

Lemma reviveEntries_descriptors entries h :
  HS.reviveEntries entries = inr h ->
  descriptors_only h /\ (List.length h <= List.length entries)%nat.
Proof.
  revert h. induction entries as [|entry rest IH]; intros h H; cbn [HS.reviveEntries] in H.
  - injection H as <-. split; [intros d []|apply Nat.le_refl].
  - destruct (HS.reviveEntry entry) as [e|d] eqn:Ee; [discriminate|].
    destruct (HS.reviveEntries rest) as [e|ds]; [discriminate|].
    destruct (IH ds eq_refl) as [Hds Hlen].
    injection H as <-. destruct d as [d|].
    + split; [|cbn [List.length]; lia].
      intros x [<-|Hx]; [|apply Hds; exact Hx].
      unfold HS.reviveEntry in Ee.
      destruct (Js.prop entry "resource") as [e1|res]; [discriminate|].
      destruct (Js.prop entry "resourceJSON") as [e2|resJSON]; [discriminate|].
      destruct (Js.truthy_opt res || Js.truthy_opt resJSON); [|discriminate].
      injection Ee as <-. eexists. reflexivity.
    + split; [exact Hds|cbn [List.length]; lia].
Qed.

(** X18.  Whatever the storage holds, a history that loads consists of
    resource descriptors only. *)
Theorem loaded_history_is_descriptors_only s s1 :
  HS.loadHistory s = HS.Ok tt s1 ->
  exists h, HS.history s1 = Some h /\ descriptors_only h /\ inputs_unbacked h.
Proof.
  unfold HS.loadHistory, HS.bind, HS.this, HS.update, HS.throw.
  assert (forall h, descriptors_only h -> inputs_unbacked h) as Hunb.
  { intros h Hd i Hi. destruct (Hd _ Hi) as [r Hr]. discriminate. }
  destruct (HS.nonempty _) as [raw|].
  - destruct (JSON_parse raw) as [[| | | |entries|]|]; try discriminate.
    destruct (HS.reviveEntries entries) as [e|h] eqn:Eh; [discriminate|].
    intro H. injection H as <-. exists h.
    destruct (reviveEntries_descriptors _ _ Eh) as [Hd _].
    split; [reflexivity|]. split; [exact Hd|exact (Hunb h Hd)].
  - intro H. injection H as <-. exists [].
    split; [reflexivity|]. split; [intros d []|intros i []].
Qed.

(** X19.  The load is lazy and happens once: after it has succeeded,
    [getHistory] answers from memory whatever the storage has become. *)
Theorem history_load_is_memoized s s0 h store :
  HS.ensureHistoryLoaded s = HS.Ok tt s0 ->
  HS.history s0 = Some h ->
  HS.getHistory (HS.set_storage store s0) = HS.Ok h (HS.set_storage store s0).
Proof.
  intros Hload Hh.
  destruct (ensureHistoryLoaded_again _ _ Hload) as [Hl _].
  unfold HS.getHistory, HS.ensureHistoryLoaded, HS.bind, HS.this, HS.update, HS.ret.
  fields. rewrite Hl. cbv beta iota. fields. rewrite Hh.
  f_equal. destruct s0; cbn in *; subst; reflexivity.
Qed.

Lemma reviveEntries_null entries :
  In Js.JNull entries -> HS.reviveEntries entries = inl Js.TypeError.
Proof.
  induction entries as [|entry rest IH]; intros Hin; [contradiction|].
  cbn [HS.reviveEntries]. destruct Hin as [->|Hin].
  - reflexivity.
  - rewrite (IH Hin).
    destruct (HS.reviveEntry entry) as [e|d] eqn:Ee; [|reflexivity].
    unfold HS.reviveEntry in Ee. destruct entry; cbn in Ee;
      repeat match type of Ee with
             | context [if ?c then _ else _] => destruct c
             end;
      try discriminate.
    injection Ee as <-. reflexivity.
Qed.

(** X20.  A stored string that parses, but not to an array of entries, makes
    the load raise a type error and leaves the service unloaded: so
    does any value that is not an array, and so does an array with a
    [null] element. *)
Theorem ill_formed_history_raises s raw v :
  HS.loaded s = false ->
  HS.storage_get HS.STORAGE_KEY (HS.storage s) = Some raw ->
  raw <> EmptyString ->
  JSON_parse raw = Some v ->
  (forall entries, v = Js.JArr entries -> In Js.JNull entries) ->
  HS.getHistory s = HS.Throw Js.TypeError s.
Proof.
  intros Hl Hget Hne Hparse Hbad.
  unfold HS.getHistory, HS.ensureHistoryLoaded, HS.loadHistory, HS.bind, HS.this,
    HS.throw.
  rewrite Hl, Hget, (nonempty_Some _ Hne), Hparse.
  destruct v as [| | | |entries|]; try reflexivity.
  rewrite (reviveEntries_null entries (Hbad entries eq_refl)). reflexivity.
Qed.

Lemma recency_ok_filter (p : DocRef -> bool) h :
  recency_ok h -> recency_ok (filter p h).
Proof.
  intros (Hd & Hcap & Hu). split; [|split].
  - apply pairs_filter. exact Hd.
  - pose proof (filter_length_le p h). unfold Js.len in *. lia.
  - intros i Hi. apply Hu. apply filter_In in Hi. tauto.
Qed.

(** X21.  A change of the exclusions filters the recency history and nothing
    else: no descriptor of an excluded resource is left, resolved
    inputs all stay, the entries kept are in their order, and the
    navigation stack and its cursors are not touched. *)
Theorem excludes_change_filters_history_only s s0 h :
  HS.ensureHistoryLoaded s = HS.Ok tt s0 ->
  HS.history s0 = Some h ->
  let o := HS.handleExcludesChange s in
  let s1 := HS.state_of o in
  HS.raised o = None /\
  HS.history s1 = Some (filter HS.include h) /\
  (forall r, In (Resource r) (filter HS.include h) -> resourceFilter_matches r = false) /\
  (forall r, In (Resource r) h -> resourceFilter_matches r = false ->
             In (Resource r) (filter HS.include h)) /\
  (forall i, In (Editor i) h -> In (Editor i) (filter HS.include h)) /\
  (recency_ok h -> recency_ok (filter HS.include h)) /\
  HS.stack s1 = HS.stack s /\ HS.index s1 = HS.index s /\
  HS.lastIndex s1 = HS.lastIndex s /\
  HS.recentlyClosedFiles s1 = HS.recentlyClosedFiles s.
Proof.
  intros Hload Hh o s1. subst s1 o.
  pose proof (ensureHistoryLoaded_frame _ _ Hload) as Hs0.
  rewrite Hh in Hs0. clear Hh. subst s0.
  unfold HS.handleExcludesChange, HS.removeExcludedFromHistory, HS.bind.
  rewrite Hload. unfold HS.this, HS.update. fields.
  split; [reflexivity|]. split; [reflexivity|].
  split.
  { intros r Hr. apply filter_In in Hr. destruct Hr as [_ Hr]. cbn in Hr.
    destruct (resourceFilter_matches r); [discriminate|reflexivity]. }
  split.
  { intros r Hr Hf. apply filter_In. split; [exact Hr|]. cbn. rewrite Hf. reflexivity. }
  split.
  { intros i Hi. apply filter_In. split; [exact Hi|reflexivity]. }
  split; [apply recency_ok_filter|]. repeat split.
Qed.

(** X22.  An activation is recorded whatever the exclusions say, because the
    exclusion test is made on the resolved input, which is always
    included: a named input backed by an excluded file goes to the
    front of the recency history as the descriptor of that file, and
    stays there until the next change of the exclusions drops it. *)
Theorem activation_ignores_exclusions s s0 h editor input file :
  editor_input editor = Some input ->
  getName input <> EmptyString ->
  toResource input = Some file ->
  resourceFilter_matches file = true ->
  HS.ensureHistoryLoaded s = HS.Ok tt s0 ->
  HS.history s0 = Some h ->
  let o1 := HS.handleEditorEventInHistory (Some editor) s in
  let o2 := HS.handleExcludesChange (HS.state_of o1) in
  HS.raised o1 = None /\ HS.raised o2 = None /\
  (exists h1, HS.history (HS.state_of o1) = Some h1 /\
              hd_error h1 = Some (Resource file)) /\
  (exists h2, HS.history (HS.state_of o2) = Some h2 /\ ~ In (Resource file) h2).
Proof.
  intros Hin Hname Hfile Hexcl Hload Hh o1 o2.
  destruct (activation_history s s0 h input editor Hin Hname Hload Hh) as [Hr1 Hh1].
  cbv zeta in Hh1. fold o1 in Hr1, Hh1.
  assert (HS.preferResourceInput input = Resource file) as Hpref
    by (unfold HS.preferResourceInput; rewrite Hfile; reflexivity).
  rewrite Hpref in Hh1.
  set (h1 := if Js.len (Resource file :: filter _ h) >? HS.MAX_HISTORY_ITEMS
             then removelast (Resource file :: filter _ h)
             else Resource file :: filter _ h) in *.
  assert (hd_error h1 = Some (Resource file)) as Hhd.
  { unfold h1. destruct (Z.gtb_spec (Js.len (Resource file :: filter
        (fun e => negb (HS.matches (Doc (Editor input)) e)) h)) HS.MAX_HISTORY_ITEMS)
      as [Hbig|_]; [|reflexivity].
    destruct (filter (fun e => negb (HS.matches (Doc (Editor input)) e)) h);
      [|reflexivity].
    unfold Js.len, HS.MAX_HISTORY_ITEMS in Hbig. simpl in Hbig. lia. }
  assert (HS.loaded (HS.state_of o1) = true) as Hl1.
  { subst o1. unfold HS.handleEditorEventInHistory. rewrite Hin.
    destruct (String.eqb_spec (getName input) EmptyString) as [He|_]; [contradiction|].
    cbn [HS.include orb negb].
    pose proof (ensureHistoryLoaded_frame _ _ Hload) as Hs0.
    rewrite Hh in Hs0. subst s0.
    unfold HS.removeFromHistory, HS.bind. rewrite Hload. cbv beta iota.
    unfold HS.ensureHistoryLoaded, HS.bind, HS.this, HS.update, HS.ret. fields.
    rewrite Hpref. reflexivity. }
  assert (HS.ensureHistoryLoaded (HS.state_of o1) = HS.Ok tt (HS.state_of o1)) as Hload1.
  { unfold HS.ensureHistoryLoaded, HS.bind, HS.this, HS.update, HS.ret.
    rewrite Hl1. f_equal. destruct (HS.state_of o1); cbn in *; subst; reflexivity. }
  assert (HS.raised o2 = None /\
          HS.history (HS.state_of o2) = Some (filter HS.include h1)) as [Hr2 Hh2].
  { subst o2. unfold HS.handleExcludesChange, HS.removeExcludedFromHistory, HS.bind.
    rewrite Hload1. unfold HS.this, HS.update. rewrite Hh1. split; reflexivity. }
  split; [exact Hr1|]. split; [exact Hr2|]. split.
  - exists h1. split; [exact Hh1|exact Hhd].
  - exists (filter HS.include h1). split; [exact Hh2|].
    intro Hi. apply filter_In in Hi. destruct Hi as [_ Hi]. cbn in Hi.
    rewrite Hexcl in Hi. discriminate.
Qed.

(** X23.  A file deletion event removes descriptors only: every stack entry
    and every recency entry that holds a resolved input survives it,
    and the recently opened registry is not notified; with no deletion
    in the event nothing is done at all. *)
Theorem file_deletion_spares_resolved_inputs s s0 h e :
  HS.ensureHistoryLoaded s = HS.Ok tt s0 ->
  HS.history s0 = Some h ->
  let o := HS.onFileChanges e true s in
  HS.raised o = None /\
  (forall entry i, In entry (HS.stack s) -> IStackEntry.input entry = Editor i ->
                   In entry (HS.stack (HS.state_of o))) /\
  (exists h1, HS.history (HS.state_of o) = Some h1 /\
              forall i, In (Editor i) h -> In (Editor i) h1) /\
  HS.log (HS.state_of o) = HS.log s /\
  HS.onFileChanges e false s = HS.Ok tt s.
Proof.
  intros Hload Hh o. subst o. cbn [HS.onFileChanges].
  destruct (remove_fields s s0 h (FileChanges e) Hload Hh)
    as (Hr & Hst & Hhi & _ & _ & _ & _ & _ & Hlog).
  split; [exact Hr|]. split.
  { intros entry i Hin Hi. rewrite Hst. apply filter_In. split; [exact Hin|].
    rewrite Hi. reflexivity. }
  split.
  { eexists. split; [exact Hhi|]. intros i Hi. apply filter_In.
    split; [exact Hi|reflexivity]. }
  split; [|reflexivity].
  rewrite Hlog. cbn [recently_opened_notice]. apply app_nil_r.
Qed.

End MaintenanceFacts.

(** ** Recently closed files *)

Section ClosedFilesFacts.
Context {host : Host}.
Implicit Types (s : HS.State) (files : list IRecentlyClosedFile.t).

Lemma popped_last files f : HS.popped (files ++ [f]) = Some f.
Proof.
  unfold HS.popped. apply get_app_last. rewrite len_app.
  change (Js.len [f]) with 1. lia.
Qed.

Lemma NoDup_snoc {A : Type} (l : list A) (x : A) :
  NoDup l -> ~ In x l -> NoDup (l ++ [x]).
Proof.
  induction 1 as [|a l Ha Hl IH]; intro Hx; simpl.
  - constructor; [intros []|constructor].
  - constructor.
    + intro Hin. apply in_app_or in Hin. destruct Hin as [Hin|[<-|[]]].
      * exact (Ha Hin).
      * apply Hx. left. reflexivity.
    + apply IH. intro Hin. apply Hx. right. exact Hin.
Qed.

(** Filtering the closed files keeps their resources distinct. *)
Lemma filtered_files_distinct (keep : IRecentlyClosedFile.t -> bool)
    (files : list IRecentlyClosedFile.t) :
  NoDup (map IRecentlyClosedFile.resource files) ->
  NoDup (map IRecentlyClosedFile.resource (filter keep files)).
Proof.
  induction files as [|c files IH]; cbn [map filter]; intro Hnd; [constructor|].
  apply NoDup_cons_iff in Hnd. destruct Hnd as [Hc Hrest].
  destruct (keep c); [|exact (IH Hrest)].
  cbn [map]. apply NoDup_cons; [|exact (IH Hrest)].
  intro Hin. apply Hc. apply in_map_iff in Hin. destruct Hin as (c' & Hres & Hin).
  apply in_map_iff. exists c'. split; [exact Hres|].
  exact (proj1 (proj1 (filter_In _ _ _) Hin)).
Qed.

(** X24.  Closing a pinned editor of a file makes that file the one to reopen
    first, names it once in the list and keeps the list within 20
    entries; closing an editor that is not pinned or has no file
    changes nothing.  The stack and the recency history are not
    touched. *)
Theorem editor_closed_is_remembered s event :
  closed_ok (HS.recentlyClosedFiles s) ->
  let o := HS.onEditorClosed event s in
  let s1 := HS.state_of o in
  HS.raised o = None /\
  closed_ok (HS.recentlyClosedFiles s1) /\
  HS.stack s1 = HS.stack s /\ HS.index s1 = HS.index s /\
  HS.history s1 = HS.history s /\
  (forall file, HS.close_pinned event = true ->
     toResource (HS.close_editor event) = Some file ->
     HS.popped (HS.recentlyClosedFiles s1)
     = Some {| IRecentlyClosedFile.resource := file;
               IRecentlyClosedFile.index := HS.close_index event |}) /\
  (HS.close_pinned event = false \/ toResource (HS.close_editor event) = None -> s1 = s).
Proof.
  intros [Hnd Hcap] o s1. subst s1 o. unfold HS.onEditorClosed.
  destruct (HS.close_pinned event) eqn:Ep;
    [|cbn; repeat split; try assumption; intros; discriminate].
  destruct (toResource (HS.close_editor event)) as [file|] eqn:Ef;
    [|cbn; repeat split; try assumption; intros; discriminate].
  unfold HS.removeFromRecentlyClosedFiles, HS.bind, HS.this, HS.update, HS.ret.
  cbn [HS.recentlyClosedFiles HS.set_recentlyClosedFiles].
  set (kept := filter (fun e => negb (HS.matchesFile (IRecentlyClosedFile.resource e)
                                        (Doc (Editor (HS.close_editor event)))))
                      (HS.recentlyClosedFiles s)).
  set (closed := {| IRecentlyClosedFile.resource := file;
                    IRecentlyClosedFile.index := HS.close_index event |}).
  assert (NoDup (map IRecentlyClosedFile.resource (kept ++ [closed]))) as Hnd1.
  { rewrite map_app. apply NoDup_snoc.
    - apply filtered_files_distinct. exact Hnd.
    - intro Hin. apply in_map_iff in Hin. destruct Hin as (c & Hc & Hcin).
      apply filter_In in Hcin. destruct Hcin as [_ Hm].
      cbn [HS.matchesFile] in Hm. rewrite Ef, Hc in Hm.
      cbn in Hm. rewrite String.eqb_refl in Hm. discriminate. }
  assert (Js.len (kept ++ [closed]) <= HS.MAX_RECENTLY_CLOSED_EDITORS + 1) as Hlen1.
  { rewrite len_app. change (Js.len [closed]) with 1.
    pose proof (filter_length_le
      (fun e => negb (HS.matchesFile (IRecentlyClosedFile.resource e)
                        (Doc (Editor (HS.close_editor event)))))
      (HS.recentlyClosedFiles s)).
    fold kept in H. unfold Js.len in *. lia. }
  unfold closed_ok, HS.MAX_RECENTLY_CLOSED_EDITORS in *.
  destruct (Z.gtb_spec (Js.len (kept ++ [closed])) 20) as [Hbig|Hsmall];
    cbn [HS.state_of HS.raised HS.stack HS.index HS.history HS.recentlyClosedFiles
         HS.set_recentlyClosedFiles].
  - split; [reflexivity|]. split.
    { split.
      - destruct (kept ++ [closed]) as [|c t]; [constructor|].
        cbn [Js.shift tl]. cbn [map] in Hnd1. inversion Hnd1; assumption.
      - unfold Js.shift.
        destruct (kept ++ [closed]); unfold Js.len in *; cbn [tl List.length] in *; lia. }
    repeat split.
    + intros f Hp Hf. injection Hf as <-.
      destruct kept as [|c t].
      * unfold Js.len in Hbig. simpl in Hbig. lia.
      * cbn [app Js.shift tl]. apply popped_last.
    + intros [H|H]; discriminate.
  - split; [reflexivity|]. split; [split; [exact Hnd1|lia]|].
    repeat split.
    + intros f Hp Hf. injection Hf as <-. apply popped_last.
    + intros [H|H]; discriminate.
Qed.

Lemma reopenLoop_finds group before f after (n : nat) :
  (forall a, In a after -> HS.isFileOpened (IRecentlyClosedFile.resource a) group = true) ->
  HS.isFileOpened (IRecentlyClosedFile.resource f) group = false ->
  (List.length (before ++ f :: after) <= n)%nat ->
  HS.reopenLoop group n (HS.popped (before ++ f :: after)) (Js.pop (before ++ f :: after))
  = (Some f, before).
Proof.
  revert n. induction after as [|a after IH] using rev_ind; intros n Hopen Hf Hn.
  - rewrite popped_last. unfold Js.pop. rewrite removelast_last.
    destruct n; cbn [HS.reopenLoop]; rewrite Hf; reflexivity.
  - replace (before ++ f :: after ++ [a]) with ((before ++ f :: after) ++ [a]) in *
      by (rewrite <- app_assoc; reflexivity).
    rewrite popped_last. unfold Js.pop at 1. rewrite removelast_last.
    rewrite length_app in Hn. cbn [List.length] in Hn.
    destruct n as [|n]; [lia|]. cbn [HS.reopenLoop].
    rewrite (Hopen a) by (apply in_or_app; right; left; reflexivity).
    apply IH; [|exact Hf|lia].
    intros x Hx. apply Hopen. apply in_or_app. left. exact Hx.
Qed.

Lemma reopenLoop_exhausts group files (n : nat) :
  (forall a, In a files -> HS.isFileOpened (IRecentlyClosedFile.resource a) group = true) ->
  (List.length files <= n)%nat ->
  HS.reopenLoop group n (HS.popped files) (Js.pop files) = (None, []).
Proof.
  revert n. induction files as [|a files IH] using rev_ind; intros n Hopen Hn.
  - destruct n; reflexivity.
  - rewrite popped_last. unfold Js.pop at 1. rewrite removelast_last.
    rewrite length_app in Hn. cbn [List.length] in Hn.
    destruct n as [|n]; [lia|]. cbn [HS.reopenLoop].
    rewrite (Hopen a) by (apply in_or_app; right; left; reflexivity).
    apply IH; [|lia].
    intros x Hx. apply Hopen. apply in_or_app. left. exact Hx.
Qed.

(** X25.  Reopening takes the most recently closed file that is not open in
    the active group: the files closed after it, all open, are dropped
    from the list with it, and the files closed before it stay.  When
    every closed file is open, nothing is opened and the list is left
    empty. *)
Theorem reopen_skips_opened_files s s0 group :
  HS.ensureHistoryLoaded s = HS.Ok tt s0 ->
  (forall before f after,
     HS.recentlyClosedFiles s = before ++ f :: after ->
     (forall a, In a after ->
                HS.isFileOpened (IRecentlyClosedFile.resource a) group = true) ->
     HS.isFileOpened (IRecentlyClosedFile.resource f) group = false ->
     HS.reopenLastClosedEditor group s
     = HS.Ok (Some f) (HS.set_recentlyClosedFiles before s0)) /\
  ((forall a, In a (HS.recentlyClosedFiles s) ->
              HS.isFileOpened (IRecentlyClosedFile.resource a) group = true) ->
   HS.reopenLastClosedEditor group s
   = HS.Ok None (HS.set_recentlyClosedFiles [] s0)).
Proof.
  intros Hload.
  pose proof (ensureHistoryLoaded_frame _ _ Hload) as Hs0.
  assert (HS.recentlyClosedFiles s0 = HS.recentlyClosedFiles s) as Hcl
    by (rewrite Hs0; reflexivity).
  split.
  - intros before f after Hfiles Hopen Hf.
    unfold HS.reopenLastClosedEditor. unfold HS.bind at 1. rewrite Hload.
    unfold HS.bind, HS.this, HS.update, HS.ret. rewrite Hcl, Hfiles.
    rewrite (reopenLoop_finds group before f after _ Hopen Hf (Nat.le_refl _)).
    reflexivity.
  - intros Hopen.
    unfold HS.reopenLastClosedEditor. unfold HS.bind at 1. rewrite Hload.
    unfold HS.bind, HS.this, HS.update, HS.ret. rewrite Hcl.
    rewrite (reopenLoop_exhausts group _ _ Hopen (Nat.le_refl _)).
    reflexivity.
Qed.

End ClosedFilesFacts.

(** ** Recording editor events *)

Section RecordingFacts.
Context {host : Host}.
Implicit Types (s : HS.State) (input : EditorInput).

(** X12.  On a full stack with the cursor on the last entry, pushing drops
    the oldest entry and appends the new one; the cursor stays on
    position 19, now the new entry, and the previous cursor recorded is
    20, one past the end. *)
Theorem overflow_evicts_oldest s input selection now stamp oldest rest :
  HS.navigatingInStack s = false ->
  HS.stack s = oldest :: rest ->
  Js.len (HS.stack s) = HS.MAX_STACK_ITEMS ->
  HS.index s = HS.MAX_STACK_ITEMS - 1 ->
  HS.replaceDecision s input selection false now = false ->
  let s1 := HS.state_of (HS.add input selection now stamp s) in
  HS.stack s1 = rest ++ [HS.newEntry (HS.preferResourceInput input) selection stamp] /\
  Js.len (HS.stack s1) = HS.MAX_STACK_ITEMS /\
  HS.index s1 = HS.MAX_STACK_ITEMS - 1 /\
  HS.lastIndex s1 = HS.MAX_STACK_ITEMS.
Proof.
  intros Hnav Hstk Hlen Hidx Hd s1. subst s1. rewrite add_unfold, Hnav.
  unfold HS.MAX_STACK_ITEMS in *.
  assert (-1 <= HS.index s) as Hge by lia.
  pose proof (record_push s input selection false now stamp Hd Hge) as Hp.
  cbv zeta in Hp. destruct Hp as (_ & _ & Hp). unfold HS.MAX_STACK_ITEMS in Hp.
  assert (firstn (Z.to_nat (HS.index s + 1)) (HS.stack s) = HS.stack s) as Hall.
  { apply firstn_all2. unfold Js.len in Hlen. lia. }
  rewrite Hall in Hp.
  assert (Js.len (HS.stack s ++ [HS.newEntry (HS.preferResourceInput input) selection stamp])
          = 21) as Hl.
  { rewrite len_app, Hlen. reflexivity. }
  rewrite Hl in Hp. cbn [Z.gtb Z.compare Pos.compare Pos.compare_cont] in Hp.
  destruct Hp as (Hst & Hi & Hli). rewrite Hst, Hi, Hli, Hstk. cbn [app tl].
  split; [reflexivity|]. split; [|split; lia].
  rewrite Hstk in Hlen. rewrite len_app. unfold Js.len in *.
  cbn [List.length] in *. lia.
Qed.

Lemma firstn_prefix {A : Type} (n : nat) (l x : list A) :
  (n <= List.length l)%nat -> firstn n (firstn n l ++ x) = firstn n l.
Proof.
  intro H. rewrite firstn_app, length_firstn, firstn_firstn.
  replace (Nat.min n (List.length l)) with n by lia.
  rewrite Nat.min_id, Nat.sub_diag. cbn [firstn]. apply app_nil_r.
Qed.

(** X11.  A rapid burst of [add] calls for the document under the cursor,
    each less than 300ms after the entry before it, leaves a single
    entry for the whole burst, whatever the selections: the cursor does
    not move, the entries before it are untouched and the entry under
    it is the last of the burst. *)
Theorem rapid_burst_leaves_one_entry s input cur burst default :
  HS.stack_ok s ->
  HS.navigatingInStack s = false ->
  Js.get (HS.stack s) (HS.index s) = Some cur ->
  HS.matches (Doc (Editor input)) (IStackEntry.input cur) = true ->
  toResource input <> None \/ input_matches input input = true ->
  rapid (IStackEntry.timestamp cur) burst ->
  burst <> [] ->
  let s1 := HS.run (burst_ops input burst) s in
  HS.index s1 = HS.index s /\
  HS.stack s1
  = firstn (Z.to_nat (HS.index s)) (HS.stack s)
    ++ [HS.newEntry (HS.preferResourceInput input)
          (fst (fst (List.last burst default))) (snd (List.last burst default))].
Proof.
  intros Hok Hnav Hcur Hm Hself Hrapid Hne.
  revert s cur Hok Hnav Hcur Hm Hrapid.
  induction burst as [|c rest IH]; [congruence|].
  intros s cur Hok Hnav Hcur Hm [Hfast Hrapid] s1. subst s1.
  destruct c as [[sel now] stamp]. cbn [fst snd] in *.
  cbn [burst_ops map HS.run HS.call fst snd].
  rewrite add_unfold, Hnav.
  pose proof (get_Some_range _ _ _ Hcur) as Hr.
  assert (HS.replaceDecision s input sel false now = true) as Hd.
  { unfold HS.replaceDecision. rewrite Hcur, Hm.
    unfold HS.MERGE_EVENT_CHANGES_THRESHOLD.
    destruct (Z.ltb_spec (now - IStackEntry.timestamp cur) 300) as [_|Hge]; [|lia].
    rewrite orb_true_r. reflexivity. }
  destruct (record_replace s input sel false now stamp Hd)
    as (_ & Hst & Hi & _ & Hframe).
  set (s1 := HS.state_of (HS.addOrReplaceInStack input sel false now stamp s)) in *.
  set (e1 := HS.newEntry (HS.preferResourceInput input) sel stamp) in *.
  assert (Js.get (HS.stack s1) (HS.index s1) = Some e1) as Htop.
  { rewrite Hst, Hi. apply get_app_last. rewrite len_firstn by lia. lia. }
  destruct rest as [|c2 rest2].
  - cbn [burst_ops map HS.run List.last]. split; assumption.
  - assert (HS.stack_ok s1) as Hok1.
    { split.
      - apply cursor_ok_in_range. exact (get_Some_range _ _ _ Htop).
      - rewrite Hst, len_app, len_firstn by lia. change (Js.len [e1]) with 1.
        destruct Hok as [_ Hcap]. lia. }
    specialize (IH ltac:(discriminate) s1 e1 Hok1).
    destruct IH as [Hi2 Hst2].
    + rewrite (proj1 Hframe). exact Hnav.
    + exact Htop.
    + apply matches_stored_form. exact Hself.
    + exact Hrapid.
    + fold (burst_ops input (c2 :: rest2)).
      split; [rewrite Hi2; exact Hi|].
      rewrite Hst2, Hi, Hst.
      rewrite firstn_prefix by (unfold Js.len in Hr; lia).
      reflexivity.
Qed.

(** What a service keeps of the stack side while the recency history
    is updated. *)
Lemma activation_frame editor s :
  same_stack_side s (HS.state_of (HS.handleEditorEventInHistory editor s)).
Proof.
  assert (forall a b, history_only a b -> same_stack_side a b) as Hside.
  { intros a b (h & l & ->). repeat split. }
  assert (same_stack_side s s) as Hrefl by (repeat split).
  unfold HS.handleEditorEventInHistory.
  destruct (match editor with Some e => editor_input e | None => None end) as [input|];
    [|exact Hrefl].
  destruct (String.eqb (getName input) EmptyString || negb (HS.include (Editor input)));
    [exact Hrefl|].
  unfold HS.bind at 1.
  pose proof (ensureHistoryLoaded_history_only s) as H0. revert H0.
  destruct (HS.ensureHistoryLoaded s) as [[] s0|e s0]; cbn [HS.state_of]; intro H0;
    [|exact (Hside _ _ H0)].
  unfold HS.bind at 1.
  pose proof (removeFromHistory_history_only (Doc (Editor input)) s0) as H1. revert H1.
  destruct (HS.removeFromHistory (Doc (Editor input)) s0) as [[] s1|e s1];
    cbn [HS.state_of]; intro H1;
    [|exact (Hside _ _ (history_only_trans _ _ _ H0 H1))].
  pose proof (Hside _ _ (history_only_trans _ _ _ H0 H1)) as Hs1.
  unfold HS.bind, HS.this, HS.update, HS.ret, HS.throw.
  destruct (HS.history s1) as [h|]; [|exact Hs1].
  destruct (HS.preferResourceInput input); exact Hs1.
Qed.

(** X14.  A change of the active editor to a named text editor, outside of
    stack navigation and with a readable history, is recorded on both
    sides: the document goes to the front of the recency history and
    its entry under the cursor of the stack.  The history comes first:
    when the persisted history is unreadable the call raises there and
    the stack records nothing. *)
Theorem active_editor_change_records_both s s0 h input sel now stamp :
  HS.stack_ok s ->
  HS.navigatingInStack s = false ->
  getName input <> EmptyString ->
  (HS.ensureHistoryLoaded s = HS.Ok tt s0 ->
   HS.history s0 = Some h ->
   let o := HS.handleActiveEditorChange (Some (text_editor input sel)) now stamp s in
   HS.raised o = None /\
   (exists h1, HS.history (HS.state_of o) = Some h1 /\
               hd_error h1 = Some (HS.preferResourceInput input)) /\
   Js.get (HS.stack (HS.state_of o)) (HS.index (HS.state_of o))
   = Some (recorded_entry input sel stamp)) /\
  (forall e, HS.ensureHistoryLoaded s = HS.Throw e s ->
   HS.handleActiveEditorChange (Some (text_editor input sel)) now stamp s
   = HS.Throw e s).
Proof.
  intros Hok Hnav Hname. split.
  - intros Hload Hh o. subst o.
    destruct (activation_history s s0 h input (text_editor input sel) eq_refl Hname Hload Hh)
      as [Hr1 Hh1]. cbv zeta in Hh1.
    destruct (activation_frame (Some (text_editor input sel)) s)
      as (Hst & Hi & _ & Hn & _).
    revert Hr1 Hh1 Hst Hi Hn.
    destruct (HS.handleEditorEventInHistory (Some (text_editor input sel)) s)
      as [[] s1|e s1] eqn:E1; cbn [HS.state_of HS.raised]; intros Hr1 Hh1 Hst Hi Hn;
      [|discriminate].
    assert (HS.handleActiveEditorChange (Some (text_editor input sel)) now stamp s
            = HS.handleEditorSelectionChangeEvent (Some (text_editor input sel)) None
                now stamp s1) as Heq.
    { unfold HS.handleActiveEditorChange, HS.handleEditorSelectionChangeEvent.
      unfold HS.bind at 1. rewrite E1. reflexivity. }
    rewrite Heq.
    assert (HS.cursor_ok s1 /\ Js.len (HS.stack s1) <= HS.MAX_STACK_ITEMS) as [Hok1 Hcap1].
    { destruct Hok as [[Hrange Hempty] Hcap].
      split; [split|]; rewrite ?Hst, ?Hi; assumption. }
    assert (HS.navigatingInStack s1 = false) as Hnav1 by (rewrite Hn; exact Hnav).
    destruct (text_event s1 input sel None now stamp Hnav1 Hok1 Hcap1) as [Hr2 Hs2].
    cbv zeta in Hs2.
    split; [exact Hr2|]. rewrite Hs2.
    match type of Hs2 with
    | _ = HS.set_currentTextEditorState _
            (HS.state_of (HS.addOrReplaceInStack _ ?sl ?f _ _ _)) =>
        destruct (record_top s1 input sl f now stamp Hok1 Hcap1)
          as (_ & Hframe & Htop & _)
    end.
    split; [|exact Htop].
    cbn [HS.history HS.set_currentTextEditorState].
    destruct Hframe as (_ & _ & Hhist & _). rewrite Hhist.
    eexists. split; [exact Hh1|].
    set (h1 := HS.preferResourceInput input :: filter _ h).
    destruct (Z.gtb_spec (Js.len h1) HS.MAX_HISTORY_ITEMS) as [Hbig|_]; [|reflexivity].
    unfold h1 in *. destruct (filter _ h); [|reflexivity].
    unfold Js.len, HS.MAX_HISTORY_ITEMS in Hbig. simpl in Hbig. lia.
  - intros e Hthrow.
    unfold HS.handleActiveEditorChange, HS.handleEditorEventInHistory, text_editor.
    cbn [editor_input].
    destruct (String.eqb_spec (getName input) EmptyString) as [He|_]; [contradiction|].
    cbn [HS.include orb negb]. unfold HS.bind at 1 2. rewrite Hthrow. reflexivity.
Qed.

(** X13.  An editor that is not a text editor is pushed once: when the entry
    under the cursor already has its document the stack is left as it
    is, timestamp included, so the same activation a second time
    changes nothing at all. *)
Theorem plain_editor_is_pushed_once s input event now1 stamp1 now2 stamp2 :
  HS.stack_ok s ->
  HS.navigatingInStack s = false ->
  toResource input <> None \/ input_matches input input = true ->
  let s1 := HS.state_of (HS.handleEditorEventInStack (Some (plain_editor input))
                           event now1 stamp1 s) in
  let o2 := HS.handleEditorEventInStack (Some (plain_editor input)) event now2 stamp2 s1 in
  HS.currentTextEditorState s1 = None /\
  (exists top, Js.get (HS.stack s1) (HS.index s1) = Some top /\
               HS.matches (Doc (Editor input)) (IStackEntry.input top) = true) /\
  o2 = HS.Ok tt s1.
Proof.
  intros [Hok Hcap] Hnav Hself s1 o2.
  assert (forall now stamp t,
            HS.navigatingInStack t = false ->
            HS.handleEditorEventInStack (Some (plain_editor input)) event now stamp t
            = HS.handleNonTextEditorEvent input now stamp
                (HS.set_currentTextEditorState None t)) as Hplain.
  { intros now stamp t Ht.
    unfold HS.handleEditorEventInStack, plain_editor. cbn [editor_input codeEditor].
    unfold HS.bind at 1, HS.this at 1. rewrite Ht. reflexivity. }
  assert (forall now stamp t,
            HS.handleNonTextEditorEvent input now stamp t
            = match Js.get (HS.stack t) (HS.index t) with
              | Some c =>
                  if HS.matches (Doc (Editor input)) (IStackEntry.input c)
                  then HS.Ok tt t
                  else HS.add input None now stamp t
              | None => HS.add input None now stamp t
              end) as Hnontext.
  { intros now stamp t. unfold HS.handleNonTextEditorEvent.
    unfold HS.bind at 1, HS.this at 1.
    destruct (Js.get (HS.stack t) (HS.index t)) as [c|]; [|reflexivity].
    destruct (HS.matches _ _); reflexivity. }
  set (sa := HS.set_currentTextEditorState None s).
  assert (HS.currentTextEditorState s1 = None /\ HS.navigatingInStack s1 = false /\
          exists top, Js.get (HS.stack s1) (HS.index s1) = Some top /\
            HS.matches (Doc (Editor input)) (IStackEntry.input top) = true)
    as (Hcur1 & Hnav1 & top & Htop & Hm).
  { unfold s1. rewrite (Hplain now1 stamp1 s Hnav). fold sa.
    rewrite Hnontext.
    change (HS.stack sa) with (HS.stack s). change (HS.index sa) with (HS.index s).
    assert (forall t, HS.state_of (HS.add input None now1 stamp1 sa) = t ->
              HS.currentTextEditorState t = None /\ HS.navigatingInStack t = false /\
              exists top, Js.get (HS.stack t) (HS.index t) = Some top /\
                HS.matches (Doc (Editor input)) (IStackEntry.input top) = true) as Hadd.
    { intros t <-. rewrite add_unfold.
      change (HS.navigatingInStack sa) with (HS.navigatingInStack s). rewrite Hnav.
      destruct (record_top sa input None false now1 stamp1 Hok Hcap)
        as (_ & (Hn & Hc & _) & Ht & _).
      split; [rewrite Hc; reflexivity|]. split; [rewrite Hn; exact Hnav|].
      eexists. split; [exact Ht|].
      cbn [HS.newEntry IStackEntry.input]. apply matches_stored_form. exact Hself. }
    destruct (Js.get (HS.stack s) (HS.index s)) as [c|] eqn:Ec.
    - destruct (HS.matches (Doc (Editor input)) (IStackEntry.input c)) eqn:Emc.
      + cbn [HS.state_of HS.ret]. split; [reflexivity|]. split; [exact Hnav|].
        exists c. split; [exact Ec|exact Emc].
      + apply Hadd. reflexivity.
    - apply Hadd. reflexivity. }
  split; [exact Hcur1|]. split; [exists top; split; assumption|].
  unfold o2. rewrite (Hplain now2 stamp2 s1 Hnav1).
  assert (HS.set_currentTextEditorState None s1 = s1) as Heta
    by (destruct s1; cbn in *; subst; reflexivity).
  rewrite Heta, Hnontext, Htop, Hm. reflexivity.
Qed.

Lemma firstWorkspaceRoot_finds getRoot before r root after :
  getRoot r = Some root ->
  (forall r', In (Resource r') before -> getRoot r' = None) ->
  HS.firstWorkspaceRoot getRoot (before ++ Resource r :: after) = Some root.
Proof.
  intros Hr. induction before as [|[i|r0] before IH]; intros Hnone;
    cbn [app HS.firstWorkspaceRoot].
  - rewrite Hr. reflexivity.
  - apply IH. intros r' Hin. apply Hnone. right. exact Hin.
  - rewrite (Hnone r0) by (left; reflexivity).
    apply IH. intros r' Hin. apply Hnone. right. exact Hin.
Qed.

Lemma firstWorkspaceRoot_none getRoot (h : list DocRef) :
  (forall r, In (Resource r) h -> getRoot r = None) ->
  HS.firstWorkspaceRoot getRoot h = None.
Proof.
  induction h as [|[i|r0] h IH]; intros Hnone; cbn [HS.firstWorkspaceRoot].
  - reflexivity.
  - apply IH. intros r' Hin. apply Hnone. right. exact Hin.
  - rewrite (Hnone r0) by (left; reflexivity).
    apply IH. intros r' Hin. apply Hnone. right. exact Hin.
Qed.

(** X26.  The last active workspace root is the root of the most recently
    used file that lies in a root of the workspace, resolved inputs and
    files outside of every root being passed over; when the history
    has no such file it is the first root of the workspace.  Without a
    workspace the answer is [undefined] and the history is not even
    loaded. *)
Theorem last_active_workspace_root s s0 h getRoot roots :
  HS.ensureHistoryLoaded s = HS.Ok tt s0 ->
  HS.history s0 = Some h ->
  (forall before r root after,
     h = before ++ Resource r :: after ->
     getRoot r = Some root ->
     (forall r', In (Resource r') before -> getRoot r' = None) ->
     HS.getLastActiveWorkspaceRoot true getRoot roots s = HS.Ok (Some root) s0) /\
  ((forall r, In (Resource r) h -> getRoot r = None) ->
   HS.getLastActiveWorkspaceRoot true getRoot roots s = HS.Ok (Js.get roots 0) s0) /\
  HS.getLastActiveWorkspaceRoot false getRoot roots s = HS.Ok None s.
Proof.
  intros Hload Hh.
  assert (HS.getHistory s = HS.Ok h s0) as Hget.
  { unfold HS.getHistory. unfold HS.bind at 1. rewrite Hload.
    unfold HS.bind, HS.this, HS.ret. rewrite Hh. reflexivity. }
  split; [|split; [|reflexivity]].
  - intros before r root after -> Hr Hnone.
    unfold HS.getLastActiveWorkspaceRoot. cbn [negb]. unfold HS.bind. rewrite Hget.
    rewrite (firstWorkspaceRoot_finds getRoot before r root after Hr Hnone). reflexivity.
  - intros Hnone.
    unfold HS.getLastActiveWorkspaceRoot. cbn [negb]. unfold HS.bind. rewrite Hget.
    rewrite (firstWorkspaceRoot_none getRoot h Hnone). reflexivity.
Qed.

End RecordingFacts.

(** ** The reference host, and the properties at work on it *)

(** A closed equation is settled by evaluation: the two sides are
    compared on the virtual machine of the kernel. *)
Ltac evaluated :=
  lazymatch goal with
  | |- @eq ?T _ ?r => vm_cast_no_check (@eq_refl T r)
  | |- Z.lt _ _ => vm_cast_no_check (@eq_refl comparison Lt)
  end.

Section Examples.
#[local] Existing Instance Reference.host.

Lemma same_file_eq a b : Reference.same_file a b = true <-> a = b.
Proof.
  destruct a as [x|], b as [y|]; simpl; try rewrite String.eqb_eq;
    split; intro H; try congruence; try discriminate.
Qed.

Lemma same_input_eq a b : Reference.same_input a b = true <-> a = b.
Proof.
  unfold Reference.same_input. rewrite !andb_true_iff, Nat.eqb_eq, String.eqb_eq, same_file_eq.
  destruct a, b; simpl. split.
  - intros [[? ?] ?]. subst. reflexivity.
  - intro H. injection H as -> -> ->. auto.
Qed.

Lemma reference_identity_symmetric : identity_symmetric.
Proof.
  intros a b. simpl.
  destruct (Reference.same_input a b) eqn:E1, (Reference.same_input b a) eqn:E2;
    try reflexivity.
  - apply same_input_eq in E1. subst. rewrite (proj2 (same_input_eq b b) eq_refl) in E2.
    discriminate.
  - apply same_input_eq in E2. subst. rewrite (proj2 (same_input_eq a a) eq_refl) in E1.
    discriminate.
Qed.

Lemma reference_identity_transitive : identity_transitive.
Proof.
  intros a b c Hab Hbc. simpl in *.
  apply same_input_eq in Hab, Hbc. apply same_input_eq. congruence.
Qed.

Lemma reference_identity_respects_file : identity_respects_file.
Proof.
  intros a b Hab. simpl in *. apply same_input_eq in Hab. congruence.
Qed.

(** C1, on the code.  After twenty-one visits the stack is full, the
    cursor is on its last entry and the previous cursor recorded by the
    eviction is one past the end; [last()] then moves the cursor there,
    raises when it reads the entry, and leaves the cursor out of
    range. *)
Theorem last_after_eviction_breaks_cursor :
  HS.cursor_ok Scenario.full /\
  Js.len (HS.stack Scenario.full) = 20 /\
  HS.index Scenario.full = 19 /\
  HS.lastIndex Scenario.full = 20 /\
  HS.raised (HS.last Scenario.full) = Some Js.TypeError /\
  HS.index (HS.state_of (HS.last Scenario.full)) = 20 /\
  Js.len (HS.stack (HS.state_of (HS.last Scenario.full))) = 20 /\
  ~ HS.cursor_ok (HS.run (Scenario.visits 21 ++ [HS.OpLast]) (HS.init [])).
Proof.
  split.
  { apply cursor_ok_in_range. vm_compute. split; [discriminate|reflexivity]. }
  do 6 (split; [vm_compute; reflexivity|]).
  apply cursor_out_of_range. vm_compute. split; [reflexivity|discriminate].
Qed.

Lemma coalescing_rule_witness :
  Js.get (HS.stack Scenario.a_only) (HS.index Scenario.a_only) = Some Scenario.entry_a /\
  (HS.replaceDecision Scenario.a_only (Reference.untitled 0) None false 100 = true
   <-> coalesces Scenario.entry_a (Reference.untitled 0) None 100).
Proof.
  assert (Js.get (HS.stack Scenario.a_only) (HS.index Scenario.a_only)
          = Some Scenario.entry_a) as H by evaluated.
  split; [exact H|].
  exact (proj1 (coalescing_rule Scenario.a_only (Reference.untitled 0) None 100 100
                  Scenario.entry_a H)).
Defined.

(** The example of C3: from [[A; B; C]] with the cursor on [B], pushing
    [D] gives [[A; B; D]] with the cursor on [D]. *)
Lemma push_abandons_branch_witness :
  HS.navigatingInStack Scenario.abc_on_b = false /\
  -1 <= HS.index Scenario.abc_on_b /\
  HS.index Scenario.abc_on_b + 1 < Js.len (HS.stack Scenario.abc_on_b) /\
  Js.len (HS.stack Scenario.abc_on_b) <= HS.MAX_STACK_ITEMS /\
  HS.replaceDecision Scenario.abc_on_b (Reference.untitled 3) None false 5000 = false /\
  map IStackEntry.input (HS.stack Scenario.abc_on_b)
  = [Editor (Reference.untitled 0); Editor (Reference.untitled 1);
     Editor (Reference.untitled 2)] /\
  HS.index Scenario.abc_on_b = 1 /\
  map IStackEntry.input
      (HS.stack (HS.state_of (HS.add (Reference.untitled 3) None 5000 5000
                                Scenario.abc_on_b)))
  = [Editor (Reference.untitled 0); Editor (Reference.untitled 1);
     Editor (Reference.untitled 3)] /\
  HS.index (HS.state_of (HS.add (Reference.untitled 3) None 5000 5000 Scenario.abc_on_b))
  = 2.
Proof.
  assert (HS.navigatingInStack Scenario.abc_on_b = false) as H1
    by evaluated.
  assert (-1 <= HS.index Scenario.abc_on_b) as H2 by (vm_compute; discriminate).
  assert (HS.index Scenario.abc_on_b + 1 < Js.len (HS.stack Scenario.abc_on_b)) as H3
    by evaluated.
  assert (Js.len (HS.stack Scenario.abc_on_b) <= HS.MAX_STACK_ITEMS) as H4
    by (vm_compute; discriminate).
  assert (HS.replaceDecision Scenario.abc_on_b (Reference.untitled 3) None false 5000
          = false) as H5 by evaluated.
  destruct (push_abandons_branch Scenario.abc_on_b (Reference.untitled 3) None 5000 5000
              H1 H2 H3 H4 H5) as (Hst & Hi & _).
  repeat (split; [assumption|]).
  split; [evaluated|]. split; [evaluated|].
  split.
  - exact (eq_trans (f_equal (map IStackEntry.input) Hst) eq_refl).
  - exact (eq_trans Hi eq_refl).
Defined.

Lemma replace_discards_forward_history_witness :
  HS.replaceDecision Scenario.abc_on_b (Reference.untitled 1) None true 9000 = true /\
  HS.index Scenario.abc_on_b + 1 < Js.len (HS.stack Scenario.abc_on_b) /\
  Js.len (HS.stack (HS.state_of
            (HS.addOrReplaceInStack (Reference.untitled 1) None true 9000 9000
               Scenario.abc_on_b)))
  = HS.index Scenario.abc_on_b + 1.
Proof.
  assert (HS.replaceDecision Scenario.abc_on_b (Reference.untitled 1) None true 9000
          = true) as H1 by evaluated.
  assert (HS.index Scenario.abc_on_b + 1 < Js.len (HS.stack Scenario.abc_on_b)) as H2
    by evaluated.
  split; [exact H1|]. split; [exact H2|].
  exact (proj1 (proj2 (proj2
    (replace_discards_forward_history Scenario.abc_on_b (Reference.untitled 1) None true
       9000 9000 H1 H2)))).
Defined.

Lemma back_then_forward_witness :
  0 < HS.index Scenario.abc /\
  HS.index Scenario.abc < Js.len (HS.stack Scenario.abc) /\
  HS.index (HS.state_of (HS.forward false (HS.state_of (HS.back false Scenario.abc))))
  = HS.index Scenario.abc.
Proof.
  assert (0 < HS.index Scenario.abc) as H1 by evaluated.
  assert (HS.index Scenario.abc < Js.len (HS.stack Scenario.abc)) as H2
    by evaluated.
  split; [exact H1|]. split; [exact H2|].
  exact (proj1 (proj2 (proj2 (back_then_forward Scenario.abc H1 H2)))).
Defined.

Lemma save_load_roundtrip_witness :
  let s := Scenario.with_history Scenario.mixed_history in
  HS.history s = Some Scenario.mixed_history /\
  JSON_parse (JSON_stringify (Js.JArr (HS.serialize Scenario.mixed_history)))
  = Some (Js.JArr (HS.serialize Scenario.mixed_history)) /\
  JSON_stringify (Js.JArr (HS.serialize Scenario.mixed_history)) <> EmptyString /\
  HS.history (HS.state_of (HS.loadHistory (Scenario.next_session s)))
  = Some [Resource "file:///a.ts"%string; Resource "file:///b.ts"%string].
Proof.
  intro s.
  assert (HS.history s = Some Scenario.mixed_history) as H1 by reflexivity.
  assert (HS.storage (Scenario.next_session s) = HS.storage (HS.state_of (HS.save s)))
    as H2 by reflexivity.
  assert (JSON_parse (JSON_stringify (Js.JArr (HS.serialize Scenario.mixed_history)))
          = Some (Js.JArr (HS.serialize Scenario.mixed_history))) as H3
    by evaluated.
  assert (JSON_stringify (Js.JArr (HS.serialize Scenario.mixed_history)) <> EmptyString)
    as H4 by (vm_compute; discriminate).
  assert (forall r, In (Resource r) Scenario.mixed_history ->
                    URI_revive (Js.JObj (URI_toJSON r)) = r) as H5
    by (intros r _; reflexivity).
  split; [exact H1|]. split; [exact H3|]. split; [exact H4|].
  exact (proj1 (proj2 (save_load_roundtrip s (Scenario.next_session s)
                         Scenario.mixed_history H1 H2 H3 H4 H5))).
Defined.

Lemma malformed_history_raises_witness :
  HS.loaded Scenario.broken = false /\
  HS.storage_get HS.STORAGE_KEY (HS.storage Scenario.broken) = Some "{"%string /\
  JSON_parse "{" = None /\
  HS.getHistory Scenario.broken = HS.Throw Js.SyntaxError Scenario.broken.
Proof.
  assert (HS.loaded Scenario.broken = false) as H1 by reflexivity.
  assert (HS.storage_get HS.STORAGE_KEY (HS.storage Scenario.broken) = Some "{"%string)
    as H2 by reflexivity.
  assert (JSON_parse "{" = None) as H3 by reflexivity.
  split; [exact H1|]. split; [exact H2|]. split; [exact H3|].
  apply (proj1 (malformed_history_raises Scenario.broken "{" H1 H2 H3)).
  discriminate.
Defined.

(** C8 against the code: the stored string [{] is not JSON, and the
    lazy load raises instead of giving the empty history. *)
Lemma malformed_history_counterexample :
  JSON_parse "{" = None /\
  HS.raised (HS.ensureHistoryLoaded Scenario.broken) = Some Js.SyntaxError /\
  HS.raised (HS.getHistory Scenario.broken) = Some Js.SyntaxError /\
  (forall s', HS.getHistory Scenario.broken <> HS.Ok [] s').
Proof.
  split; [reflexivity|]. split; [reflexivity|]. split; [reflexivity|].
  intros s' H.
  assert (HS.getHistory Scenario.broken = HS.Throw Js.SyntaxError Scenario.broken) as E
    by evaluated.
  rewrite E in H. discriminate.
Qed.

Lemma stranger_absent : absent Scenario.stranger Scenario.abc_on_b [].
Proof.
  assert (HS.stack Scenario.abc_on_b
          = [HS.newEntry (Editor (Reference.untitled 0)) None 0;
             HS.newEntry (Editor (Reference.untitled 1)) None 1000;
             HS.newEntry (Editor (Reference.untitled 2)) None 2000]) as Hs by evaluated.
  assert (HS.recentlyClosedFiles Scenario.abc_on_b = []) as Hf by evaluated.
  split; [|split].
  - intros e He. rewrite Hs in He.
    destruct He as [<-|[<-|[<-|[]]]]; reflexivity.
  - intros d [].
  - intros c Hc. rewrite Hf in Hc. contradiction.
Defined.

Lemma remove_absent_resets_cursor_witness :
  HS.ensureHistoryLoaded Scenario.abc_on_b = HS.Ok tt Scenario.abc_on_b /\
  HS.history Scenario.abc_on_b = Some [] /\
  absent Scenario.stranger Scenario.abc_on_b [] /\
  HS.stack (HS.state_of (HS.remove Scenario.stranger Scenario.abc_on_b))
  = HS.stack Scenario.abc_on_b /\
  HS.lastIndex (HS.state_of (HS.remove Scenario.stranger Scenario.abc_on_b)) = -1.
Proof.
  assert (HS.ensureHistoryLoaded Scenario.abc_on_b = HS.Ok tt Scenario.abc_on_b) as H1
    by (apply ensureHistoryLoaded_loaded; evaluated).
  assert (HS.history Scenario.abc_on_b = Some []) as H2 by evaluated.
  pose proof (remove_absent_resets_cursor Scenario.abc_on_b Scenario.abc_on_b []
                Scenario.stranger H1 H2 stranger_absent) as W.
  split; [exact H1|]. split; [exact H2|]. split; [exact stranger_absent|].
  split; [exact (proj1 (proj2 W))|].
  exact (proj1 (proj2 (proj2 (proj2 (proj2 (proj2 W)))))).
Defined.

(** C5 against the code: with the cursor back on [B] in [[A; B; C]],
    removing a document that was never visited moves the cursor to [C]
    and forgets the previous cursor. *)
Lemma remove_absent_counterexample :
  absent Scenario.stranger Scenario.abc_on_b [] /\
  HS.history Scenario.abc_on_b = Some [] /\
  HS.index Scenario.abc_on_b = 1 /\ HS.lastIndex Scenario.abc_on_b = 2 /\
  HS.index (HS.state_of (HS.remove Scenario.stranger Scenario.abc_on_b)) = 2 /\
  HS.lastIndex (HS.state_of (HS.remove Scenario.stranger Scenario.abc_on_b)) = -1 /\
  HS.state_of (HS.remove Scenario.stranger Scenario.abc_on_b) <> Scenario.abc_on_b.
Proof.
  split; [exact stranger_absent|].
  do 5 (split; [evaluated|]).
  intro H. apply (f_equal HS.index) in H. vm_compute in H. discriminate.
Qed.

Lemma mixed_history_ok : recency_ok Scenario.mixed_history.
Proof.
  split; [|split].
  - unfold distinct_identities, Scenario.mixed_history.
    repeat (constructor; try (split; reflexivity)).
  - vm_compute. discriminate.
  - intros i Hi. unfold Scenario.mixed_history in Hi. cbn [In] in Hi.
    destruct Hi as [Hi|[Hi|[Hi|[]]]]; try discriminate.
    injection Hi as <-. reflexivity.
Defined.

(** Activating the file of the last descriptor of the history moves
    that descriptor to the front. *)
Lemma activation_keeps_recency_witness :
  let s := Scenario.with_history Scenario.mixed_history in
  identity_symmetric /\ identity_transitive /\ identity_respects_file /\
  getName (Reference.file_input 5 "file:///b.ts"%string) <> EmptyString /\
  HS.ensureHistoryLoaded s = HS.Ok tt s /\
  recency_ok Scenario.mixed_history /\
  exists h',
    HS.history (HS.state_of (HS.handleEditorEventInHistory (Some Scenario.editor_b) s))
    = Some h' /\
    recency_ok h' /\
    hd_error h' = Some (Resource "file:///b.ts"%string).
Proof.
  intro s.
  assert (getName (Reference.file_input 5 "file:///b.ts"%string) <> EmptyString) as H1
    by discriminate.
  assert (HS.ensureHistoryLoaded s = HS.Ok tt s) as H2 by reflexivity.
  assert (HS.history s = Some Scenario.mixed_history) as H3 by reflexivity.
  destruct (activation_keeps_recency
              reference_identity_symmetric reference_identity_transitive
              reference_identity_respects_file
              s s Scenario.mixed_history (Reference.file_input 5 "file:///b.ts"%string)
              Scenario.editor_b eq_refl H1 H2 H3 mixed_history_ok)
    as (h' & _ & Hh & Hok & Hhd & _).
  split; [exact reference_identity_symmetric|].
  split; [exact reference_identity_transitive|].
  split; [exact reference_identity_respects_file|].
  split; [exact H1|]. split; [exact H2|]. split; [exact mixed_history_ok|].
  exists h'. split; [exact Hh|]. split; [exact Hok|exact Hhd].
Defined.

(** C9 against the code: a persisted history is loaded as it was
    stored.  On a storage that names [a.ts] twice, the activation of
    [b.ts] leaves both entries of [a.ts] in the history, two entries of
    one identity; on a storage that names 201 files, it leaves 201
    entries, more than the limit. *)
Lemma activation_keeps_recency_counterexample :
  let a := Resource "file:///a.ts"%string in
  let b := Resource "file:///b.ts"%string in
  let activate := HS.handleEditorEventInHistory (Some Scenario.editor_b) in
  HS.raised (activate Scenario.doubled) = None /\
  HS.history (HS.state_of (activate Scenario.doubled)) = Some [b; a; a] /\
  HS.matches (Doc a) a = true /\
  ~ distinct_identities [b; a; a] /\
  HS.raised (activate Scenario.crowded) = None /\
  option_map Js.len (HS.history (HS.state_of (activate Scenario.crowded))) = Some 201 /\
  HS.MAX_HISTORY_ITEMS < 201.
Proof.
  intros a b activate.
  split; [evaluated|]. split; [evaluated|]. split; [reflexivity|].
  split; [|split; [evaluated|split; [evaluated|reflexivity]]].
  intro H. inversion H as [|x l _ Hrest]; subst.
  inversion Hrest as [|y l' Hfirst _]; subst.
  inversion Hfirst as [|z l'' [Hm _] _]; subst.
  discriminate Hm.
Qed.

Lemma fresh_ok : HS.cursor_ok Scenario.fresh.
Proof.
  split; [intro H; exfalso; apply H; reflexivity|].
  split; intros _; reflexivity.
Defined.

(** Line 100 and then, two seconds later, line 130 of the same
    document: two entries. *)
Lemma selection_changes_merge_or_push_witness :
  HS.cursor_ok Scenario.fresh /\
  Js.len (HS.stack Scenario.fresh) <= HS.MAX_STACK_ITEMS /\
  HS.navigatingInStack Scenario.fresh = false /\
  input_matches Scenario.D Scenario.D = true /\
  Selection.normalized (Scenario.at_line 100) /\
  Selection.normalized (Scenario.at_line 130) /\
  10 <= Z.abs (selection_line (Scenario.at_line 100)
               - selection_line (Scenario.at_line 130)) /\
  300 <= 3000 - 1000 /\
  Js.len (HS.stack (Scenario.select 130 3000 (Scenario.select 100 1000 Scenario.fresh)))
  = Z.min HS.MAX_STACK_ITEMS
      (Js.len (HS.stack (Scenario.select 100 1000 Scenario.fresh)) + 1).
Proof.
  assert (Js.len (HS.stack Scenario.fresh) <= HS.MAX_STACK_ITEMS) as H1
    by (vm_compute; discriminate).
  assert (HS.navigatingInStack Scenario.fresh = false) as H2 by reflexivity.
  assert (input_matches Scenario.D Scenario.D = true) as H3 by reflexivity.
  assert (Selection.normalized (Scenario.at_line 100)) as H4 by reflexivity.
  assert (Selection.normalized (Scenario.at_line 130)) as H5 by reflexivity.
  assert (10 <= Z.abs (selection_line (Scenario.at_line 100)
                       - selection_line (Scenario.at_line 130))) as H6
    by (vm_compute; discriminate).
  assert (300 <= 3000 - 1000) as H7 by (vm_compute; discriminate).
  split; [exact fresh_ok|]. split; [exact H1|]. split; [exact H2|].
  split; [exact H3|]. split; [exact H4|]. split; [exact H5|].
  split; [exact H6|]. split; [exact H7|].
  exact (proj1 (proj2 (proj2 (proj2 (proj2 (proj2
    (selection_changes_merge_or_push Scenario.fresh Scenario.D Scenario.D
       (Scenario.at_line 100) (Scenario.at_line 130) None None 1000 1000 3000 3000
       fresh_ok H1 H2 eq_refl H3 H4 H5)))))) H6 H7).
Defined.

(** C4 against the code: line 100 and then, a tenth of a second later,
    line 130 of the same document, thirty lines apart and neither from
    the API, leave one entry, not two. *)
Lemma selection_changes_counterexample :
  let s1 := Scenario.select 100 1000 Scenario.fresh in
  let s2 := Scenario.select 130 1100 s1 in
  10 <= Z.abs (selection_line (Scenario.at_line 100)
               - selection_line (Scenario.at_line 130)) /\
  Js.len (HS.stack s1) = 1 /\
  Js.len (HS.stack s2) = 1 /\
  Js.len (HS.stack s2) <> Js.len (HS.stack s1) + 1.
Proof.
  intros s1 s2.
  split; [vm_compute; discriminate|].
  split; [evaluated|].
  split; [evaluated|].
  vm_compute. discriminate.
Qed.

End Examples.

(** ** More of the service at work on the reference host *)

Section Walkthrough.
#[local] Existing Instance Reference.host.

Ltac computed := vm_compute; repeat split; solve [reflexivity | discriminate].

Lemma stack_ok_in_range (s : HS.State) :
  0 <= HS.index s < Js.len (HS.stack s) /\ Js.len (HS.stack s) <= HS.MAX_STACK_ITEMS ->
  HS.stack_ok s.
Proof. intros [Hr Hcap]. split; [apply cursor_ok_in_range; exact Hr|exact Hcap]. Defined.

Lemma abc_ok : HS.stack_ok Scenario.abc.
Proof. apply stack_ok_in_range. computed. Defined.

Lemma abc_on_b_ok : HS.stack_ok Scenario.abc_on_b.
Proof. apply stack_ok_in_range. computed. Defined.

Lemma abb_ok : HS.stack_ok Scenario.abb.
Proof. apply stack_ok_in_range. computed. Defined.

Lemma abb_on_a_ok : HS.stack_ok Scenario.abb_on_a.
Proof. apply stack_ok_in_range. computed. Defined.

Lemma a_only_ok : HS.stack_ok Scenario.a_only.
Proof. apply stack_ok_in_range. computed. Defined.

Lemma fresh_stack_ok : HS.stack_ok Scenario.fresh.
Proof. split; [exact fresh_ok|]. computed. Defined.

Lemma tour_has_no_last : ~ In HS.OpLast Scenario.tour.
Proof.
  unfold Scenario.tour, Scenario.visits. cbn [seq map app In].
  intro H. repeat (destruct H as [H|H]; [discriminate|]). exact H.
Defined.

Lemma run_keeps_stack_ok_witness :
  ~ In HS.OpLast Scenario.tour /\
  HS.stack_ok (HS.init []) /\
  HS.stack_ok (HS.run Scenario.tour (HS.init [])).
Proof.
  split; [exact tour_has_no_last|]. split; [apply init_stack_ok|].
  exact (run_keeps_stack_ok Scenario.tour (HS.init []) tour_has_no_last (init_stack_ok [])).
Defined.

Lemma last_keeps_stack_ok_witness :
  HS.stack_ok Scenario.abc_on_b /\
  (HS.lastIndex Scenario.abc_on_b = -1 \/
   0 <= HS.lastIndex Scenario.abc_on_b < Js.len (HS.stack Scenario.abc_on_b)) /\
  HS.stack_ok (HS.state_of (HS.last Scenario.abc_on_b)).
Proof.
  assert (HS.lastIndex Scenario.abc_on_b = -1 \/
          0 <= HS.lastIndex Scenario.abc_on_b < Js.len (HS.stack Scenario.abc_on_b)) as H
    by (right; computed).
  split; [exact abc_on_b_ok|]. split; [exact H|].
  exact (last_keeps_stack_ok Scenario.abc_on_b abc_on_b_ok H).
Defined.

Lemma step_in_editors_witness :
  HS.stack_ok Scenario.abc_on_b /\
  HS.raised (HS.back false Scenario.abc_on_b) = None /\
  HS.raised (HS.forward false Scenario.abc_on_b) = None.
Proof.
  pose proof (step_in_editors Scenario.abc_on_b abc_on_b_ok) as W.
  split; [exact abc_on_b_ok|]. split; [exact (proj1 W)|exact (proj1 (proj2 W))].
Defined.

Lemma back_across_editors_skips_run_witness :
  HS.stack_ok Scenario.abb /\
  Js.get (HS.stack Scenario.abb) (HS.index Scenario.abb) = Some Scenario.entry_b50 /\
  HS.raised (HS.back true Scenario.abb) = None /\
  HS.index (HS.state_of (HS.back true Scenario.abb)) = 0.
Proof.
  assert (Js.get (HS.stack Scenario.abb) (HS.index Scenario.abb)
          = Some Scenario.entry_b50) as H by evaluated.
  split; [exact abb_ok|]. split; [exact H|].
  split; [|evaluated].
  exact (proj1 (back_across_editors_skips_run Scenario.abb Scenario.entry_b50 abb_ok H)).
Defined.

Lemma forward_across_editors_skips_run_witness :
  HS.stack_ok Scenario.abb_on_a /\
  Js.get (HS.stack Scenario.abb_on_a) (HS.index Scenario.abb_on_a)
  = Some Scenario.entry_a /\
  HS.raised (HS.forward true Scenario.abb_on_a) = None /\
  HS.index (HS.state_of (HS.forward true Scenario.abb_on_a)) = 1.
Proof.
  assert (Js.get (HS.stack Scenario.abb_on_a) (HS.index Scenario.abb_on_a)
          = Some Scenario.entry_a) as H by evaluated.
  split; [exact abb_on_a_ok|]. split; [exact H|].
  split; [|evaluated].
  exact (proj1 (forward_across_editors_skips_run Scenario.abb_on_a Scenario.entry_a
                  abb_on_a_ok H)).
Defined.

Lemma last_undoes_a_step_witness :
  HS.stack_ok Scenario.abc /\ 0 < HS.index Scenario.abc /\
  HS.index (HS.state_of (HS.last (HS.state_of (HS.back false Scenario.abc))))
  = HS.index Scenario.abc.
Proof.
  assert (0 < HS.index Scenario.abc) as H by computed.
  split; [exact abc_ok|]. split; [exact H|].
  exact (proj1 (proj2 (proj1 (last_undoes_a_step Scenario.abc abc_ok) H))).
Defined.

Lemma navigation_suspends_recording_witness :
  HS.stack_ok Scenario.abc /\ 0 < HS.index Scenario.abc /\
  HS.navigatingInStack (HS.state_of (HS.back false Scenario.abc)) = true.
Proof.
  assert (0 < HS.index Scenario.abc) as H by computed.
  split; [exact abc_ok|]. split; [exact H|].
  exact (proj1 (navigation_suspends_recording Scenario.abc Scenario.D
                  (Scenario.at_line 5) None 7000 7000 false abc_ok H)).
Defined.

Lemma recording_ends_forward_history_witness :
  HS.stack_ok Scenario.abc_on_b /\
  HS.navigatingInStack Scenario.abc_on_b = false /\
  HS.forward true (HS.state_of (HS.add Scenario.D None 7000 7000 Scenario.abc_on_b))
  = HS.Ok tt (HS.state_of (HS.add Scenario.D None 7000 7000 Scenario.abc_on_b)).
Proof.
  assert (HS.navigatingInStack Scenario.abc_on_b = false) as H by evaluated.
  split; [exact abc_on_b_ok|]. split; [exact H|].
  exact (proj1 (recording_ends_forward_history Scenario.abc_on_b Scenario.D None 7000 7000
                  true abc_on_b_ok H)).
Defined.

Lemma repeated_add_coalesces_witness :
  HS.stack_ok Scenario.fresh /\
  HS.navigatingInStack Scenario.fresh = false /\
  (toResource Scenario.D <> None \/ input_matches Scenario.D Scenario.D = true) /\
  Js.len (HS.stack (HS.state_of (HS.add Scenario.D (Scenario.line 3) 9000 9000
            (HS.state_of (HS.add Scenario.D (Scenario.line 3) 1000 1000 Scenario.fresh)))))
  = Js.len (HS.stack (HS.state_of
              (HS.add Scenario.D (Scenario.line 3) 1000 1000 Scenario.fresh))).
Proof.
  assert (HS.navigatingInStack Scenario.fresh = false) as H1 by reflexivity.
  assert (toResource Scenario.D <> None \/ input_matches Scenario.D Scenario.D = true)
    as H2 by (left; discriminate).
  split; [exact fresh_stack_ok|]. split; [exact H1|]. split; [exact H2|].
  exact (proj1 (repeated_add_coalesces Scenario.fresh Scenario.D (Scenario.line 3)
                  1000 1000 9000 9000 fresh_stack_ok H1 H2)).
Defined.

Lemma rapid_burst_leaves_one_entry_witness :
  HS.stack_ok Scenario.a_only /\
  Js.get (HS.stack Scenario.a_only) (HS.index Scenario.a_only) = Some Scenario.entry_a /\
  rapid (IStackEntry.timestamp Scenario.entry_a) Scenario.quick /\
  HS.index (HS.run (burst_ops (Reference.untitled 0) Scenario.quick) Scenario.a_only)
  = HS.index Scenario.a_only.
Proof.
  assert (HS.navigatingInStack Scenario.a_only = false) as H1 by evaluated.
  assert (Js.get (HS.stack Scenario.a_only) (HS.index Scenario.a_only)
          = Some Scenario.entry_a) as H2 by evaluated.
  assert (HS.matches (Doc (Editor (Reference.untitled 0)))
            (IStackEntry.input Scenario.entry_a) = true) as H3 by reflexivity.
  assert (toResource (Reference.untitled 0) <> None \/
          input_matches (Reference.untitled 0) (Reference.untitled 0) = true) as H4
    by (right; reflexivity).
  assert (rapid (IStackEntry.timestamp Scenario.entry_a) Scenario.quick) as H5
    by computed.
  assert (Scenario.quick <> []) as H6 by discriminate.
  split; [exact a_only_ok|]. split; [exact H2|]. split; [exact H5|].
  exact (proj1 (rapid_burst_leaves_one_entry Scenario.a_only (Reference.untitled 0)
                  Scenario.entry_a Scenario.quick (None, 0, 0)
                  a_only_ok H1 H2 H3 H4 H5 H6)).
Defined.

Lemma overflow_evicts_oldest_witness :
  HS.navigatingInStack Scenario.full = false /\
  Js.len (HS.stack Scenario.full) = HS.MAX_STACK_ITEMS /\
  HS.index Scenario.full = HS.MAX_STACK_ITEMS - 1 /\
  HS.replaceDecision Scenario.full (Reference.untitled 21) None false 50000 = false /\
  HS.lastIndex (HS.state_of (HS.add (Reference.untitled 21) None 50000 50000 Scenario.full))
  = HS.MAX_STACK_ITEMS.
Proof.
  assert (HS.navigatingInStack Scenario.full = false) as H1 by evaluated.
  assert (Js.len (HS.stack Scenario.full) = HS.MAX_STACK_ITEMS) as H3
    by evaluated.
  assert (HS.stack Scenario.full
          = hd Scenario.entry_a (HS.stack Scenario.full) :: tl (HS.stack Scenario.full))
    as H2.
  { revert H3. destruct (HS.stack Scenario.full); [discriminate|reflexivity]. }
  assert (HS.index Scenario.full = HS.MAX_STACK_ITEMS - 1) as H4
    by evaluated.
  assert (HS.replaceDecision Scenario.full (Reference.untitled 21) None false 50000
          = false) as H5 by evaluated.
  split; [exact H1|]. split; [exact H3|]. split; [exact H4|]. split; [exact H5|].
  exact (proj2 (proj2 (proj2
    (overflow_evicts_oldest Scenario.full (Reference.untitled 21) None 50000 50000
       _ _ H1 H2 H3 H4 H5)))).
Defined.

Lemma plain_editor_is_pushed_once_witness :
  HS.stack_ok Scenario.fresh /\
  HS.currentTextEditorState
    (HS.state_of (HS.handleEditorEventInStack (Some (plain_editor (Reference.untitled 4)))
                    None 1000 1000 Scenario.fresh)) = None.
Proof.
  assert (HS.navigatingInStack Scenario.fresh = false) as H1 by reflexivity.
  assert (toResource (Reference.untitled 4) <> None \/
          input_matches (Reference.untitled 4) (Reference.untitled 4) = true) as H2
    by (right; reflexivity).
  split; [exact fresh_stack_ok|].
  exact (proj1 (plain_editor_is_pushed_once Scenario.fresh (Reference.untitled 4) None
                  1000 1000 2000 2000 fresh_stack_ok H1 H2)).
Defined.

Lemma active_editor_change_records_both_witness :
  HS.stack_ok Scenario.fresh /\
  getName Scenario.D <> EmptyString /\
  HS.ensureHistoryLoaded Scenario.fresh = HS.Ok tt Scenario.fresh /\
  HS.raised (HS.handleActiveEditorChange
               (Some (text_editor Scenario.D (Scenario.at_line 1))) 1000 1000
               Scenario.fresh) = None.
Proof.
  assert (HS.navigatingInStack Scenario.fresh = false) as H1 by reflexivity.
  assert (getName Scenario.D <> EmptyString) as H2 by discriminate.
  assert (HS.ensureHistoryLoaded Scenario.fresh = HS.Ok tt Scenario.fresh) as H3
    by reflexivity.
  assert (HS.history Scenario.fresh = Some []) as H4 by reflexivity.
  split; [exact fresh_stack_ok|]. split; [exact H2|]. split; [exact H3|].
  exact (proj1 (proj1 (active_editor_change_records_both Scenario.fresh Scenario.fresh []
                         Scenario.D (Scenario.at_line 1) 1000 1000
                         fresh_stack_ok H1 H2) H3 H4)).
Defined.

Lemma remove_leaves_nothing_matching_witness :
  HS.ensureHistoryLoaded Scenario.abc_on_b = HS.Ok tt Scenario.abc_on_b /\
  HS.history Scenario.abc_on_b = Some [] /\
  HS.raised (HS.remove (Doc (Editor (Reference.untitled 1))) Scenario.abc_on_b) = None /\
  Scenario.summary (HS.state_of (HS.remove (Doc (Editor (Reference.untitled 1)))
                                   Scenario.abc_on_b))
  = ([Editor (Reference.untitled 0); Editor (Reference.untitled 2)], 1, -1).
Proof.
  assert (HS.ensureHistoryLoaded Scenario.abc_on_b = HS.Ok tt Scenario.abc_on_b) as H1
    by (apply ensureHistoryLoaded_loaded; evaluated).
  assert (HS.history Scenario.abc_on_b = Some []) as H2 by evaluated.
  split; [exact H1|]. split; [exact H2|]. split; [|evaluated].
  exact (proj1 (remove_leaves_nothing_matching Scenario.abc_on_b Scenario.abc_on_b []
                  (Doc (Editor (Reference.untitled 1))) H1 H2)).
Defined.

Lemma unreadable_history_blocks_witness :
  HS.loaded Scenario.broken = false /\
  HS.storage_get HS.STORAGE_KEY (HS.storage Scenario.broken) = Some "{"%string /\
  JSON_parse "{" = None /\
  HS.clear Scenario.broken = HS.Throw Js.SyntaxError Scenario.broken.
Proof.
  assert (HS.loaded Scenario.broken = false) as H1 by reflexivity.
  assert (HS.storage_get HS.STORAGE_KEY (HS.storage Scenario.broken) = Some "{"%string)
    as H2 by reflexivity.
  assert ("{"%string <> EmptyString) as H3 by discriminate.
  assert (JSON_parse "{" = None) as H4 by reflexivity.
  assert (getName (Reference.file_input 5 "file:///b.ts"%string) <> EmptyString) as H5
    by discriminate.
  split; [exact H1|]. split; [exact H2|]. split; [exact H4|].
  exact (proj1 (unreadable_history_blocks Scenario.broken "{" Scenario.stranger
                  Scenario.editor_b (Reference.file_input 5 "file:///b.ts"%string) None
                  H1 H2 H3 H4 eq_refl H5)).
Defined.

Lemma clear_resets_witness :
  HS.ensureHistoryLoaded Scenario.abc = HS.Ok tt Scenario.abc /\
  HS.stack Scenario.abc <> [] /\
  HS.stack (HS.state_of (HS.clear Scenario.abc)) = [].
Proof.
  assert (HS.ensureHistoryLoaded Scenario.abc = HS.Ok tt Scenario.abc) as H1
    by (apply ensureHistoryLoaded_loaded; evaluated).
  assert (Js.len (HS.stack Scenario.abc) = 3) as H2 by evaluated.
  split; [exact H1|]. split; [intro H; rewrite H in H2; discriminate|].
  exact (proj1 (proj2 (clear_resets Scenario.abc Scenario.abc H1))).
Defined.

Lemma loaded_history_is_descriptors_only_witness :
  let s := Scenario.next_session (Scenario.with_history Scenario.mixed_history) in
  HS.loadHistory s = HS.Ok tt (HS.state_of (HS.loadHistory s)) /\
  exists h, HS.history (HS.state_of (HS.loadHistory s)) = Some h /\ descriptors_only h.
Proof.
  intro s.
  assert (HS.loadHistory s = HS.Ok tt (HS.state_of (HS.loadHistory s))) as H1
    by (apply returns_unless_raised; evaluated).
  split; [exact H1|].
  destruct (loaded_history_is_descriptors_only s _ H1) as (h & Hh & Hd & _).
  exists h. split; [exact Hh|exact Hd].
Defined.

Lemma history_load_is_memoized_witness :
  HS.ensureHistoryLoaded Scenario.abc = HS.Ok tt Scenario.abc /\
  HS.history Scenario.abc = Some [] /\
  HS.getHistory (HS.set_storage (HS.storage Scenario.broken) Scenario.abc)
  = HS.Ok [] (HS.set_storage (HS.storage Scenario.broken) Scenario.abc).
Proof.
  assert (HS.ensureHistoryLoaded Scenario.abc = HS.Ok tt Scenario.abc) as H1
    by (apply ensureHistoryLoaded_loaded; evaluated).
  assert (HS.history Scenario.abc = Some []) as H2 by evaluated.
  split; [exact H1|]. split; [exact H2|].
  exact (history_load_is_memoized Scenario.abc Scenario.abc []
           (HS.storage Scenario.broken) H1 H2).
Defined.

Lemma ill_formed_history_raises_witness :
  HS.loaded Scenario.nulled = false /\
  HS.storage_get HS.STORAGE_KEY (HS.storage Scenario.nulled) = Some "[null]"%string /\
  JSON_parse "[null]" = Some (Js.JArr [Js.JNull]) /\
  HS.getHistory Scenario.nulled = HS.Throw Js.TypeError Scenario.nulled.
Proof.
  assert (HS.loaded Scenario.nulled = false) as H1 by reflexivity.
  assert (HS.storage_get HS.STORAGE_KEY (HS.storage Scenario.nulled)
          = Some "[null]"%string) as H2 by reflexivity.
  assert ("[null]"%string <> EmptyString) as H3 by discriminate.
  assert (JSON_parse "[null]" = Some (Js.JArr [Js.JNull])) as H4
    by evaluated.
  assert (forall entries, Js.JArr [Js.JNull] = Js.JArr entries -> In Js.JNull entries)
    as H5 by (intros entries H; injection H as <-; left; reflexivity).
  split; [exact H1|]. split; [exact H2|]. split; [exact H4|].
  exact (ill_formed_history_raises Scenario.nulled "[null]" (Js.JArr [Js.JNull])
           H1 H2 H3 H4 H5).
Defined.

Lemma excludes_change_filters_history_only_witness :
  let s := Scenario.with_history Scenario.mixed_history in
  HS.ensureHistoryLoaded s = HS.Ok tt s /\
  HS.history s = Some Scenario.mixed_history /\
  HS.history (HS.state_of (HS.handleExcludesChange s))
  = Some (filter HS.include Scenario.mixed_history).
Proof.
  intro s.
  assert (HS.ensureHistoryLoaded s = HS.Ok tt s) as H1 by reflexivity.
  assert (HS.history s = Some Scenario.mixed_history) as H2 by reflexivity.
  split; [exact H1|]. split; [exact H2|].
  exact (proj1 (proj2 (excludes_change_filters_history_only s s Scenario.mixed_history
                         H1 H2))).
Defined.

Lemma file_deletion_spares_resolved_inputs_witness :
  HS.ensureHistoryLoaded Scenario.abc = HS.Ok tt Scenario.abc /\
  HS.history Scenario.abc = Some [] /\
  HS.log (HS.state_of (HS.onFileChanges ["file:///a.ts"%string] true Scenario.abc))
  = HS.log Scenario.abc.
Proof.
  assert (HS.ensureHistoryLoaded Scenario.abc = HS.Ok tt Scenario.abc) as H1
    by (apply ensureHistoryLoaded_loaded; evaluated).
  assert (HS.history Scenario.abc = Some []) as H2 by evaluated.
  split; [exact H1|]. split; [exact H2|].
  exact (proj1 (proj2 (proj2 (proj2
    (file_deletion_spares_resolved_inputs Scenario.abc Scenario.abc []
       ["file:///a.ts"%string] H1 H2))))).
Defined.

Lemma editor_closed_is_remembered_witness :
  closed_ok (HS.recentlyClosedFiles Scenario.fresh) /\
  closed_ok (HS.recentlyClosedFiles
               (HS.state_of (HS.onEditorClosed (Scenario.closing Scenario.D 3)
                               Scenario.fresh))).
Proof.
  assert (closed_ok (HS.recentlyClosedFiles Scenario.fresh)) as H.
  { split; [constructor|vm_compute; discriminate]. }
  split; [exact H|].
  exact (proj1 (proj2 (editor_closed_is_remembered Scenario.fresh
                         (Scenario.closing Scenario.D 3) H))).
Defined.

Lemma reopen_skips_opened_files_witness :
  HS.ensureHistoryLoaded Scenario.closed_de = HS.Ok tt Scenario.closed_de /\
  HS.recentlyClosedFiles Scenario.closed_de = [] ++ Scenario.closed_d :: [Scenario.closed_e] /\
  HS.isFileOpened (IRecentlyClosedFile.resource Scenario.closed_e) Scenario.group_with_e
  = true /\
  HS.isFileOpened (IRecentlyClosedFile.resource Scenario.closed_d) Scenario.group_with_e
  = false /\
  HS.reopenLastClosedEditor Scenario.group_with_e Scenario.closed_de
  = HS.Ok (Some Scenario.closed_d) (HS.set_recentlyClosedFiles [] Scenario.closed_de).
Proof.
  assert (HS.ensureHistoryLoaded Scenario.closed_de = HS.Ok tt Scenario.closed_de) as H1
    by (apply ensureHistoryLoaded_loaded; evaluated).
  assert (HS.recentlyClosedFiles Scenario.closed_de
          = [] ++ Scenario.closed_d :: [Scenario.closed_e]) as H2
    by evaluated.
  assert (forall a, In a [Scenario.closed_e] ->
            HS.isFileOpened (IRecentlyClosedFile.resource a) Scenario.group_with_e = true)
    as H3 by (intros a [<-|[]]; reflexivity).
  assert (HS.isFileOpened (IRecentlyClosedFile.resource Scenario.closed_d)
            Scenario.group_with_e = false) as H4 by reflexivity.
  split; [exact H1|]. split; [exact H2|]. split; [reflexivity|]. split; [exact H4|].
  exact (proj1 (reopen_skips_opened_files Scenario.closed_de Scenario.closed_de
                  Scenario.group_with_e H1) [] Scenario.closed_d [Scenario.closed_e]
               H2 H3 H4).
Defined.

Lemma last_active_workspace_root_witness :
  let s := Scenario.with_history Scenario.mixed_history in
  HS.ensureHistoryLoaded s = HS.Ok tt s /\
  HS.history s = Some Scenario.mixed_history /\
  HS.getLastActiveWorkspaceRoot true Scenario.root_of ["file:///"%string] s
  = HS.Ok (Some "file:///"%string) s.
Proof.
  intro s.
  assert (HS.ensureHistoryLoaded s = HS.Ok tt s) as H1 by reflexivity.
  assert (HS.history s = Some Scenario.mixed_history) as H2 by reflexivity.
  assert (forall r', In (Resource r') [Resource "file:///a.ts"%string;
                                        Editor (Reference.untitled 1)] ->
                     Scenario.root_of r' = None) as H3.
  { intros r' [H|[H|[]]]; [injection H as <-; reflexivity|discriminate]. }
  split; [exact H1|]. split; [exact H2|].
  exact (proj1 (last_active_workspace_root s s Scenario.mixed_history Scenario.root_of
                  ["file:///"%string] H1 H2)
           [Resource "file:///a.ts"%string; Editor (Reference.untitled 1)]
           "file:///b.ts"%string "file:///"%string [] eq_refl eq_refl H3).
Defined.

End Walkthrough.

Section StrictWalkthrough.
#[local] Existing Instance Reference.strict.

Lemma activation_ignores_exclusions_witness :
  getName Scenario.D <> EmptyString /\
  toResource Scenario.D = Some "file:///d.ts"%string /\
  resourceFilter_matches "file:///d.ts"%string = true /\
  HS.ensureHistoryLoaded Scenario.strict_fresh = HS.Ok tt Scenario.strict_fresh /\
  HS.history (HS.state_of (HS.handleEditorEventInHistory (Some Scenario.strict_editor_d)
                             Scenario.strict_fresh))
  = Some [Resource "file:///d.ts"%string] /\
  HS.raised (HS.handleExcludesChange
               (HS.state_of (HS.handleEditorEventInHistory
                               (Some Scenario.strict_editor_d) Scenario.strict_fresh)))
  = None.
Proof.
  assert (getName Scenario.D <> EmptyString) as H1 by discriminate.
  assert (toResource Scenario.D = Some "file:///d.ts"%string) as H2 by reflexivity.
  assert (resourceFilter_matches "file:///d.ts"%string = true) as H3 by reflexivity.
  assert (HS.ensureHistoryLoaded Scenario.strict_fresh = HS.Ok tt Scenario.strict_fresh)
    as H4 by reflexivity.
  assert (HS.history Scenario.strict_fresh = Some []) as H5 by reflexivity.
  split; [exact H1|]. split; [exact H2|]. split; [exact H3|]. split; [exact H4|].
  split; [evaluated|].
  exact (proj1 (proj2 (activation_ignores_exclusions Scenario.strict_fresh
                         Scenario.strict_fresh [] Scenario.strict_editor_d Scenario.D
                         "file:///d.ts"%string eq_refl H1 H2 H3 H4 H5))).
Defined.

End StrictWalkthrough.
